(** * Videomaker: the loop-and-mux pipeline of [server.js] and [VideoLooper.js]

    A shallow embedding of the JavaScript sources, then what is proved of
    them.

    Definitions:
    - [JS]: the pieces of the JavaScript runtime the code calls ([trim],
      [parseFloat], [parseInt], [toFixed], string [replace], comparisons);
    - [Effects]: files, child processes, the clock and the console, as a
      state-and-exception monad over a world that records what was done;
    - [Server]: [executeCommand], [getVideoDuration],
      [createLoopedVideoWithAudio] and the [/process-video] handler of
      [server.js];
    - [VideoLooper]: [executeCommand] and [createLoopedVideoWithAudio] of
      the stand-alone script [VideoLooper.js];
    - [Sample]: concrete environments the definitions are run on;
    - [Observe]: what is read off a run: the children started, the files
      written, the options of an encoder call, the lines of a manifest;
    - [Page]: the script of [index.html];
    - [Outcomes]: the answers of the handler and what a request is observed
      through;
    - [Cases]: more environments;
    - [Cpp]: [create_looped_video_with_audio] of the C++ port.

    A JavaScript number is [NaN], an infinity or a finite binary64 value,
    held as the rational it is: whatever makes a number ([parseFloat],
    [parseInt], the product) rounds to binary64, to the nearest value with
    ties to the even significand, overflow to an infinity and gradual
    underflow.  The two zeros are not told apart (the code never divides).
    A string is a sequence of characters, one for each code unit, with code
    units below 256.  Everything the program cannot
    decide (what a child process does, which file operation fails, what the
    clock reads, how the host resolves paths) is a field of the environment
    [Effects.Env], and the theorems hold for every environment. *)

From Stdlib Require Import ZArith QArith Qround Qpower Lqa String Ascii List Bool Lia.
From stdpp Require Import base gmap strings list fin_maps pretty.

Open Scope string_scope.
Open Scope Z_scope.
Open Scope list_scope.

(* ===================================================================== *)
(** ** The JavaScript runtime                                             *)
(* ===================================================================== *)

Module JS.

(** *** Numbers *)

Inductive number :=
| NaN
| Infinity
| NegInfinity
| Num (q : Q).

(** The Number of an integer literal of the code (0, 1, 1000), or of an
    integer that binary64 holds exactly. *)
Definition ofZ (z : Z) : number := Num (inject_Z z).

(** [q / 2^e] as a numerator and a denominator. *)
Definition scaled (e : Z) (n d : Z) : Z * Z :=
  if 0 <=? e then (n, d * 2 ^ e) else (n * 2 ^ (- e), d).

(** The integer part of [log2 (n / d)], for [n] and [d] positive. *)
Definition floor_log2 (n d : Z) : Z :=
  let k := Z.log2 n - Z.log2 d in
  let '(n', d') := scaled k n d in
  if d' <=? n' then k else k - 1.

(** The integer nearest to [n / d], the even one on a tie. *)
Definition round_half_even (n d : Z) : Z :=
  let m := n / d in
  match 2 * (n mod d) ?= d with
  | Lt => m
  | Gt => m + 1
  | Eq => if Z.even m then m else m + 1
  end.

(** The binary64 value nearest to [n / d], for [n] and [d] positive: a
    significand of at most 53 bits times a power of two not below
    [2^-1074]; [Infinity] from [2^1024 - 2^970] on. *)
Definition double_pos (n d : Z) : number :=
  let e := Z.max (floor_log2 n d - 52) (-1074) in
  let '(n', d') := scaled e n d in
  let m := round_half_even n' d' in
  if (971 <? e) || ((e =? 971) && (m =? 2 ^ 53)) then Infinity
  else Num (Qred (if 0 <=? e then inject_Z (m * 2 ^ e) else m # Z.to_pos (2 ^ (- e)))).

Definition neg (x : number) : number :=
  match x with
  | NaN => NaN
  | Infinity => NegInfinity
  | NegInfinity => Infinity
  | Num q => Num (- q)
  end.

(** The Number a real value gives: the value rounded to binary64. *)
Definition double (q : Q) : number :=
  match Qnum q with
  | Z0 => Num 0
  | Zpos n => double_pos (Zpos n) (Zpos (Qden q))
  | Zneg n => neg (double_pos (Zpos n) (Zpos (Qden q)))
  end.

Definition isNaN (x : number) : bool :=
  match x with NaN => true | _ => false end.

(** [x < y] and [x <= y]; every comparison with [NaN] is false. *)
Definition lt (x y : number) : bool :=
  match x, y with
  | NaN, _ | _, NaN => false
  | _, NegInfinity => false
  | NegInfinity, _ => true
  | Infinity, _ => false
  | _, Infinity => true
  | Num p, Num q => negb (Qle_bool q p)
  end.

Definition le (x y : number) : bool :=
  match x, y with
  | NaN, _ | _, NaN => false
  | NegInfinity, _ => true
  | _, NegInfinity => false
  | _, Infinity => true
  | Infinity, _ => false
  | Num p, Num q => Qle_bool p q
  end.

Definition sign (x : number) : Z :=
  match x with
  | NaN => 0
  | Infinity => 1
  | NegInfinity => -1
  | Num q => Z.sgn (Qnum q)
  end.

(** [x * y]: the product, rounded *)
Definition mul (x y : number) : number :=
  match x, y with
  | NaN, _ | _, NaN => NaN
  | Num p, Num q => double (p * q)
  | _, _ =>
      match sign x * sign y with
      | Z0 => NaN
      | Zpos _ => Infinity
      | Zneg _ => NegInfinity
      end
  end.

(** *** Characters and strings *)

Definition code (c : ascii) : N := N_of_ascii c.

(** White space and line terminators: TAB, LF, VT, FF, CR, SP and NBSP
    (the others have code units from 256 on). *)
Definition is_space (c : ascii) : bool :=
  let n := code c in
  N.eqb n 9 || N.eqb n 10 || N.eqb n 11 || N.eqb n 12 || N.eqb n 13 || N.eqb n 32
  || N.eqb n 160.

Definition digit_of (c : ascii) : option Z :=
  let n := code c in
  if N.leb 48 n && N.leb n 57 then Some (Z.of_N n - 48) else None.

Definition hex_digit_of (c : ascii) : option Z :=
  let n := code c in
  if N.leb 48 n && N.leb n 57 then Some (Z.of_N n - 48)
  else if N.leb 97 n && N.leb n 102 then Some (Z.of_N n - 87)
  else if N.leb 65 n && N.leb n 70 then Some (Z.of_N n - 55)
  else None.

Fixpoint trimStart (s : string) : string :=
  match s with
  | String c r => if is_space c then trimStart r else s
  | EmptyString => EmptyString
  end.

Definition reverse (s : string) : string :=
  string_of_list_ascii (rev (list_ascii_of_string s)).

Definition trimEnd (s : string) : string := reverse (trimStart (reverse s)).

(** [s.trim()] *)
Definition trim (s : string) : string := trimEnd (trimStart s).

(** [s.replace(/\\/g, '/')] *)
Fixpoint replace_backslashes (s : string) : string :=
  match s with
  | String c r =>
      String (if Ascii.eqb c "\"%char then "/"%char else c) (replace_backslashes r)
  | EmptyString => EmptyString
  end.

(** [s.replace(/\r\n|\r|\n/g, ' ')] *)
Fixpoint replace_newlines (s : string) : string :=
  match s with
  | String c r =>
      if N.eqb (code c) 13 then
        match r with
        | String d r' =>
            if N.eqb (code d) 10 then String " " (replace_newlines r')
            else String " " (replace_newlines r)
        | EmptyString => String " " EmptyString
        end
      else if N.eqb (code c) 10 then String " " (replace_newlines r)
      else String c (replace_newlines r)
  | EmptyString => EmptyString
  end.

(** [s.substring(0, n)] *)
Definition substring0 (n : nat) (s : string) : string := String.substring 0 n s.

(** [s.includes(c)] for a one-character needle *)
Fixpoint includes_char (c : ascii) (s : string) : bool :=
  match s with
  | String d r => Ascii.eqb c d || includes_char c r
  | EmptyString => false
  end.

(** Template-literal rendering of an integer. *)
Definition show (z : Z) : string := pretty z.

(** *** Reading numbers *)

Fixpoint take_digits (digit : ascii -> option Z) (s : string) : list Z * string :=
  match s with
  | String c r =>
      match digit c with
      | Some d => let '(ds, rest) := take_digits digit r in (d :: ds, rest)
      | None => ([], s)
      end
  | EmptyString => ([], EmptyString)
  end.

Definition digits_value (radix : Z) (ds : list Z) : Z :=
  fold_left (fun acc d => radix * acc + d) ds 0.

Definition take_sign (s : string) : Z * string :=
  match s with
  | String "-" r => (-1, r)
  | String "+" r => (1, r)
  | _ => (1, s)
  end.

Definition pow10 (k : Z) : Q :=
  if (0 <=? k)%Z then inject_Z (10 ^ k) else 1 # Z.to_pos (10 ^ (- k)).

(** The longest prefix that is an unsigned decimal literal: digits, an
    optional fraction, an optional exponent; its exact value. *)
Definition unsigned_literal (s : string) : option Q :=
  let '(ip, r1) := take_digits digit_of s in
  let '(fp, r2) :=
    match r1 with
    | String "." r => take_digits digit_of r
    | _ => ([], r1)
    end in
  match ip ++ fp with
  | [] => None
  | ds =>
      let e :=
        match r2 with
        | String c r =>
            if Ascii.eqb c "e" || Ascii.eqb c "E" then
              let '(sg, r3) := take_sign r in
              let '(ed, _) := take_digits digit_of r3 in
              match ed with
              | [] => 0
              | _ => sg * digits_value 10 ed
              end
            else 0
        | EmptyString => 0
        end in
      Some (Qred (inject_Z (digits_value 10 ds) * pow10 (e - Z.of_nat (length fp))))
  end.

(** [parseFloat(s)] *)
Definition parseFloat (s : string) : number :=
  let '(sg, r) := take_sign (trimStart s) in
  if String.prefix "Infinity" r then (if (sg <? 0)%Z then NegInfinity else Infinity)
  else
    match unsigned_literal r with
    | Some q => double (inject_Z sg * q)
    | None => NaN
    end.

(** The Number of a mathematical integer: itself up to [2^53], rounded
    beyond. *)
Definition of_integer (z : Z) : number :=
  if Z.abs z <=? 2 ^ 53 then ofZ z else double (inject_Z z).

(** [parseInt(s)] with no radix argument: decimal, or hexadecimal after
    a [0x] prefix. *)
Definition parseInt (s : string) : number :=
  let '(sg, r) := take_sign (trimStart s) in
  let '(radix, digit, body) :=
    match r with
    | String "0" (String "x" r') => (16, hex_digit_of, r')
    | String "0" (String "X" r') => (16, hex_digit_of, r')
    | _ => (10, digit_of, r)
    end in
  match fst (take_digits digit body) with
  | [] => NaN
  | ds => of_integer (sg * digits_value radix ds)
  end.

(** *** Writing numbers *)

Fixpoint zeros (n : nat) : string :=
  match n with
  | O => EmptyString
  | S k => String "0" (zeros k)
  end.

(** The integer [n] for which [n / 10^f - x] is closest to zero, the larger
    one on a tie ([x >= 0]). *)
Definition nearest_scaled (f : nat) (x : Q) : Z :=
  Qfloor (x * inject_Z (10 ^ Z.of_nat f) + (1 # 2)).

(** The digits of [n] with a point before the last [f] of them. *)
Definition fixed_digits (f : nat) (n : Z) : string :=
  let m := show n in
  let m := if (String.length m <=? f)%nat
           then zeros (f + 1 - String.length m) +:+ m else m in
  match f with
  | O => m
  | _ =>
      let k := String.length m in
      String.substring 0 (k - f) m +:+ "." +:+ String.substring (k - f) f m
  end.

(** [String(x)] for a finite [x >= 1e21], which is an integer: the fewest
    digits [s] for which [s * 10^(n - k)] reads back as [x] (the nearest to
    [x] when two do), found by trying [k = 1, 2, ...] digits; seventeen
    always do. *)
Fixpoint shortest_digits (fuel : nat) (k n x : Z) : Z * Z :=
  match fuel with
  | O => (x, n)
  | S fuel' =>
      let p := 10 ^ (n - k) in
      let lo := x / p in
      let hi := lo + 1 in
      let reads_back s :=
        match double (inject_Z (s * p)) with
        | Num q => Qeq_bool q (inject_Z x)
        | _ => false
        end in
      let up := if hi =? 10 ^ k then (10 ^ (k - 1), n + 1) else (hi, n) in
      match reads_back lo, reads_back hi with
      | true, true =>
          match x - lo * p ?= hi * p - x with
          | Lt => (lo, n)
          | Gt => up
          | Eq => if Z.even lo then (lo, n) else up
          end
      | true, false => (lo, n)
      | false, true => up
      | false, false => shortest_digits fuel' (k + 1) n x
      end
  end.

(** The digits, a point after the first when there are more, and the
    exponent: [1e+21], [1.5e+300]. *)
Definition exponential (x : Z) : string :=
  let '(s, n) := shortest_digits 17 1 (Z.of_nat (String.length (show x))) x in
  match show s with
  | String c EmptyString => String c EmptyString +:+ "e+" +:+ show (n - 1)
  | String c r => String c ("." +:+ r) +:+ "e+" +:+ show (n - 1)
  | EmptyString => EmptyString
  end.

(** [x.toFixed(f)]: fixed notation below [1e21], [String(x)] from there
    on. *)
Definition toFixed (f : nat) (x : number) : string :=
  match x with
  | NaN => "NaN"
  | Infinity => "Infinity"
  | NegInfinity => "-Infinity"
  | Num q =>
      let fixed (a : Q) :=
        if Qle_bool (inject_Z (10 ^ 21)) a then exponential (Qfloor a)
        else fixed_digits f (nearest_scaled f a) in
      if Qle_bool 0 q then fixed q else "-" +:+ fixed (- q)%Q
  end.

End JS.

(* ===================================================================== *)
(** ** Files, child processes, clock and console                          *)
(* ===================================================================== *)

Module Effects.

(** What becomes of a child process: it could not be started (the
    ['error'] event), or it closed with an exit code ([None] is the [null]
    code of a child ended by a signal) after writing [out] and [err], or it
    never ends and neither event arrives. *)
Inductive child :=
| SpawnFailed (reason : string)
| Closed (exitCode : option Z) (out err : string)
| Pending.

(** What the program does to the outside, in the order it does it.  Of the
    console only [console.warn] is recorded; [console.log] and
    [console.error] change nothing that is observed here. *)
Inductive event :=
| Access (p : string)
| ExistsSync (p : string) (found : bool)
| WriteFile (p content : string)
| Unlink (p : string)
| Spawn (command : string) (args : list string)
| Exec (commandLine : string)
| Warn (msg : string).

(** A JavaScript [Error] with the properties the code attaches to it;
    [None] is [undefined]. *)
#[warnings="-register-all"] Inductive jsError := MkError {
  message : string;
  stdout : option string;
  stderr : option string;
  code : option (option Z);
  ffmpegStdout : option string;
  ffmpegStderr : option string;
  originalError : option jsError
}.

(** [new Error(msg)] *)
Definition newError (msg : string) : jsError :=
  MkError msg None None None None None None.

(** Truthiness of a string-or-undefined value. *)
Definition truthy (v : option string) : bool :=
  match v with
  | Some s => negb (String.eqb s "")
  | None => false
  end.

(** [a || b] *)
Definition js_or (a b : option string) : option string :=
  if truthy a then a else b.

(** [e.originalError && e.originalError.f] *)
Definition of_original (f : jsError -> option string) (e : jsError) : option string :=
  match originalError e with
  | Some o => f o
  | None => None
  end.

(** The environment the program runs in: the path library, the two
    configured directories, the clock, what each child process does to the
    files and how it ends, and which file operations fail. *)
Record Env := {
  path_resolve : list string -> string;
  path_parse_name : string -> string;
  UPLOAD_DIR : string;
  OUTPUT_DIR : string;
  Date_now : nat -> Z;
  spawn_child : string -> list string -> gmap string string -> child * gmap string string;
  exec_child : string -> gmap string string -> child * gmap string string;
  writeFile_error : string -> option string;
  unlink_error : string -> option string
}.

Record world := {
  files : gmap string string;
  clock_reads : nat;
  trace : list event
}.

Definition record (ev : event) (w : world) : world :=
  {| files := files w; clock_reads := clock_reads w; trace := trace w ++ [ev] |}.

Definition set_files (fs : gmap string string) (w : world) : world :=
  {| files := fs; clock_reads := clock_reads w; trace := trace w |}.

(** *** The monad: state, exceptions, and a computation that never ends *)

Inductive outcome (A : Type) :=
| Ret (a : A)
| Throw (e : jsError)
| Hang.
Arguments Ret {A} a.
Arguments Throw {A} e.
Arguments Hang {A}.

Definition M (A : Type) : Type := world -> outcome A * world.

Definition ret {A} (a : A) : M A := fun w => (Ret a, w).

Definition bind {A B} (m : M A) (k : A -> M B) : M B := fun w =>
  match m w with
  | (Ret a, w') => k a w'
  | (Throw e, w') => (Throw e, w')
  | (Hang, w') => (Hang, w')
  end.

Notation "'let*' x ':=' m 'in' k" := (bind m (fun x => k))
  (at level 10, x pattern, m at level 100, k at level 200).
Notation "m '>>' k" := (bind m (fun _ => k))
  (at level 100, k at level 200, right associativity).

Definition throw {A} (e : jsError) : M A := fun w => (Throw e, w).

Definition hang {A} : M A := fun w => (Hang, w).

(** [try { m } catch (e) { h e }] *)
Definition try_catch {A} (m : M A) (h : jsError -> M A) : M A := fun w =>
  match m w with
  | (Throw e, w') => h e w'
  | r => r
  end.

(** [try { m } finally { c }]: [c] runs after [m] returns or throws; what
    [m] did stands unless [c] itself throws. *)
Definition try_finally {A} (m : M A) (c : M unit) : M A := fun w =>
  match m w with
  | (Hang, w') => (Hang, w')
  | (r, w') =>
      match c w' with
      | (Ret _, w'') => (r, w'')
      | (Throw e, w'') => (Throw e, w'')
      | (Hang, w'') => (Hang, w'')
      end
  end.

(** [for (const x of l) { body x }] *)
Fixpoint for_of {A} (l : list A) (body : A -> M unit) : M unit :=
  match l with
  | [] => ret tt
  | x :: r => body x >> for_of r body
  end.

(** *** Primitive actions *)

Definition emit (ev : event) : M unit := fun w => (Ret tt, record ev w).

(** [console.warn(msg)] *)
Definition console_warn (msg : string) : M unit := emit (Warn msg).

(** [fs.access(p)] *)
Definition fs_access (p : string) : M unit := fun w =>
  let w' := record (Access p) w in
  match files w !! p with
  | Some _ => (Ret tt, w')
  | None => (Throw (newError ("ENOENT: no such file or directory, access '" +:+ p +:+ "'")), w')
  end.

(** [fssync.existsSync(p)] *)
Definition existsSync (p : string) : M bool := fun w =>
  let b := bool_decide (is_Some (files w !! p)) in
  (Ret b, record (ExistsSync p b) w).

(** [fs.writeFile(p, content)] *)
Definition fs_writeFile (env : Env) (p content : string) : M unit := fun w =>
  let w' := record (WriteFile p content) w in
  match writeFile_error env p with
  | Some msg => (Throw (newError msg), w')
  | None => (Ret tt, set_files (<[p := content]> (files w)) w')
  end.

(** [fs.unlink(p)] *)
Definition fs_unlink (env : Env) (p : string) : M unit := fun w =>
  let w' := record (Unlink p) w in
  match files w !! p with
  | None => (Throw (newError ("ENOENT: no such file or directory, unlink '" +:+ p +:+ "'")), w')
  | Some _ =>
      match unlink_error env p with
      | Some msg => (Throw (newError msg), w')
      | None => (Ret tt, set_files (delete p (files w)) w')
      end
  end.

(** [Date.now()] *)
Definition now (env : Env) : M Z := fun w =>
  (Ret (Date_now env (clock_reads w)),
   {| files := files w; clock_reads := S (clock_reads w); trace := trace w |}).

(** [spawn(command, args)], with what becomes of the child. *)
Definition spawn (env : Env) (command : string) (args : list string) : M child := fun w =>
  let '(c, fs) := spawn_child env command args (files w) in
  (Ret c, set_files fs (record (Spawn command args) w)).

(** [exec(commandLine)], with what becomes of the child: the line is
    handed to a shell. *)
Definition exec (env : Env) (commandLine : string) : M child := fun w =>
  let '(c, fs) := exec_child env commandLine (files w) in
  (Ret c, set_files fs (record (Exec commandLine) w)).

(** A double quote, for the messages and command lines that contain one. *)
Definition dq : string := String (ascii_of_nat 34) EmptyString.

End Effects.

(* ===================================================================== *)
(** ** server.js                                                          *)
(* ===================================================================== *)

Module Server.
Import Effects.

(** A line feed. *)
Definition nl : string := String (ascii_of_nat 10) EmptyString.

(** [`${code}`] for an exit code *)
Definition show_code (exitCode : option Z) : string :=
  match exitCode with
  | Some z => JS.show z
  | None => "null"
  end.

(** The arguments of the three child processes. *)

Definition probeArgs (filePath : string) : list string :=
  [ "-v"; "error";
    "-show_entries"; "format=duration";
    "-of"; "default=noprint_wrappers=1:nokey=1";
    filePath ].

Definition loopArgs (tempConcatFilePath tempLoopedVideoPath : string) : list string :=
  [ "-y";
    "-f"; "concat";
    "-safe"; "0";
    "-i"; tempConcatFilePath;
    "-an";
    "-c:v"; "copy";
    tempLoopedVideoPath ].

Definition combineArgs (tempLoopedVideoPath absInputAudioPath : string) (fullHD : bool)
    (totalLoopedVideoDuration : JS.number) (absOutputVideoPath : string) : list string :=
  [ "-y";
    "-i"; tempLoopedVideoPath;
    "-stream_loop"; "-1";
    "-i"; absInputAudioPath;
    "-map"; "0:v:0";
    "-map"; "1:a:0";
    "-c:v"; if fullHD then "libx264" else "copy" ]
  ++ (if fullHD then [ "-vf"; "scale=1920:1080"; "-preset"; "medium"; "-crf"; "23" ] else [])
  ++ [ "-c:a"; "aac";
       "-b:a"; "192k";
       "-t"; JS.toFixed 3 totalLoopedVideoDuration;
       absOutputVideoPath ].

(** The manifest loop
    [for (let i = 0; i < numLoops; ++i) concatFileContent += `file '...'\n`],
    followed for at most [fuel] tests of its condition. *)
Fixpoint concat_loop (fuel : nat) (i : Z) (numLoops : JS.number)
    (videoPathForConcat concatFileContent : string) : option string :=
  match fuel with
  | O => None
  | S fuel' =>
      if JS.lt (JS.ofZ i) numLoops then
        concat_loop fuel' (i + 1) numLoops videoPathForConcat
          (concatFileContent +:+ ("file '" +:+ videoPathForConcat +:+ "'" +:+ nl))
      else Some concatFileContent
  end.

(** What [createLoopedVideoWithAudio] resolves to. *)
Record result := {
  success : bool;
  outputPath : string;
  outputFileName : string
}.

(** An uploaded file as multer hands it over. *)
Record upload := {
  path : string;
  originalname : string
}.

Record request := {
  videoFile : option upload;
  audioFile : option upload;
  body_numLoops : option string;
  body_fullHD : option string
}.

(** The status and the JSON body the handler answers with. *)
Record response := {
  status : Z;
  json_success : bool;
  json_message : string;
  json_downloadUrl : option string;
  json_outputFileName : option string
}.

(** The two character classes of the file-name clean-ups.
    [/[^a-zA-Z0-9_.-]/]: letters, digits, underscore, dot, dash are kept. *)
Definition is_alnum (c : ascii) : bool :=
  let n := JS.code c in
  (N.leb 97 n && N.leb n 122) || (N.leb 65 n && N.leb n 90) || (N.leb 48 n && N.leb n 57).

Definition kept_in_output_name (c : ascii) : bool :=
  is_alnum c || N.eqb (JS.code c) 95 || N.eqb (JS.code c) 46 || N.eqb (JS.code c) 45.

(** [/[^a-zA-Z0-9.-_]/]: here [.-_] is the range from the dot to the
    underscore. *)
Definition kept_in_upload_name (c : ascii) : bool :=
  is_alnum c || (N.leb 46 (JS.code c) && N.leb (JS.code c) 95).

Fixpoint replace_unless (keep : ascii -> bool) (s : string) : string :=
  match s with
  | String c r => String (if keep c then c else "_"%char) (replace_unless keep r)
  | EmptyString => EmptyString
  end.

(** The [filename] callback of the multer storage: [t] is [Date.now()] and
    [rnd] is [Math.round(Math.random() * 1E9)]. *)
Definition storage_filename (t rnd : Z) (originalname : string) : string :=
  let uniqueSuffix := JS.show t +:+ "-" +:+ JS.show rnd in
  uniqueSuffix +:+ "-" +:+ replace_unless kept_in_upload_name originalname.

Section Server.

Context (env : Env).

(** How many tests of the manifest loop's condition are followed; a run
    that needs more is a [Hang]. *)
Context (fuel : nat).

(** [executeCommand(command, args)]: the promise is settled by the
    ['close'] or the ['error'] event of the child, and by nothing else. *)
Definition executeCommand (command : string) (args : list string) : M (string * string) :=
  let* c := spawn env command args in
  match c with
  | Pending => hang
  | Closed (Some 0) out err => ret (out, err)
  | Closed exitCode out err =>
      throw (MkError
               ("Command " +:+ dq +:+ command +:+ dq +:+ " failed with code "
                  +:+ show_code exitCode +:+ ".")
               (Some out) (Some err) (Some exitCode) None None None)
  | SpawnFailed reason =>
      throw (newError
               ("Failed to start subprocess for " +:+ dq +:+ command +:+ dq +:+ ": "
                  +:+ reason
                  +:+ ". Ensure FFmpeg/ffprobe is installed and in your system's PATH."))
  end.

(** [getVideoDuration(filePath)] *)
Definition getVideoDuration (filePath : string) : M JS.number :=
  let command := "ffprobe" in
  let args := probeArgs filePath in
  try_catch
    (let* (out, err) := executeCommand command args in
     (if truthy (Some err) && negb (String.eqb (JS.trim err) "")
           && negb (truthy (Some (JS.trim out)))
      then console_warn ("ffprobe for " +:+ filePath
                           +:+ " produced stderr without stdout duration: " +:+ JS.trim err)
      else ret tt) >>
     let duration := JS.parseFloat (JS.trim out) in
     if JS.isNaN duration || JS.le duration (JS.ofZ 0) then
       let errorMessage :=
         "Could not parse a valid, positive video duration from ffprobe output for "
           +:+ filePath +:+ ". stdout: " +:+ dq +:+ JS.trim out +:+ dq
           +:+ ", stderr: " +:+ dq +:+ JS.trim err +:+ dq in
       throw (MkError errorMessage None None None (Some out) (Some err) None)
     else ret duration)
    (fun error =>
       throw (MkError
                ("Failed to get video duration for " +:+ dq +:+ filePath +:+ dq +:+ ". "
                   +:+ message error)
                None None None
                (js_or (stdout error) (of_original stdout error))
                (js_or (stderr error) (of_original stderr error))
                (Some error))).

(** The [catch] of [createLoopedVideoWithAudio]: the error that is thrown
    on. *)
Definition processingError (error : jsError) : jsError :=
  MkError ("Video processing failed: " +:+ message error)
    None None None
    (if truthy (ffmpegStdout error) then ffmpegStdout error
     else if truthy (of_original stdout error) then of_original stdout error
     else None)
    (if truthy (ffmpegStderr error) then ffmpegStderr error
     else if truthy (of_original stderr error) then of_original stderr error
     else None)
    None.

(** The [finally] of [createLoopedVideoWithAudio]. *)
Definition cleanup (tempConcatFilePath tempLoopedVideoPath : string) : M unit :=
  for_of [tempConcatFilePath; tempLoopedVideoPath] (fun tempFile =>
    try_catch
      (let* found := existsSync tempFile in
       if found then fs_unlink env tempFile else ret tt)
      (fun e =>
         console_warn ("Warning: Could not remove temporary file: " +:+ tempFile
                         +:+ " (" +:+ message e +:+ ")"))).

(** The names of the two temporary files, from the reading [t] of
    [Date.now()] each is built with. *)
Definition tempConcatFilePath (t : Z) : string :=
  path_resolve env [UPLOAD_DIR env; "ffmpeg_concat_" +:+ JS.show t +:+ ".txt"].

Definition tempLoopedVideoPath (t : Z) : string :=
  path_resolve env [UPLOAD_DIR env; "temp_looped_video_only_" +:+ JS.show t +:+ ".mp4"].

(** [createLoopedVideoWithAudio(inputVideoPath, inputAudioPath, numLoops,
    outputFileName, fullHD)] *)
Definition createLoopedVideoWithAudio (inputVideoPath inputAudioPath : string)
    (numLoops : JS.number) (outputFileName : string) (fullHD : bool) : M result :=
  let absInputVideoPath := path_resolve env [inputVideoPath] in
  let absInputAudioPath := path_resolve env [inputAudioPath] in
  let absOutputVideoPath := path_resolve env [OUTPUT_DIR env; outputFileName] in
  try_catch (fs_access absInputVideoPath)
    (fun _ => throw (newError ("Input video file not found at '" +:+ absInputVideoPath
                                 +:+ "' (post-upload check)"))) >>
  try_catch (fs_access absInputAudioPath)
    (fun _ => throw (newError ("Input audio file not found at '" +:+ absInputAudioPath
                                 +:+ "' (post-upload check)"))) >>
  (if JS.le numLoops (JS.ofZ 0)
   then throw (newError "Number of loops must be a positive integer.")
   else ret tt) >>
  let* t1 := now env in
  let tempConcatFilePath := tempConcatFilePath t1 in
  let* t2 := now env in
  let tempLoopedVideoPath := tempLoopedVideoPath t2 in
  try_finally
    (try_catch
       (let* inputVideoDuration := getVideoDuration absInputVideoPath in
        let totalLoopedVideoDuration := JS.mul inputVideoDuration numLoops in
        let videoPathForConcat := JS.replace_backslashes absInputVideoPath in
        let* concatFileContent :=
          match concat_loop fuel 0 numLoops videoPathForConcat "" with
          | Some content => ret content
          | None => hang
          end in
        fs_writeFile env tempConcatFilePath concatFileContent >>
        executeCommand "ffmpeg" (loopArgs tempConcatFilePath tempLoopedVideoPath) >>
        executeCommand "ffmpeg"
          (combineArgs tempLoopedVideoPath absInputAudioPath fullHD
             totalLoopedVideoDuration absOutputVideoPath) >>
        ret {| success := true;
                outputPath := absOutputVideoPath;
                outputFileName := outputFileName |})
       (fun error => throw (processingError error)))
    (cleanup tempConcatFilePath tempLoopedVideoPath).

(** [fs.unlink(p).catch(e => console.warn(msg))] when [p] exists *)
Definition unlink_if_exists_or_warn (p msg : string) : M unit :=
  let* found := existsSync p in
  if found then try_catch (fs_unlink env p) (fun _ => console_warn msg) else ret tt.

Definition unlink_if_exists (p : string) : M unit :=
  let* found := existsSync p in
  if found then fs_unlink env p else ret tt.

(** The message sent to the client when processing fails. *)
Definition clientErrorMessage (error : jsError) : string :=
  let base :=
    if String.eqb (message error) "" then "An error occurred during video processing."
    else message error in
  match ffmpegStderr error with
  | Some s =>
      if String.eqb s "" then base
      else
        let cleanStderr := JS.substring0 300 (JS.replace_newlines s) in
        base +:+ " (Details: " +:+ cleanStderr
          +:+ (if (300 <? String.length s)%nat then "..." else "") +:+ ")"
  | None => base
  end.

(** The name of the output file, from the uploaded video's original name
    and the reading [t] of [Date.now()]. *)
Definition outputFileName_of (originalname : string) (t : Z) : string :=
  let originalVideoNameSanitized :=
    replace_unless kept_in_output_name (path_parse_name env originalname) in
  "looped_" +:+ originalVideoNameSanitized +:+ "_" +:+ JS.show t +:+ ".mp4".

(** The handler of [POST /process-video]. *)
Definition process_video (req : request) : M response :=
  match videoFile req, audioFile req with
  | Some videoFile, Some audioFile =>
      let numLoops :=
        JS.parseInt (match body_numLoops req with Some s => s | None => "undefined" end) in
      if JS.isNaN numLoops || JS.lt numLoops (JS.ofZ 1) || JS.lt (JS.ofZ 1000) numLoops then
        unlink_if_exists_or_warn (path videoFile)
          "Cleanup failed for video upload on invalid loops" >>
        unlink_if_exists_or_warn (path audioFile)
          "Cleanup failed for audio upload on invalid loops" >>
        ret {| status := 400;
                json_success := false;
                json_message := "Number of loops must be an integer between 1 and 1000.";
                json_downloadUrl := None;
                json_outputFileName := None |}
      else
        let fullHD :=
          match body_fullHD req with
          | Some s => String.eqb s "true"
          | None => false
          end in
        let* t := now env in
        let outputFileName := outputFileName_of (originalname videoFile) t in
        try_finally
          (try_catch
             (createLoopedVideoWithAudio (path videoFile) (path audioFile) numLoops
                outputFileName fullHD >>
              ret {| status := 200;
                      json_success := true;
                      json_message := "Video processed successfully!";
                      json_downloadUrl := Some ("/processed/" +:+ outputFileName);
                      json_outputFileName := Some outputFileName |})
             (fun error =>
                ret {| status := 500;
                        json_success := false;
                        json_message := clientErrorMessage error;
                        json_downloadUrl := None;
                        json_outputFileName := None |}))
          (try_catch
             (unlink_if_exists (path videoFile) >>
              unlink_if_exists (path audioFile))
             (fun e =>
                console_warn
                  ("Warning: Could not delete one or more uploaded files post-processing: "
                     +:+ message e)))
  | v, a =>
      match v with
      | Some f =>
          unlink_if_exists_or_warn (path f)
            "Cleanup failed for partial video upload on missing files error"
      | None => ret tt
      end >>
      match a with
      | Some f =>
          unlink_if_exists_or_warn (path f)
            "Cleanup failed for partial audio upload on missing files error"
      | None => ret tt
      end >>
      ret {| status := 400;
              json_success := false;
              json_message := "Both video and audio files are required.";
              json_downloadUrl := None;
              json_outputFileName := None |}
  end.

End Server.

End Server.

(* ===================================================================== *)
(** ** VideoLooper.js                                                     *)
(* ===================================================================== *)

Module VideoLooper.
Import Effects.

(** The manifest loop; the path is cleaned inside the body here. *)
Fixpoint concat_loop (fuel : nat) (i : Z) (numLoops : JS.number)
    (absInputVideoPath concatFileContent : string) : option string :=
  match fuel with
  | O => None
  | S fuel' =>
      if JS.lt (JS.ofZ i) numLoops then
        let sanitizedPath := JS.replace_backslashes absInputVideoPath in
        concat_loop fuel' (i + 1) numLoops absInputVideoPath
          (concatFileContent +:+ ("file '" +:+ sanitizedPath +:+ "'" +:+ Server.nl))
      else Some concatFileContent
  end.

(** The two command lines, each one string for the shell. *)

Definition loopCommand (tempConcatFilePath tempLoopedVideoPath : string) : string :=
  "ffmpeg -y -f concat -safe 0 -i " +:+ dq +:+ tempConcatFilePath +:+ dq
    +:+ " -an -c:v copy " +:+ dq +:+ tempLoopedVideoPath +:+ dq.

Definition combineCommand (tempLoopedVideoPath absInputAudioPath absOutputVideoPath : string)
    : string :=
  "ffmpeg -y -i " +:+ dq +:+ tempLoopedVideoPath +:+ dq
    +:+ " -i " +:+ dq +:+ absInputAudioPath +:+ dq
    +:+ " -map 0:v:0 -map 1:a:0 -c:v copy -c:a aac -b:a 192k -shortest "
    +:+ dq +:+ absOutputVideoPath +:+ dq.

Section VideoLooper.

Context (env : Env).
Context (fuel : nat).

(** [executeCommand(command)]: the promise is settled by the callback of
    [exec], which is called when the child has ended. *)
Definition executeCommand (command : string) : M (string * string) :=
  let* c := exec env command in
  match c with
  | Pending => hang
  | Closed (Some 0) out err => ret (out, err)
  | Closed exitCode out err =>
      throw (MkError ("Command failed: " +:+ command +:+ Server.nl +:+ err)
               None None (Some exitCode) None None None)
  | SpawnFailed reason => throw (newError reason)
  end.

(** [try { await fs.access(p) } catch (e) { ... }]: whether [p] was found *)
Definition found (p : string) : M bool :=
  try_catch (fs_access p >> ret true) (fun _ => ret false).

(** The [finally] of [createLoopedVideoWithAudio]. *)
Definition cleanup (tempConcatFilePath tempLoopedVideoPath : string) : M unit :=
  try_catch (fs_unlink env tempConcatFilePath)
    (fun e =>
       console_warn ("Warning: Could not remove temporary concat file: "
                       +:+ tempConcatFilePath +:+ " (" +:+ message e +:+ ")")) >>
  try_catch (fs_unlink env tempLoopedVideoPath)
    (fun e =>
       console_warn ("Warning: Could not remove temporary looped video file: "
                       +:+ tempLoopedVideoPath +:+ " (" +:+ message e +:+ ")")).

(** The names of the two temporary files. *)
Definition tempConcatFilePath : string := path_resolve env ["ffmpeg_concat_list.txt"].

Definition tempLoopedVideoPath : string := path_resolve env ["temp_looped_video_only.mp4"].

(** [createLoopedVideoWithAudio(inputVideoPath, inputAudioPath, numLoops,
    outputVideoPath)] *)
Definition createLoopedVideoWithAudio (inputVideoPath inputAudioPath : string)
    (numLoops : JS.number) (outputVideoPath : string) : M bool :=
  let absInputVideoPath := path_resolve env [inputVideoPath] in
  let absInputAudioPath := path_resolve env [inputAudioPath] in
  let absOutputVideoPath := path_resolve env [outputVideoPath] in
  let* videoFound := found absInputVideoPath in
  if negb videoFound then ret false else
  let* audioFound := found absInputAudioPath in
  if negb audioFound then ret false else
  if JS.le numLoops (JS.ofZ 0) then ret false else
  try_finally
    (try_catch
       (let* concatFileContent :=
          match concat_loop fuel 0 numLoops absInputVideoPath "" with
          | Some content => ret content
          | None => hang
          end in
        fs_writeFile env tempConcatFilePath concatFileContent >>
        executeCommand (loopCommand tempConcatFilePath tempLoopedVideoPath) >>
        executeCommand (combineCommand tempLoopedVideoPath absInputAudioPath
                          absOutputVideoPath) >>
        ret true)
       (fun _ => ret false))
    (cleanup tempConcatFilePath tempLoopedVideoPath).

End VideoLooper.

End VideoLooper.

(* ===================================================================== *)
(** ** Concrete environments on which the definitions are run             *)
(* ===================================================================== *)

Module Sample.
Import Effects.

(** [path.resolve] on a POSIX host with working directory [cwd], for
    segments without [.] and [..]. *)
Definition resolve (cwd : string) (segments : list string) : string :=
  fold_left
    (fun acc seg =>
       match seg with
       | EmptyString => acc
       | String c _ => if Ascii.eqb c "/" then seg else acc +:+ "/" +:+ seg
       end)
    segments cwd.

Fixpoint after_last_slash (s : string) : string :=
  match s with
  | String c r => if JS.includes_char "/" s then after_last_slash r else s
  | EmptyString => EmptyString
  end.

Fixpoint before_last_dot (s : string) : string :=
  match s with
  | String c r =>
      if JS.includes_char "." r then String c (before_last_dot r)
      else if Ascii.eqb c "." then EmptyString
      else String c (before_last_dot r)
  | EmptyString => EmptyString
  end.

(** [path.parse(p).name]: the base name without its last extension. *)
Definition parse_name (p : string) : string :=
  match after_last_slash p with
  | String c r => String c (before_last_dot r)
  | EmptyString => EmptyString
  end.

(** Which of the three children a [spawn] starts. *)
Definition is_probe (command : string) : bool := String.eqb command "ffprobe".

Definition is_compose (args : list string) : bool :=
  bool_decide ("-map" ∈ args).

(** The encoder leaves a file at its last argument, also when it fails. *)
Definition written_by (args : list string) (fs : gmap string string) : gmap string string :=
  match last args with
  | Some out => <[out := "media"]> fs
  | None => fs
  end.

Definition children (probe loop compose : child)
    (command : string) (args : list string) (fs : gmap string string)
    : child * gmap string string :=
  if is_probe command then (probe, fs)
  else if is_compose args then (compose, written_by args fs)
  else (loop, written_by args fs).

(** A shell that runs the loop line and the compose line of
    [VideoLooper.js] and leaves [writes] behind. *)
Definition shell (loop compose : child) (writes : list string)
    (commandLine : string) (fs : gmap string string) : child * gmap string string :=
  ((if String.prefix "ffmpeg -y -f concat" commandLine then loop else compose),
   foldr (fun p m => <[p := "media"]> m) fs writes).

Definition ok (out : string) : child := Closed (Some 0) out "".

Definition env_of (clock : nat -> Z) (probe loop compose : child)
    (shell_writes : list string) (unlink_err : string -> option string) : Env :=
  {| path_resolve := resolve "/srv/app";
     path_parse_name := parse_name;
     UPLOAD_DIR := "/srv/app/uploads";
     OUTPUT_DIR := "/srv/app/public/processed";
     Date_now := clock;
     spawn_child := children probe loop compose;
     exec_child := shell loop compose shell_writes;
     writeFile_error := fun _ => None;
     unlink_error := unlink_err |}.

(** The clock at 1700000000000 ms, advancing one millisecond per reading. *)
Definition ticking (n : nat) : Z := 1700000000000 + Z.of_nat n.


(** The loop stage leaves its file, then every deletion is refused. *)
Definition stuck_files : Env :=
  env_of ticking (ok ("2.500000" +:+ Server.nl)) (ok "") (ok "") []
    (fun _ => Some "EPERM: operation not permitted").

(** Everything works; the probe prints [2.500000]. *)
Definition happy : Env :=
  env_of ticking (ok ("2.500000" +:+ Server.nl)) (ok "") (ok "") [] (fun _ => None).

(** The uploads directory holds the two uploaded files. *)
Definition uploaded : world :=
  {| files := {[ "/srv/app/uploads/v.mp4" := "video"; "/srv/app/uploads/a.mp3" := "audio" ]};
     clock_reads := 0;
     trace := [] |}.




End Sample.

(* ===================================================================== *)
(** ** What a run is observed through                                     *)
(* ===================================================================== *)

Module Observe.
Import Effects.

(** [wp m Φ w]: running [m] from [w] ends in an outcome and a world that
    satisfy [Φ]. *)
Definition wp {A} (m : M A) (Φ : outcome A -> world -> Prop) (w : world) : Prop :=
  Φ (fst (m w)) (snd (m w)).

(** The child processes started through [spawn], those started through
    [exec], the files written and the warnings printed, each in order. *)
Definition spawns (evs : list event) : list (string * list string) :=
  omap (fun ev => match ev with Spawn c a => Some (c, a) | _ => None end) evs.

Definition execs (evs : list event) : list string :=
  omap (fun ev => match ev with Exec l => Some l | _ => None end) evs.

Definition writes (evs : list event) : list (string * string) :=
  omap (fun ev => match ev with WriteFile p c => Some (p, c) | _ => None end) evs.

Definition warnings (evs : list event) : list string :=
  omap (fun ev => match ev with Warn m => Some m | _ => None end) evs.

(** Every [unlink] comes right after an [existsSync] of the same path that
    answered [true]. *)
Fixpoint unlinks_checked (evs : list event) : bool :=
  match evs with
  | [] => true
  | ExistsSync p true :: r =>
      match r with
      | Unlink q :: r' => String.eqb p q && unlinks_checked r'
      | _ => unlinks_checked r
      end
  | Unlink _ :: _ => false
  | _ :: r => unlinks_checked r
  end.

(** The duration the probe child reports for [filePath] when it is started
    on the files [fs]; [NaN] when it does not end with code 0. *)
Definition probed (env : Env) (filePath : string) (fs : gmap string string) : JS.number :=
  match fst (spawn_child env "ffprobe" (Server.probeArgs filePath) fs) with
  | Closed (Some 0) out _ => JS.parseFloat (JS.trim out)
  | _ => JS.NaN
  end.

(** The three children a job of [server.js] may start from the world [w], in
    order: the probe of the input video, the loop stage, the compose stage. *)
Definition children_of (env : Env) (inputVideoPath inputAudioPath : string)
    (numLoops : JS.number) (outputFileName : string) (fullHD : bool) (w : world)
    : list (string * list string) :=
  let absInputVideoPath := path_resolve env [inputVideoPath] in
  let tmp1 := Server.tempConcatFilePath env (Date_now env (clock_reads w)) in
  let tmp2 := Server.tempLoopedVideoPath env (Date_now env (S (clock_reads w))) in
  [ ("ffprobe", Server.probeArgs absInputVideoPath);
    ("ffmpeg", Server.loopArgs tmp1 tmp2);
    ("ffmpeg",
     Server.combineArgs tmp2 (path_resolve env [inputAudioPath]) fullHD
       (JS.mul (probed env absInputVideoPath (files w)) numLoops)
       (path_resolve env [OUTPUT_DIR env; outputFileName])) ].

(** What becomes of the loop stage of a job of [server.js] started from the
    world [w], when the manifest [content] has been written: it finds the
    files the probe left, with the manifest among them. *)
Definition loop_stage (env : Env) (inputVideoPath : string) (content : string) (w : world)
    : child * gmap string string :=
  let absInputVideoPath := path_resolve env [inputVideoPath] in
  let tmp1 := Server.tempConcatFilePath env (Date_now env (clock_reads w)) in
  let tmp2 := Server.tempLoopedVideoPath env (Date_now env (S (clock_reads w))) in
  spawn_child env "ffmpeg" (Server.loopArgs tmp1 tmp2)
    (<[tmp1 := content]>
       (snd (spawn_child env "ffprobe" (Server.probeArgs absInputVideoPath) (files w)))).

(** Whether [createLoopedVideoWithAudio] of [server.js] gets past its
    checks: both inputs are there and [numLoops <= 0] is false. *)
Definition accepted (env : Env) (inputVideoPath inputAudioPath : string)
    (numLoops : JS.number) (fs : gmap string string) : bool :=
  bool_decide (is_Some (fs !! path_resolve env [inputVideoPath]))
  && bool_decide (is_Some (fs !! path_resolve env [inputAudioPath]))
  && negb (JS.le numLoops (JS.ofZ 0)).


(** A child that did not end with exit code 0. *)
Definition command_failed (c : child) : bool :=
  match c with
  | Closed (Some 0) _ _ => false
  | _ => true
  end.

(** The last of the children [k], started through [spawn], never ends:
    what was waiting for it waits for ever. *)
Definition child_never_ends (env : Env) (k : list (string * list string)) : Prop :=
  exists command args fs,
    last k = Some (command, args)
    /\ fst (spawn_child env command args fs) = Pending.

(** The same for the command lines [k], started through [exec]. *)
Definition line_never_ends (env : Env) (k : list string) : Prop :=
  exists commandLine fs,
    last k = Some commandLine
    /\ fst (exec_child env commandLine fs) = Pending.

(** Every child of the environment ends. *)
Definition children_end (env : Env) : Prop :=
  (forall command args fs, fst (spawn_child env command args fs) <> Pending)
  /\ (forall commandLine fs, fst (exec_child env commandLine fs) <> Pending).



(** The answer of the handler to a loop count it does not accept. *)
Definition rejection : Server.response :=
  {| Server.status := 400;
     Server.json_success := false;
     Server.json_message := "Number of loops must be an integer between 1 and 1000.";
     Server.json_downloadUrl := None;
     Server.json_outputFileName := None |}.

(** What the rejection of a request leaves: that answer, no child started,
    no file written, no file created or changed. *)
Definition rejected_untouched (w : world) (r : outcome Server.response) (w' : world) : Prop :=
  r = Ret rejection
  /\ spawns (trace w') = spawns (trace w)
  /\ execs (trace w') = execs (trace w)
  /\ writes (trace w') = writes (trace w)
  /\ files w' ⊆ files w.

(** The test [getVideoDuration] applies to what it parsed. *)
Definition valid_duration (d : JS.number) : bool :=
  negb (JS.isNaN d || JS.le d (JS.ofZ 0)).

(** The same environment with another answer to which deletions fail. *)
Definition with_unlink_error (f : string -> option string) (env : Env) : Env :=
  {| path_resolve := path_resolve env;
     path_parse_name := path_parse_name env;
     UPLOAD_DIR := UPLOAD_DIR env;
     OUTPUT_DIR := OUTPUT_DIR env;
     Date_now := Date_now env;
     spawn_child := spawn_child env;
     exec_child := exec_child env;
     writeFile_error := writeFile_error env;
     unlink_error := f |}.

(** The warning of the clean-up of [server.js]. *)
Definition removal_warning (tempFile msg : string) : event :=
  Warn ("Warning: Could not remove temporary file: " +:+ tempFile
          +:+ " (" +:+ msg +:+ ")").

(** One round of the clean-up loop of [server.js] on [tempFile]: what it
    does, what files it leaves, and the world after it. *)
Definition removal_events (env : Env) (tempFile : string) (fs : gmap string string)
    : list event :=
  match fs !! tempFile with
  | None => [ExistsSync tempFile false]
  | Some _ =>
      [ExistsSync tempFile true; Unlink tempFile]
      ++ match unlink_error env tempFile with
         | Some msg => [removal_warning tempFile msg]
         | None => []
         end
  end.

Definition removal_files (env : Env) (tempFile : string) (fs : gmap string string)
    : gmap string string :=
  match fs !! tempFile, unlink_error env tempFile with
  | Some _, None => delete tempFile fs
  | _, _ => fs
  end.

Definition remove_temp (env : Env) (tempFile : string) (w : world) : world :=
  {| files := removal_files env tempFile (files w);
     clock_reads := clock_reads w;
     trace := trace w ++ removal_events env tempFile (files w) |}.

(** The warning of the clean-up of [VideoLooper.js]: [what] is how it names
    the file. *)
Definition script_warning (what tempFile msg : string) : event :=
  Warn ("Warning: Could not remove temporary " +:+ what +:+ " file: "
          +:+ tempFile +:+ " (" +:+ msg +:+ ")").

(** One deletion of the clean-up of [VideoLooper.js]. *)
Definition script_remove (env : Env) (what tempFile : string) (w : world) : world :=
  let w1 := record (Unlink tempFile) w in
  match files w !! tempFile with
  | None =>
      record (script_warning what tempFile
                ("ENOENT: no such file or directory, unlink '" +:+ tempFile +:+ "'")) w1
  | Some _ =>
      match unlink_error env tempFile with
      | Some msg => record (script_warning what tempFile msg) w1
      | None => set_files (delete tempFile (files w)) w1
      end
  end.

(** *** Manifest text *)

(** One entry of the concat list. *)
Definition directive (p : string) : string := "file '" +:+ p +:+ "'".

(** The text made of the given lines, each ended by a line feed. *)
Fixpoint manifest (lines : list string) : string :=
  match lines with
  | [] => EmptyString
  | l :: r => l +:+ Server.nl +:+ manifest r
  end.

Definition is_nl (c : ascii) : bool := N.eqb (JS.code c) 10.

Fixpoint has_nl (s : string) : bool :=
  match s with
  | String c r => is_nl c || has_nl r
  | EmptyString => false
  end.

(** The lines of a text, split at the line feeds. *)
Fixpoint lines_from (cur s : string) : list string :=
  match s with
  | EmptyString => if String.eqb cur "" then [] else [cur]
  | String c r =>
      if is_nl c then cur :: lines_from "" r
      else lines_from (cur +:+ String c EmptyString) r
  end.

Definition lines_of (s : string) : list string := lines_from "" s.

(** *** The encoder's command line *)

(** An argument vector read as the encoder reads it: options with a value,
    bare flags, and the output file in last position. *)
Inductive item :=
| Flag (name : string)
| Opt (name value : string).

Definition takes_value (name : string) : bool :=
  existsb (String.eqb name)
    [ "-f"; "-safe"; "-i"; "-stream_loop"; "-map"; "-c:v"; "-vf"; "-preset"; "-crf";
      "-c:a"; "-b:a"; "-t" ].

Fixpoint items (args : list string) : list item :=
  match args with
  | [] => []
  | name :: rest =>
      if takes_value name then
        match rest with
        | value :: rest' => Opt name value :: items rest'
        | [] => [Flag name]
        end
      else Flag name :: items rest
  end.

(** The options of a call, without its output file. *)
Definition options (args : list string) : list item := items (removelast args).

Definition output (args : list string) : option string := last args.

(** The values given to option [name]. *)
Definition values_of (name : string) (its : list item) : list string :=
  omap (fun it => match it with
                  | Opt n v => if String.eqb n name then Some v else None
                  | Flag _ => None
                  end) its.

Definition has_flag (name : string) (its : list item) : bool :=
  existsb (fun it => match it with
                     | Flag n => String.eqb n name
                     | Opt _ _ => false
                     end) its.

(** The input files, each with the options that precede its [-i] since the
    previous input. *)
Fixpoint inputs_from (pending : list item) (its : list item) : list (string * list item) :=
  match its with
  | [] => []
  | Opt n v :: r =>
      if String.eqb n "-i" then (v, pending) :: inputs_from [] r
      else inputs_from (pending ++ [Opt n v]) r
  | Flag n :: r => inputs_from (pending ++ [Flag n]) r
  end.

Definition inputs (its : list item) : list (string * list item) := inputs_from [] its.

(** The options after the last input: those of the output. *)
Fixpoint output_options (its : list item) : list item :=
  match its with
  | [] => []
  | Opt n v :: r =>
      if existsb (fun it => match it with Opt m _ => String.eqb m "-i" | _ => false end) r
      then output_options r
      else if String.eqb n "-i" then r else its
  | Flag n :: r =>
      if existsb (fun it => match it with Opt m _ => String.eqb m "-i" | _ => false end) r
      then output_options r
      else its
  end.

(** What it is for a run of the encoder on [args], which leaves the files
    [after], to honour its options: when an input is read in an endless loop,
    the output is capped at [t] and [-shortest] is not given, the output file
    is there and its duration is [t], where [duration] tells the duration of
    a file from what it holds. *)
Definition honours_options (duration : string -> JS.number) (args : list string)
    (after : gmap string string) : Prop :=
  forall looped t o,
    In (looped, [Opt "-stream_loop" "-1"]) (inputs (options args)) ->
    values_of "-t" (output_options (options args)) = [t] ->
    has_flag "-shortest" (options args) = false ->
    output args = Some o ->
    exists content, after !! o = Some content /\ duration content = JS.parseFloat t.


(** One [if (existsSync(p)) await fs.unlink(p).catch(e => console.warn(msg))]
    of the handler: what it does, and the world after it. *)
Definition discard_events (env : Env) (p msg : string) (fs : gmap string string)
    : list event :=
  match fs !! p with
  | None => [ExistsSync p false]
  | Some _ =>
      [ExistsSync p true; Unlink p]
      ++ match unlink_error env p with
         | Some _ => [Warn msg]
         | None => []
         end
  end.

Definition discarded (env : Env) (p msg : string) (w : world) : world :=
  {| files := removal_files env p (files w);
     clock_reads := clock_reads w;
     trace := trace w ++ discard_events env p msg (files w) |}.

(** The words of a text, split at the spaces. *)
Fixpoint words_from (cur s : string) : list string :=
  match s with
  | EmptyString => if String.eqb cur "" then [] else [cur]
  | String c r =>
      if Ascii.eqb c " " then
        (if String.eqb cur "" then words_from "" r else cur :: words_from "" r)
      else words_from (cur +:+ String c EmptyString) r
  end.

Definition words (s : string) : list string := words_from "" s.

(** The fixed text of the compose command line of [VideoLooper.js]: before
    the first quoted path, between the two inputs, and before the output. *)
Definition script_compose_head : string := "ffmpeg -y -i ".
Definition script_compose_between : string := " -i ".
Definition script_compose_options : string :=
  " -map 0:v:0 -map 1:a:0 -c:v copy -c:a aac -b:a 192k -shortest ".

(** Whether [pat] occurs in [s]. *)
Definition occurs (pat s : string) : bool :=
  match String.index 0 pat s with
  | Some _ => true
  | None => false
  end.

End Observe.

(* ===================================================================== *)
(** ** index.html: the script of the page                                 *)
(* ===================================================================== *)

Module Page.

(** A file chosen in a file input. *)
Record file := {
  name : string
}.

(** One entry of a [FormData]: a file, or a text (what [append] makes of a
    string or of a boolean). *)
Inductive part :=
| FilePart (f : file)
| TextPart (text : string).

(** What the inputs of the form hold when it is submitted. *)
Record form := {
  videoFile : option file;
  audioFile : option file;
  numLoops : string;
  fullHD : bool
}.

(** The JSON body of an answer, as far as the script reads it; [None] is
    [undefined]. *)
Record reply := {
  success : bool;
  message : option string;
  downloadUrl : option string;
  outputFileName : option string
}.

(** How [fetch] followed by [response.json()] ends: one of the two rejects
    with an error that has the given message, or the answer is read. *)
Inductive fetched :=
| Failed (message : string)
| Answered (ok : bool) (result : reply).

(** The download link the script creates. *)
Record anchor := {
  href : string;
  textContent : string;
  download : string
}.

(** The elements the script changes. *)
Record page := {
  statusText : string;
  statusClasses : list string;
  statusDisplay : string;
  downloadLinks : list anchor;
  loadingDisplay : string;
  submitDisabled : bool;
  submitText : string;
  progressDisplay : string;
  progressWidth : string
}.

(** [a || b] where [a] is a string or [undefined] *)
Definition or_else (a : option string) (b : string) : string :=
  match a with
  | Some s => if String.eqb s "" then b else s
  | None => b
  end.

(** [String(b)] *)
Definition show_bool (b : bool) : string := if b then "true" else "false".

(** [classList.add(c)] *)
Definition classList_add (c : string) (classes : list string) : list string :=
  if existsb (String.eqb c) classes then classes else classes ++ [c].

(** [displayMessage(message, type)] *)
Definition displayMessage (message type : string) (p : page) : page :=
  {| statusText := message;
     statusClasses := classList_add type (statusClasses p);
     statusDisplay := "block";
     downloadLinks := downloadLinks p;
     loadingDisplay := loadingDisplay p;
     submitDisabled := submitDisabled p;
     submitText := submitText p;
     progressDisplay := progressDisplay p;
     progressWidth := progressWidth p |}.

(** [resetForm()] *)
Definition resetForm (p : page) : page :=
  {| statusText := statusText p;
     statusClasses := statusClasses p;
     statusDisplay := statusDisplay p;
     downloadLinks := downloadLinks p;
     loadingDisplay := "none";
     submitDisabled := false;
     submitText := "Create Looped Video";
     progressDisplay := "none";
     progressWidth := "0%" |}.

(** The first statements of the submit listener. *)
Definition start (p : page) : page :=
  {| statusText := statusText p;
     statusClasses := ["status"];
     statusDisplay := "none";
     downloadLinks := [];
     loadingDisplay := "block";
     submitDisabled := true;
     submitText := "Processing...";
     progressDisplay := "block";
     progressWidth := "0%" |}.

(** The statements after [await response.json()]. *)
Definition answered (ok : bool) (result : reply) (p : page) : page :=
  let p :=
    {| statusText := statusText p;
       statusClasses := statusClasses p;
       statusDisplay := statusDisplay p;
       downloadLinks := downloadLinks p;
       loadingDisplay := "none";
       submitDisabled := submitDisabled p;
       submitText := submitText p;
       progressDisplay := progressDisplay p;
       progressWidth := "100%" |} in
  if ok && success result then
    let p := displayMessage ("Processing successful! " +:+ or_else (message result) "")
               "success" p in
    match downloadUrl result with
    | Some url =>
        if String.eqb url "" then p
        else
          {| statusText := statusText p;
             statusClasses := statusClasses p;
             statusDisplay := statusDisplay p;
             downloadLinks :=
               downloadLinks p
                 ++ [ {| href := url;
                         textContent :=
                           "Download " +:+ or_else (outputFileName result) "Processed Video";
                         download := or_else (outputFileName result) "processed_video.mp4" |} ];
             loadingDisplay := loadingDisplay p;
             submitDisabled := submitDisabled p;
             submitText := submitText p;
             progressDisplay := progressDisplay p;
             progressWidth := progressWidth p |}
    | None => p
    end
  else
    displayMessage ("Error: " +:+ or_else (message result) "Unknown error during processing.")
      "error" p.

(** The [catch] of the submit listener. *)
Definition failed (msg : string) (p : page) : page :=
  displayMessage ("Network or server error: " +:+ msg) "error"
    {| statusText := statusText p;
       statusClasses := statusClasses p;
       statusDisplay := statusDisplay p;
       downloadLinks := downloadLinks p;
       loadingDisplay := "none";
       submitDisabled := submitDisabled p;
       submitText := submitText p;
       progressDisplay := progressDisplay p;
       progressWidth := progressWidth p |}.

(** The submit listener of the form: the page it leaves and the requests it
    sent to [/process-video], each as the entries of its [FormData].  [fetch]
    is how the request ends. *)
Definition submit (fetch : list (string * part) -> fetched) (f : form) (p : page)
    : page * list (list (string * part)) :=
  let p := start p in
  match videoFile f, audioFile f with
  | Some video, Some audio =>
      if JS.le (JS.parseInt (numLoops f)) (JS.ofZ 0)
         || JS.lt (JS.ofZ 1000) (JS.parseInt (numLoops f))
      then
        (resetForm (displayMessage "Number of loops must be between 1 and 1000." "error" p),
         [])
      else
        let formData :=
          [ ("videoFile", FilePart video);
            ("audioFile", FilePart audio);
            ("numLoops", TextPart (numLoops f));
            ("fullHD", TextPart (show_bool (fullHD f))) ] in
        match fetch formData with
        | Answered ok result => (resetForm (answered ok result p), [formData])
        | Failed msg => (resetForm (failed msg p), [formData])
        end
  | _, _ =>
      (resetForm (displayMessage "Please select both video and audio files." "error" p), [])
  end.

End Page.

(* ===================================================================== *)
(** ** What a request and its answer are observed through                 *)
(* ===================================================================== *)

Module Outcomes.
Import Effects.

(** Every character of [s] satisfies [keep]. *)
Fixpoint all_chars (keep : ascii -> bool) (s : string) : bool :=
  match s with
  | String c r => keep c && all_chars keep r
  | EmptyString => true
  end.

Definition is_digit (c : ascii) : bool :=
  match JS.digit_of c with
  | Some _ => true
  | None => false
  end.

(** A carriage return or a line feed. *)
Definition is_line_break (c : ascii) : bool :=
  N.eqb (JS.code c) 13 || N.eqb (JS.code c) 10.

(** The text field [name] of a form: what multer puts in [req.body]. *)
Fixpoint text_field (name : string) (formData : list (string * Page.part)) : option string :=
  match formData with
  | (n, Page.TextPart s) :: r => if String.eqb n name then Some s else text_field name r
  | _ :: r => text_field name r
  | [] => None
  end.

(** The loop count the handler reads from the body, and its test of it. *)
Definition loops_of (body : option string) : JS.number :=
  JS.parseInt (match body with Some s => s | None => "undefined" end).

Definition loops_refused (numLoops : JS.number) : bool :=
  JS.isNaN numLoops || JS.lt numLoops (JS.ofZ 1) || JS.lt (JS.ofZ 1000) numLoops.

(** [req.body.fullHD === 'true'] *)
Definition fullHD_of (field : option string) : bool :=
  match field with
  | Some s => String.eqb s "true"
  | None => false
  end.

(** The three answers of the handler that do not depend on the run. *)
Definition missing_files : Server.response :=
  {| Server.status := 400;
     Server.json_success := false;
     Server.json_message := "Both video and audio files are required.";
     Server.json_downloadUrl := None;
     Server.json_outputFileName := None |}.

Definition processed (outputFileName : string) : Server.response :=
  {| Server.status := 200;
     Server.json_success := true;
     Server.json_message := "Video processed successfully!";
     Server.json_downloadUrl := Some ("/processed/" +:+ outputFileName);
     Server.json_outputFileName := Some outputFileName |}.

Definition failure (message : string) : Server.response :=
  {| Server.status := 500;
     Server.json_success := false;
     Server.json_message := message;
     Server.json_downloadUrl := None;
     Server.json_outputFileName := None |}.

(** The message of the error [executeCommand] of [server.js] rejects with
    when the child ends as [c], not with exit code 0 (there is none for a
    child that never ends). *)
Definition command_error_message (command : string) (c : child) : string :=
  match c with
  | SpawnFailed reason =>
      "Failed to start subprocess for " +:+ dq +:+ command +:+ dq +:+ ": " +:+ reason
        +:+ ". Ensure FFmpeg/ffprobe is installed and in your system's PATH."
  | Closed exitCode _ _ =>
      "Command " +:+ dq +:+ command +:+ dq +:+ " failed with code "
        +:+ Server.show_code exitCode +:+ "."
  | Pending => EmptyString
  end.

(** The warning of the [finally] of the handler. *)
Definition upload_warning (msg : string) : event :=
  Warn ("Warning: Could not delete one or more uploaded files post-processing: " +:+ msg).

(** One [if (fssync.existsSync(p)) await fs.unlink(p)]: the reason the
    deletion failed, if it did, and the world after it. *)
Definition remove_upload (env : Env) (p : string) (w : world) : option string * world :=
  match files w !! p with
  | None => (None, record (ExistsSync p false) w)
  | Some _ =>
      let w1 := record (Unlink p) (record (ExistsSync p true) w) in
      match unlink_error env p with
      | Some msg => (Some msg, w1)
      | None => (None, set_files (delete p (files w)) w1)
      end
  end.

(** The [finally] of the handler on the two uploads: the second deletion
    is not tried when the first fails. *)
Definition uploads_removed (env : Env) (videoPath audioPath : string) (w : world) : world :=
  match remove_upload env videoPath w with
  | (Some msg, w1) => record (upload_warning msg) w1
  | (None, w1) =>
      match remove_upload env audioPath w1 with
      | (Some msg, w2) => record (upload_warning msg) w2
      | (None, w2) => w2
      end
  end.

(** What becomes of the two commands of a job of [VideoLooper.js] started
    from the world [w], when the manifest [content] has been written. *)
Definition script_loop_stage (env : Env) (content : string) (w : world)
    : child * gmap string string :=
  exec_child env
    (VideoLooper.loopCommand (VideoLooper.tempConcatFilePath env)
       (VideoLooper.tempLoopedVideoPath env))
    (<[VideoLooper.tempConcatFilePath env := content]> (files w)).

Definition script_compose_stage (env : Env) (inputAudioPath outputVideoPath : string)
    (content : string) (w : world) : child * gmap string string :=
  exec_child env
    (VideoLooper.combineCommand (VideoLooper.tempLoopedVideoPath env)
       (path_resolve env [inputAudioPath]) (path_resolve env [outputVideoPath]))
    (snd (script_loop_stage env content w)).

(** The files the program tried to delete, in order. *)
Definition unlinks (evs : list event) : list string :=
  omap (fun ev => match ev with Unlink p => Some p | _ => None end) evs.

(** The world after a reading of the clock. *)
Definition tick (w : world) : world :=
  {| files := files w; clock_reads := S (clock_reads w); trace := trace w |}.

(** From [w] to [w'] no child was started, no file was written, the clock
    was not read, and no file was created or changed. *)
Definition quiet (w w' : world) : Prop :=
  Observe.spawns (trace w') = Observe.spawns (trace w)
  /\ Observe.execs (trace w') = Observe.execs (trace w)
  /\ Observe.writes (trace w') = Observe.writes (trace w)
  /\ clock_reads w' = clock_reads w
  /\ files w' ⊆ files w.

End Outcomes.

(* ===================================================================== *)
(** ** More environments                                                  *)
(* ===================================================================== *)

Module Cases.
Import Effects.

(** The probe ends with code 1 and a message on its standard error. *)
Definition probe_fails : Env :=
  Sample.env_of Sample.ticking
    (Closed (Some 1) "" ("v.mp4: Invalid data found when processing input" +:+ Server.nl))
    (Sample.ok "") (Sample.ok "") [] (fun _ => None).




(** The loop stage ends with code 1 and a message on its standard error. *)
Definition loop_fails : Env :=
  Sample.env_of Sample.ticking
    (Sample.ok ("2.500000" +:+ Server.nl))
    (Closed (Some 1) "" "Conversion failed!")
    (Sample.ok "") [] (fun _ => None).

(** An encoder that honours [-t]: the file it leaves holds the duration it
    was capped at. *)
Definition capped (args : list string) (fs : gmap string string) : gmap string string :=
  match Observe.output args with
  | Some o =>
      <[o := match Observe.values_of "-t" (Observe.output_options (Observe.options args)) with
             | t :: _ => t
             | [] => "uncapped"
             end]> fs
  | None => fs
  end.

(** Everything works, the probe prints [2.500000] and the encoder honours
    [-t]. *)
Definition capping : Env :=
  {| path_resolve := Sample.resolve "/srv/app";
     path_parse_name := Sample.parse_name;
     UPLOAD_DIR := "/srv/app/uploads";
     OUTPUT_DIR := "/srv/app/public/processed";
     Date_now := Sample.ticking;
     spawn_child := fun command args fs =>
       if Sample.is_probe command then (Sample.ok ("2.500000" +:+ Server.nl), fs)
       else (Sample.ok "", capped args fs);
     exec_child := Sample.shell (Sample.ok "") (Sample.ok "") [];
     writeFile_error := fun _ => None;
     unlink_error := fun _ => None |}.

(** The uploads directory with the video and an audio file that holds
    [audio]. *)
Definition uploaded_with (audio : string) : world :=
  {| files := {[ "/srv/app/uploads/v.mp4" := "video"; "/srv/app/uploads/a.mp3" := audio ]};
     clock_reads := 0;
     trace := [] |}.

(** A request for [loops] loops of the uploaded [v.mp4] with [a.mp3]. *)
Definition request (loops : string) (fullHD : option string) : Server.request :=
  {| Server.videoFile :=
       Some {| Server.path := "/srv/app/uploads/v.mp4"; Server.originalname := "my clip.mp4" |};
     Server.audioFile :=
       Some {| Server.path := "/srv/app/uploads/a.mp3"; Server.originalname := "a.mp3" |};
     Server.body_numLoops := Some loops;
     Server.body_fullHD := fullHD |}.

End Cases.

(* ===================================================================== *)
(** ** The C++ port                                                       *)
(* ===================================================================== *)

Module Cpp.
Import Effects.

(** [file_exists(p)]: the path exists and is a regular file (directories
    are not modelled). *)
Definition file_exists (p : string) : M bool := existsSync p.

(** [quote_path(p)] *)
Definition quote_path (p : string) : string := dq +:+ p +:+ dq.

(** A path written to a stream: between double quotes, with a backslash
    before each double quote and each backslash. *)
Fixpoint escaped (s : string) : string :=
  match s with
  | String c r =>
      if Ascii.eqb c (ascii_of_nat 34) || Ascii.eqb c "\"%char
      then String "\"%char (String c (escaped r))
      else String c (escaped r)
  | EmptyString => EmptyString
  end.

Definition streamed (p : string) : string := dq +:+ escaped p +:+ dq.

(** [system(command)], which returns when the command has ended: 0 when
    it ran and ended with exit code 0; every other status is written 1. *)
Definition system (env : Env) (command : string) : M Z :=
  let* c := exec env command in
  match c with
  | Pending => hang
  | Closed (Some 0) _ _ => ret 0
  | _ => ret 1
  end.

(** [std::remove(p)]: 0 when the file was deleted. *)
Definition remove (env : Env) (p : string) : M Z :=
  try_catch (fs_unlink env p >> ret 0) (fun _ => ret (-1)).

(** The text the loop [for (int i = 0; i < num_loops; ++i)] writes to the
    stream, for [count] rounds. *)
Fixpoint concat_lines (count : nat) (absolute_input_video_path : string) : string :=
  match count with
  | O => EmptyString
  | S k =>
      ("file '" +:+ absolute_input_video_path +:+ "'" +:+ Server.nl)
        +:+ concat_lines k absolute_input_video_path
  end.

Definition temp_concat_file_path : string := "ffmpeg_concat_list.txt".
Definition temp_looped_video_path : string := "temp_looped_video_only.mp4".

Definition ffmpeg_loop_command : string :=
  "ffmpeg -y -f concat -safe 0 -i " +:+ quote_path temp_concat_file_path
    +:+ " -an -c:v copy " +:+ quote_path temp_looped_video_path.

Definition ffmpeg_combine_command (absolute_input_audio_path output_video_path : string)
    : string :=
  "ffmpeg -y -i " +:+ quote_path temp_looped_video_path
    +:+ " -i " +:+ quote_path absolute_input_audio_path
    +:+ " -map 0:v:0 -map 1:a:0 -c:v copy -c:a aac -b:a 192k -shortest "
    +:+ quote_path output_video_path.

(** [create_looped_video_with_audio(input_video_path, input_audio_path,
    num_loops, output_video_path)]; [std::filesystem::absolute] is the
    [path_resolve] of the environment.  [num_loops] is an [int] that is
    compared and counted up to, never computed with: nothing wraps.  The
    stream is opened by [fs_writeFile]: when that fails the file could not
    be opened and nothing was written. *)
Definition create_looped_video_with_audio (env : Env)
    (input_video_path input_audio_path : string) (num_loops : Z)
    (output_video_path : string) : M bool :=
  let* video_found := file_exists input_video_path in
  if negb video_found then ret false else
  let* audio_found := file_exists input_audio_path in
  if negb audio_found then ret false else
  if (num_loops <=? 0)%Z then ret false else
  let absolute_input_video_path := path_resolve env [input_video_path] in
  let* is_open :=
    try_catch
      (fs_writeFile env temp_concat_file_path
         (concat_lines (Z.to_nat num_loops) absolute_input_video_path) >>
       ret true)
      (fun _ => ret false) in
  if negb is_open then ret false else
  let* loop_ret_code := system env ffmpeg_loop_command in
  if negb (loop_ret_code =? 0)%Z then
    remove env temp_concat_file_path >>
    ret false
  else
  let* combine_ret_code :=
    system env
      (ffmpeg_combine_command (path_resolve env [input_audio_path]) output_video_path) in
  if negb (combine_ret_code =? 0)%Z then
    remove env temp_concat_file_path >>
    remove env temp_looped_video_path >>
    ret false
  else
  let* removed := remove env temp_concat_file_path in
  (if negb (removed =? 0)%Z
   then console_warn ("Warning: Could not remove temporary concat file: "
                        +:+ streamed temp_concat_file_path)
   else ret tt) >>
  let* removed := remove env temp_looped_video_path in
  (if negb (removed =? 0)%Z
   then console_warn ("Warning: Could not remove temporary looped video file: "
                        +:+ streamed temp_looped_video_path)
   else ret tt) >>
  ret true.

End Cpp.

(* ===================================================================== *)
(** ** Lemmas                                                             *)
(* ===================================================================== *)

Import Effects Observe.

(** *** The runtime model on samples *)

Example parseFloat_samples :
  map JS.parseFloat
    [ "2.500000"; "  -12.5e2"; "12.5 s"; ".5"; "5."; "N/A"; ""; "."; "Infinity" ]
  = [ JS.Num (5 # 2); JS.Num (-1250); JS.Num (25 # 2); JS.Num (1 # 2); JS.Num 5;
      JS.NaN; JS.NaN; JS.NaN; JS.Infinity ].
Proof. vm_compute. reflexivity. Qed.

Example parseInt_samples :
  map JS.parseInt [ "3"; "1001"; "-5"; "0"; "2.5"; " 12px"; "0x1F"; "abc"; "undefined" ]
  = [ JS.ofZ 3; JS.ofZ 1001; JS.ofZ (-5); JS.ofZ 0; JS.ofZ 2; JS.ofZ 12; JS.ofZ 31;
      JS.NaN; JS.NaN ].
Proof. vm_compute. reflexivity. Qed.

Example toFixed_samples :
  map (JS.toFixed 3)
    [ JS.Num 10; JS.Num 0; JS.Num 0.0004; JS.Num 0.0005; JS.Num 1234.5678;
      JS.Num 7.599999; JS.Num (-0.0001); JS.NaN; JS.Infinity ]
  = [ "10.000"; "0.000"; "0.000"; "0.001"; "1234.568"; "7.600"; "-0.000"; "NaN";
      "Infinity" ].
Proof. vm_compute. reflexivity. Qed.

Example trim_sample :
  JS.trim (String (ascii_of_nat 9) " 2.5 " +:+ Server.nl) = "2.5".
Proof. vm_compute. reflexivity. Qed.

Example comparison_samples :
  [ JS.le JS.NaN (JS.ofZ 0); JS.le (JS.ofZ 0) (JS.ofZ 0); JS.le (JS.Num 2.5) (JS.ofZ 0);
    JS.lt (JS.ofZ 2) (JS.Num 2.5); JS.lt (JS.ofZ 3) (JS.Num 2.5);
    JS.lt (JS.ofZ 7) JS.Infinity; JS.lt (JS.ofZ 0) JS.NaN ]
  = [ false; true; false; true; false; true; false ].
Proof. vm_compute. reflexivity. Qed.

Example unlinks_checked_samples :
  map unlinks_checked
    [ [ExistsSync "a" true; Unlink "a"];
      [ExistsSync "a" false];
      [Unlink "a"];
      [ExistsSync "a" true; Unlink "b"];
      [ExistsSync "a" true; Warn "w"; Unlink "a"] ]
  = [ true; true; false; false; false ].
Proof. vm_compute. reflexivity. Qed.

Example options_sample :
  let args := Server.loopArgs "list.txt" "out.mp4" in
  inputs (options args) = [ ("list.txt", [Flag "-y"; Opt "-f" "concat"; Opt "-safe" "0"]) ]
  /\ output_options (options args) = [ Flag "-an"; Opt "-c:v" "copy" ]
  /\ output args = Some "out.mp4".
Proof. vm_compute. repeat split; reflexivity. Qed.

(** *** Reasoning rules *)

Section Rules.

Context {A B : Type}.
Implicit Types (w : world).

Lemma wp_ret (a : A) (Φ : outcome A -> world -> Prop) w :
  Φ (Ret a) w -> wp (ret a) Φ w.
Proof. exact (fun H => H). Qed.

Lemma wp_throw (e : jsError) (Φ : outcome A -> world -> Prop) w :
  Φ (Throw e) w -> wp (throw e) Φ w.
Proof. exact (fun H => H). Qed.

Lemma wp_hang (Φ : outcome A -> world -> Prop) w :
  Φ Hang w -> wp hang Φ w.
Proof. exact (fun H => H). Qed.

Lemma wp_bind (m : M A) (k : A -> M B) (Φ : outcome B -> world -> Prop) w :
  wp m (fun r w' =>
          match r with
          | Ret a => wp (k a) Φ w'
          | Throw e => Φ (Throw e) w'
          | Hang => Φ Hang w'
          end) w ->
  wp (bind m k) Φ w.
Proof. unfold wp, bind. destruct (m w) as [[a|e|] w']; simpl; auto. Qed.

Lemma wp_try_catch (m : M A) (h : jsError -> M A) (Φ : outcome A -> world -> Prop) w :
  wp m (fun r w' =>
          match r with
          | Throw e => wp (h e) Φ w'
          | _ => Φ r w'
          end) w ->
  wp (try_catch m h) Φ w.
Proof. unfold wp, try_catch. destruct (m w) as [[a|e|] w']; simpl; auto. Qed.

Lemma wp_try_finally (m : M A) (c : M unit) (Φ : outcome A -> world -> Prop) w :
  wp m (fun r w' =>
          match r with
          | Hang => Φ Hang w'
          | _ => wp c (fun rc w'' =>
                         match rc with
                         | Ret _ => Φ r w''
                         | Throw e => Φ (Throw e) w''
                         | Hang => Φ Hang w''
                         end) w'
          end) w ->
  wp (try_finally m c) Φ w.
Proof.
  unfold wp, try_finally. destruct (m w) as [[a|e|] w']; simpl; auto;
    destruct (c w') as [[[]|e'|] w'']; simpl; auto.
Qed.

Lemma wp_mono (m : M A) (Φ Ψ : outcome A -> world -> Prop) w :
  (forall r w', Φ r w' -> Ψ r w') -> wp m Φ w -> wp m Ψ w.
Proof. unfold wp. auto. Qed.

End Rules.

Section PrimitiveRules.

Context (env : Env).
Implicit Types (w : world).

Lemma wp_access p (Φ : outcome unit -> world -> Prop) w :
  (is_Some (files w !! p) -> Φ (Ret tt) (record (Access p) w)) ->
  (files w !! p = None ->
   Φ (Throw (newError ("ENOENT: no such file or directory, access '" +:+ p +:+ "'")))
     (record (Access p) w)) ->
  wp (fs_access p) Φ w.
Proof.
  unfold wp, fs_access. intros Hs Hn.
  destruct (files w !! p) eqn:E; simpl; eauto.
Qed.

Lemma wp_existsSync p (Φ : outcome bool -> world -> Prop) w :
  (is_Some (files w !! p) -> Φ (Ret true) (record (ExistsSync p true) w)) ->
  (files w !! p = None -> Φ (Ret false) (record (ExistsSync p false) w)) ->
  wp (existsSync p) Φ w.
Proof.
  unfold wp, existsSync. intros Hs Hn. simpl.
  case_bool_decide as E; [apply Hs, E | apply Hn].
  destruct (files w !! p); [exfalso; eauto | done].
Qed.

Lemma wp_writeFile p content (Φ : outcome unit -> world -> Prop) w :
  (writeFile_error env p = None ->
   Φ (Ret tt) (set_files (<[p := content]> (files w)) (record (WriteFile p content) w))) ->
  (forall msg, writeFile_error env p = Some msg ->
   Φ (Throw (newError msg)) (record (WriteFile p content) w)) ->
  wp (fs_writeFile env p content) Φ w.
Proof.
  unfold wp, fs_writeFile. intros Hn Hs.
  destruct (writeFile_error env p); simpl; eauto.
Qed.

Lemma wp_unlink p (Φ : outcome unit -> world -> Prop) w :
  (files w !! p = None ->
   Φ (Throw (newError ("ENOENT: no such file or directory, unlink '" +:+ p +:+ "'")))
     (record (Unlink p) w)) ->
  (forall msg, is_Some (files w !! p) -> unlink_error env p = Some msg ->
   Φ (Throw (newError msg)) (record (Unlink p) w)) ->
  (is_Some (files w !! p) -> unlink_error env p = None ->
   Φ (Ret tt) (set_files (delete p (files w)) (record (Unlink p) w))) ->
  wp (fs_unlink env p) Φ w.
Proof.
  unfold wp, fs_unlink. intros Hn He Hok.
  destruct (files w !! p) eqn:E; simpl; [|auto].
  destruct (unlink_error env p) eqn:U; simpl; eauto.
Qed.

Lemma wp_now (Φ : outcome Z -> world -> Prop) w :
  Φ (Ret (Date_now env (clock_reads w)))
    {| files := files w; clock_reads := S (clock_reads w); trace := trace w |} ->
  wp (now env) Φ w.
Proof. exact (fun H => H). Qed.

Lemma wp_spawn command args (Φ : outcome child -> world -> Prop) w :
  (forall c fs, spawn_child env command args (files w) = (c, fs) ->
   Φ (Ret c) (set_files fs (record (Spawn command args) w))) ->
  wp (spawn env command args) Φ w.
Proof.
  unfold wp, spawn. intros H.
  destruct (spawn_child env command args (files w)) as [c fs] eqn:E. simpl. eauto.
Qed.

Lemma wp_exec commandLine (Φ : outcome child -> world -> Prop) w :
  (forall c fs, exec_child env commandLine (files w) = (c, fs) ->
   Φ (Ret c) (set_files fs (record (Exec commandLine) w))) ->
  wp (exec env commandLine) Φ w.
Proof.
  unfold wp, exec. intros H.
  destruct (exec_child env commandLine (files w)) as [c fs] eqn:E. simpl. eauto.
Qed.

Lemma wp_warn msg (Φ : outcome unit -> world -> Prop) w :
  Φ (Ret tt) (record (Warn msg) w) -> wp (console_warn msg) Φ w.
Proof. exact (fun H => H). Qed.

End PrimitiveRules.

(** *** Traces *)

Section Traces.

Implicit Types (l : list event).

Lemma spawns_app l1 l2 : spawns (l1 ++ l2) = spawns l1 ++ spawns l2.
Proof. apply omap_app. Qed.

Lemma execs_app l1 l2 : execs (l1 ++ l2) = execs l1 ++ execs l2.
Proof. apply omap_app. Qed.

Lemma writes_app l1 l2 : writes (l1 ++ l2) = writes l1 ++ writes l2.
Proof. apply omap_app. Qed.

Lemma warnings_app l1 l2 : warnings (l1 ++ l2) = warnings l1 ++ warnings l2.
Proof. apply omap_app. Qed.

(** A checked trace does not begin with a deletion. *)
Lemma unlinks_checked_head p l : unlinks_checked (Unlink p :: l) = false.
Proof. reflexivity. Qed.

Lemma unlinks_checked_skip p ev l :
  (forall q, ev <> Unlink q) ->
  unlinks_checked (ExistsSync p true :: ev :: l) = unlinks_checked (ev :: l).
Proof. intros H. destruct ev; try reflexivity. exfalso. eapply H. reflexivity. Qed.

Lemma unlinks_checked_app l1 l2 :
  unlinks_checked l1 = true -> unlinks_checked l2 = true ->
  unlinks_checked (l1 ++ l2) = true.
Proof.
  intros H1 H2. remember (length l1) as n eqn:Hn.
  revert l1 H1 Hn. induction n as [n IH] using lt_wf_ind. intros l1 H1 ->.
  destruct l1 as [|ev r]; [exact H2|].
  assert (Other : unlinks_checked r = true -> unlinks_checked (r ++ l2) = true).
  { intros Hr. apply (IH (length r)); [simpl; lia | exact Hr | reflexivity]. }
  destruct ev as [p|p [|]|p c|p|c a|c|m];
    [exact (Other H1)| |exact (Other H1)|exact (Other H1)|discriminate
    |exact (Other H1)|exact (Other H1)|exact (Other H1)].
  clear Other. destruct r as [|ev' r'].
  - simpl. destruct l2 as [|[]]; first [exact H2 | discriminate].
  - assert (D : (exists q, ev' = Unlink q) \/ (forall q, ev' <> Unlink q)).
    { destruct ev' as [?|? ?|? ?|q|? ?|?|?];
        [right|right|right|left; eexists; reflexivity|right|right|right];
        intros q'; discriminate. }
    destruct D as [[q ->]|Hne].
    + simpl in H1 |- *. apply andb_true_iff in H1 as [-> H1]. simpl.
      apply (IH (length r')); [simpl; lia | exact H1 | reflexivity].
    + rewrite unlinks_checked_skip in H1 by exact Hne.
      change ((ExistsSync p true :: ev' :: r') ++ l2)
        with (ExistsSync p true :: ev' :: (r' ++ l2)).
      rewrite unlinks_checked_skip by exact Hne.
      change (ev' :: r' ++ l2) with ((ev' :: r') ++ l2).
      apply (IH (length (ev' :: r'))); [simpl; lia | exact H1 | reflexivity].
Qed.

End Traces.

Create Rewrite HintDb trace.

#[export] Hint Rewrite spawns_app execs_app writes_app warnings_app : trace.

(** *** The clean-up of [server.js] *)

Section Cleanup.

Context (env : Env).
Implicit Types (w : world) (fs : gmap string string).

Lemma spawns_removal p fs : spawns (removal_events env p fs) = [].
Proof. unfold removal_events. destruct (fs !! p), (unlink_error env p); reflexivity. Qed.

Lemma execs_removal p fs : execs (removal_events env p fs) = [].
Proof. unfold removal_events. destruct (fs !! p), (unlink_error env p); reflexivity. Qed.

Lemma writes_removal p fs : writes (removal_events env p fs) = [].
Proof. unfold removal_events. destruct (fs !! p), (unlink_error env p); reflexivity. Qed.

Lemma removal_checked p fs : unlinks_checked (removal_events env p fs) = true.
Proof.
  unfold removal_events.
  destruct (fs !! p), (unlink_error env p); simpl; rewrite ?String.eqb_refl; reflexivity.
Qed.

(** After a round the file is gone, unless its deletion failed, and then a
    warning with the reason was printed. *)
Lemma removal_files_gone p fs :
  removal_files env p fs !! p = None
  \/ exists msg, unlink_error env p = Some msg
       /\ In (removal_warning p msg) (removal_events env p fs).
Proof.
  unfold removal_files, removal_events.
  destruct (fs !! p) eqn:E; [|left; exact E].
  destruct (unlink_error env p) as [msg|].
  - right. exists msg. split; [reflexivity|]. simpl. auto.
  - left. apply lookup_delete_eq.
Qed.

(** A round creates nothing. *)
Lemma removal_files_None p q fs :
  fs !! q = None -> removal_files env p fs !! q = None.
Proof.
  unfold removal_files. intros H.
  destruct (fs !! p), (unlink_error env p); try exact H.
  destruct (decide (p = q)) as [->|Hne].
  - apply lookup_delete_eq.
  - rewrite lookup_delete_ne; [exact H | exact Hne].
Qed.

Lemma removal_files_subseteq p fs : removal_files env p fs ⊆ fs.
Proof.
  unfold removal_files.
  destruct (fs !! p), (unlink_error env p); try reflexivity.
  apply delete_subseteq.
Qed.

Lemma cleanup_run a b w :
  Server.cleanup env a b w = (Ret tt, remove_temp env b (remove_temp env a w)).
Proof.
  assert (R : forall p w0, 
    try_catch
      (let* found := existsSync p in
       if found then fs_unlink env p else ret tt)
      (fun e =>
         console_warn ("Warning: Could not remove temporary file: " +:+ p
                         +:+ " (" +:+ message e +:+ ")")) w0
    = (Ret tt, remove_temp env p w0)).
  { intros p w0.
    unfold try_catch, bind, existsSync, fs_unlink, console_warn, emit, ret,
      remove_temp, removal_events, removal_files, record, set_files.
    simpl. destruct (files w0 !! p) eqn:E; simpl.
    - rewrite E.
      destruct (unlink_error env p); simpl; rewrite <- ?app_assoc; reflexivity.
    - reflexivity. }
  unfold Server.cleanup, for_of.
  unfold bind at 1. rewrite R. cbv beta iota.
  unfold bind at 1. rewrite R. reflexivity.
Qed.

Lemma wp_cleanup a b (Φ : outcome unit -> world -> Prop) w :
  Φ (Ret tt) (remove_temp env b (remove_temp env a w)) ->
  wp (Server.cleanup env a b) Φ w.
Proof. unfold wp. rewrite cleanup_run. exact (fun H => H). Qed.

End Cleanup.

#[export] Hint Rewrite spawns_removal execs_removal writes_removal : trace.

(** *** Following a program step by step *)

Ltac wp_simpl :=
  cbv beta iota zeta;
  cbn [files trace clock_reads record set_files fst snd for_of negb].

Ltac wp_step :=
  lazymatch goal with
  | |- wp (bind _ _) _ _ => apply wp_bind
  | |- wp (try_catch _ _) _ _ => apply wp_try_catch
  | |- wp (try_finally _ _) _ _ => apply wp_try_finally
  | |- wp (ret _) _ _ => apply wp_ret
  | |- wp (throw _) _ _ => apply wp_throw
  | |- wp hang _ _ => apply wp_hang
  | |- wp (Server.cleanup _ _ _) _ _ => apply wp_cleanup
  | |- wp (fs_access _) _ _ => apply wp_access; intros
  | |- wp (existsSync _) _ _ => apply wp_existsSync; intros
  | |- wp (fs_writeFile _ _ _) _ _ => apply wp_writeFile; intros
  | |- wp (fs_unlink _ _) _ _ => apply wp_unlink; intros
  | |- wp (now _) _ _ => apply wp_now
  | |- wp (spawn _ _ _) _ _ => apply wp_spawn; intros
  | |- wp (exec _ _) _ _ => apply wp_exec; intros
  | |- wp (console_warn _) _ _ => apply wp_warn
  | |- wp (if ?b then _ else _) _ _ => destruct b eqn:?
  | |- wp (match ?x with _ => _ end) _ _ =>
      tryif is_var x then destruct x else destruct x eqn:?
  end; wp_simpl.

Ltac wp_run :=
  wp_simpl; repeat wp_step;
  cbn [files trace clock_reads record set_files fst snd] in *.

(** *** Strings and the manifest *)

Section Strings.

Implicit Types (s t u : string).

Lemma append_cons c s t : String c s +:+ t = String c (s +:+ t).
Proof. reflexivity. Qed.

Lemma append_assoc s t u : (s +:+ t) +:+ u = s +:+ (t +:+ u).
Proof.
  induction s as [|c s IH]; [reflexivity|].
  rewrite !append_cons. f_equal. exact IH.
Qed.

Lemma append_nil_r s : s +:+ "" = s.
Proof.
  induction s as [|c s IH]; [reflexivity|].
  rewrite append_cons. f_equal. exact IH.
Qed.

Lemma has_nl_app s t : has_nl (s +:+ t) = has_nl s || has_nl t.
Proof.
  induction s as [|c s IH]; simpl; [reflexivity|].
  rewrite IH. apply orb_assoc.
Qed.

Lemma has_nl_directive p : has_nl (directive p) = has_nl p.
Proof.
  unfold directive. rewrite !has_nl_app. cbn. apply orb_false_r.
Qed.

Lemma has_nl_replace_backslashes p : has_nl (JS.replace_backslashes p) = has_nl p.
Proof.
  induction p as [|c p IH]; simpl; [reflexivity|]. rewrite IH. f_equal.
  destruct (Ascii.eqb c "\") eqn:E; [|reflexivity].
  apply Ascii.eqb_eq in E. subst c. reflexivity.
Qed.

(** No backslash is left, nothing else is changed. *)
Lemma replace_backslashes_clean p :
  JS.includes_char "\" (JS.replace_backslashes p) = false.
Proof.
  induction p as [|c p IH]; [reflexivity|].
  cbn [JS.replace_backslashes JS.includes_char]. rewrite IH, orb_false_r.
  destruct (Ascii.eqb c "\") eqn:E; [reflexivity|].
  rewrite Ascii.eqb_sym. exact E.
Qed.

Lemma replace_backslashes_get p n :
  String.get n (JS.replace_backslashes p)
  = option_map (fun c => if Ascii.eqb c "\" then "/"%char else c) (String.get n p).
Proof.
  revert n. induction p as [|c p IH]; intros n; simpl; [reflexivity|].
  destruct n; simpl; [reflexivity | apply IH].
Qed.

Lemma lines_from_line cur l rest :
  has_nl l = false ->
  lines_from cur (l +:+ Server.nl +:+ rest) = (cur +:+ l) :: lines_from "" rest.
Proof.
  revert cur. induction l as [|c l IH]; intros cur H; simpl in *.
  - by rewrite append_nil_r.
  - apply orb_false_iff in H as [Hc Hl]. rewrite Hc.
    rewrite IH by exact Hl. by rewrite append_assoc.
Qed.

(** Splitting a manifest at its line feeds gives its lines back. *)
Lemma lines_of_manifest ls :
  Forall (fun l => has_nl l = false) ls -> lines_of (manifest ls) = ls.
Proof.
  induction 1 as [|l ls Hl _ IH]; [reflexivity|].
  unfold lines_of in *. simpl. rewrite lines_from_line by exact Hl.
  simpl. by rewrite IH.
Qed.

Lemma manifest_app ls1 ls2 : manifest (ls1 ++ ls2) = manifest ls1 +:+ manifest ls2.
Proof.
  induction ls1 as [|l ls1 IH]; simpl; [reflexivity|].
  by rewrite IH, !append_assoc.
Qed.

End Strings.

(** *** The manifest loop *)

Section Loop.

Lemma lt_ofZ_Num i q : JS.lt (JS.ofZ i) (JS.Num q) = (i <? Qceiling q)%Z.
Proof.
  unfold JS.lt, JS.ofZ.
  destruct (Qle_bool q (inject_Z i)) eqn:E; simpl; symmetry.
  - apply Z.ltb_ge. apply Qle_bool_iff in E.
    apply Qceiling_resp_le in E. by rewrite Qceiling_Z in E.
  - apply Z.ltb_lt. apply Z.lt_nge. intros H.
    assert (Qle_bool q (inject_Z i) = true); [|congruence].
    apply Qle_bool_iff. eapply Qle_trans; [apply Qle_ceiling|].
    by rewrite <- Zle_Qle.
Qed.

(** The loop appends one directive per integer below [numLoops], that is
    [ceil numLoops] of them counting from 0. *)
Lemma concat_loop_Num fuel i q p acc :
  (Z.to_nat (Qceiling q - i) < fuel)%nat ->
  Server.concat_loop fuel i (JS.Num q) p acc
  = Some (acc +:+ manifest (repeat (directive p) (Z.to_nat (Qceiling q - i)))).
Proof.
  revert i acc. induction fuel as [|fuel IH]; intros i acc Hf; [lia|].
  cbn [Server.concat_loop]. rewrite lt_ofZ_Num.
  destruct (i <? Qceiling q)%Z eqn:E.
  - apply Z.ltb_lt in E.
    replace (Z.to_nat (Qceiling q - i)) with (S (Z.to_nat (Qceiling q - (i + 1)))) in * by lia.
    rewrite IH by lia. cbn [repeat manifest]. unfold directive. f_equal.
    by rewrite !append_assoc.
  - apply Z.ltb_ge in E.
    replace (Z.to_nat (Qceiling q - i)) with O by lia.
    cbn [repeat manifest]. by rewrite append_nil_r.
Qed.

Lemma concat_loop_script fuel i numLoops p acc :
  VideoLooper.concat_loop fuel i numLoops p acc
  = Server.concat_loop fuel i numLoops (JS.replace_backslashes p) acc.
Proof.
  revert i acc. induction fuel as [|fuel IH]; intros i acc; [reflexivity|].
  cbn [VideoLooper.concat_loop Server.concat_loop].
  destruct (JS.lt (JS.ofZ i) numLoops); [apply IH | reflexivity].
Qed.

(** For an integer count the loop makes exactly that many directives. *)
Lemma concat_loop_integer fuel n p :
  0 <= n -> (Z.to_nat n < fuel)%nat ->
  Server.concat_loop fuel 0 (JS.ofZ n) p ""
  = Some (manifest (repeat (directive p) (Z.to_nat n))).
Proof.
  intros Hn Hf. unfold JS.ofZ. rewrite concat_loop_Num; rewrite Qceiling_Z, Z.sub_0_r.
  - reflexivity.
  - exact Hf.
Qed.

(** With [numLoops = Infinity] the loop never ends. *)
Lemma concat_loop_Infinity fuel i p acc :
  Server.concat_loop fuel i JS.Infinity p acc = None.
Proof.
  revert i acc. induction fuel as [|fuel IH]; intros i acc; [reflexivity | apply IH].
Qed.

End Loop.

(** Simplifies the projections of a trace built by snoc. *)
Ltac trace_simpl :=
  cbn [trace files clock_reads remove_temp record set_files] in *;
  repeat (progress (autorewrite with trace;
                    cbn [trace files clock_reads remove_temp record set_files]));
  repeat match goal with
         | |- context [spawns [?ev]] => change (spawns [ev]) with (@nil (string * list string))
         | |- context [spawns [Spawn ?c ?a]] => change (spawns [Spawn c a]) with [(c, a)]
         | |- context [execs [?ev]] => change (execs [ev]) with (@nil string)
         | |- context [execs [Exec ?l]] => change (execs [Exec l]) with [l]
         | |- context [writes [?ev]] => change (writes [ev]) with (@nil (string * string))
         | |- context [writes [WriteFile ?p ?c]] => change (writes [WriteFile p c]) with [(p, c)]
         | |- context [warnings [?ev]] => change (warnings [ev]) with (@nil string)
         | |- context [warnings [Warn ?m]] => change (warnings [Warn m]) with [m]
         end;
  rewrite ?app_nil_r, <- ?app_assoc; cbn [app].

(** Runs a program with its postcondition set aside, then puts it back. *)
Ltac wp_run_post :=
  match goal with |- wp _ ?P _ => let Post := fresh "Post" in set (Post := P) end;
  wp_run;
  match goal with Post := _ |- _ => subst Post end;
  cbv beta.

(** [trace_simpl] on the conclusion only. *)
Ltac trace_goal :=
  cbn [trace files clock_reads remove_temp record set_files];
  repeat (progress (autorewrite with trace;
                    cbn [trace files clock_reads remove_temp record set_files]));
  repeat match goal with
         | |- context [spawns [?ev]] => change (spawns [ev]) with (@nil (string * list string))
         | |- context [spawns [Spawn ?c ?a]] => change (spawns [Spawn c a]) with [(c, a)]
         | |- context [execs [?ev]] => change (execs [ev]) with (@nil string)
         | |- context [execs [Exec ?l]] => change (execs [Exec l]) with [l]
         | |- context [writes [?ev]] => change (writes [ev]) with (@nil (string * string))
         | |- context [writes [WriteFile ?p ?c]] => change (writes [WriteFile p c]) with [(p, c)]
         | |- context [warnings [?ev]] => change (warnings [ev]) with (@nil string)
         | |- context [warnings [Warn ?m]] => change (warnings [Warn m]) with [m]
         end;
  rewrite ?app_nil_r, <- ?app_assoc; cbn [app].

(** The same on a hypothesis. *)
Ltac trace_in H :=
  cbn [trace files clock_reads remove_temp record set_files] in H;
  repeat (progress (autorewrite with trace in H;
                    cbn [trace files clock_reads remove_temp record set_files] in H));
  repeat match type of H with
         | context [spawns [Spawn ?c ?a]] => change (spawns [Spawn c a]) with [(c, a)] in H
         | context [spawns [?ev]] => change (spawns [ev]) with (@nil (string * list string)) in H
         | context [execs [Exec ?l]] => change (execs [Exec l]) with [l] in H
         | context [execs [?ev]] => change (execs [ev]) with (@nil string) in H
         | context [writes [WriteFile ?p ?c]] => change (writes [WriteFile p c]) with [(p, c)] in H
         | context [writes [?ev]] => change (writes [ev]) with (@nil (string * string)) in H
         | context [warnings [Warn ?m]] => change (warnings [Warn m]) with [m] in H
         | context [warnings [?ev]] => change (warnings [ev]) with (@nil string) in H
         end;
  rewrite ?app_nil_r, <- ?app_assoc in H; cbn [app] in H.

(** The child that never ends is the one the hypotheses name. *)
Ltac pending_child :=
  match goal with
  | H : spawn_child _ ?c ?a ?f = (Pending, _) |- child_never_ends _ _ =>
      exists c, a, f; split; [reflexivity | by rewrite H]
  | H : exec_child _ ?l ?f = (Pending, _) |- line_never_ends _ _ =>
      exists l, f; split; [reflexivity | by rewrite H]
  end.

Ltac absurd_lookup :=
  match goal with
  | H : ?m !! ?k = None, H' : is_Some (?m !! ?k) |- _ =>
      exfalso; rewrite H in H'; destruct H' as [? ?]; discriminate
  end.

(** *** The job of [server.js] *)

Section Job.

Context (env : Env) (fuel : nat).
Context (inputVideoPath inputAudioPath : string) (numLoops : JS.number)
        (outputFileName : string) (fullHD : bool).

Let job := Server.createLoopedVideoWithAudio env fuel inputVideoPath inputAudioPath
             numLoops outputFileName fullHD.
Let children := children_of env inputVideoPath inputAudioPath numLoops outputFileName fullHD.

Lemma job_trace w :
  wp job
    (fun _ w' =>
       (exists k, k `prefix_of` children w
                  /\ spawns (trace w') = spawns (trace w) ++ k)
       /\ execs (trace w') = execs (trace w)) w.
Proof.
  subst job children.
  unfold Server.createLoopedVideoWithAudio, Server.getVideoDuration,
    Server.executeCommand, children_of.
  wp_run.
  all: trace_simpl.
  all: (split; [|reflexivity]).
  all: try (exists []; split; [apply prefix_nil | by rewrite app_nil_r]).
  all: eexists; (split; [|reflexivity]).
  all: unfold probed;
       try match goal with
           | H : spawn_child _ "ffprobe" _ _ = _ |- _ => rewrite H
           end; cbn [fst].
  all: try by (eexists; reflexivity).
Qed.

(** A job writes at most one file: the manifest, with what the loop built. *)
Lemma job_writes w :
  wp job
    (fun _ w' =>
       exists ws, writes (trace w') = writes (trace w) ++ ws
         /\ (ws = []
             \/ exists content,
                  Server.concat_loop fuel 0 numLoops
                    (JS.replace_backslashes (path_resolve env [inputVideoPath])) ""
                  = Some content
                  /\ ws = [(Server.tempConcatFilePath env (Date_now env (clock_reads w)),
                            content)])) w.
Proof.
  subst job children.
  unfold Server.createLoopedVideoWithAudio, Server.getVideoDuration,
    Server.executeCommand.
  wp_run.
  all: trace_simpl.
  all: try (exists []; split; [by rewrite app_nil_r | by left]).
  all: eexists; (split; [reflexivity|]); right; eexists;
       split; [first [eassumption | reflexivity] | reflexivity].
Qed.

(** A job hangs only in the manifest loop, or waiting for a child that
    never ends. *)
Lemma job_hang w :
  wp job
    (fun r w' =>
       r = Hang ->
       Server.concat_loop fuel 0 numLoops
         (JS.replace_backslashes (path_resolve env [inputVideoPath])) "" = None
       \/ exists k,
            spawns (trace w') = spawns (trace w) ++ k /\ child_never_ends env k) w.
Proof.
  subst job children.
  unfold Server.createLoopedVideoWithAudio, Server.getVideoDuration,
    Server.executeCommand.
  wp_run.
  all: try discriminate.
  all: intros _.
  all: try (left; first [assumption | reflexivity]).
  all: right; trace_simpl; eexists; (split; [reflexivity|]).
  all: pending_child.
Qed.

(** Past the checks and the probe, the manifest is written and the loop
    stage is started. *)
Lemma job_progress w content :
  accepted env inputVideoPath inputAudioPath numLoops (files w) = true ->
  valid_duration (probed env (path_resolve env [inputVideoPath]) (files w)) = true ->
  Server.concat_loop fuel 0 numLoops
    (JS.replace_backslashes (path_resolve env [inputVideoPath])) "" = Some content ->
  wp job
    (fun r w' =>
       writes (trace w')
       = writes (trace w)
           ++ [(Server.tempConcatFilePath env (Date_now env (clock_reads w)), content)]
       /\ (writeFile_error env
             (Server.tempConcatFilePath env (Date_now env (clock_reads w))) = None ->
           exists k, spawns (trace w')
                     = spawns (trace w) ++ take 2 (children w) ++ k)) w.
Proof.
  intros Hacc Hvalid Hloop.
  unfold accepted in Hacc. apply andb_true_iff in Hacc as [Hacc Hloops].
  apply andb_true_iff in Hacc as [Hv Ha].
  apply bool_decide_eq_true in Hv, Ha. apply negb_true_iff in Hloops.
  unfold valid_duration, probed in Hvalid.
  subst job children.
  unfold Server.createLoopedVideoWithAudio, Server.getVideoDuration,
    Server.executeCommand, children_of.
  wp_run.
  all: try absurd_lookup.
  all: try congruence.
  all: try match goal with
           | H : spawn_child _ "ffprobe" _ _ = _ |- _ =>
               rewrite H in Hvalid; cbn [fst] in Hvalid
           end.
  all: try discriminate.
  all: try (rewrite negb_true_iff in Hvalid; congruence).
  all: trace_simpl.
  all: (split; [congruence|]).
  all: intros; try congruence.
  all: cbn [take]; eexists; reflexivity.
Qed.

(** Past the checks and the probe, when the manifest is written and the
    loop stage ends with code 0, the compose stage is started. *)
Lemma job_reaches_compose w content :
  accepted env inputVideoPath inputAudioPath numLoops (files w) = true ->
  valid_duration (probed env (path_resolve env [inputVideoPath]) (files w)) = true ->
  Server.concat_loop fuel 0 numLoops
    (JS.replace_backslashes (path_resolve env [inputVideoPath])) "" = Some content ->
  writeFile_error env (Server.tempConcatFilePath env (Date_now env (clock_reads w))) = None ->
  command_failed (fst (loop_stage env inputVideoPath content w)) = false ->
  wp job (fun _ w' => spawns (trace w') = spawns (trace w) ++ children w) w.
Proof.
  intros Hacc Hvalid Hloop Hwrite Hstage.
  unfold accepted in Hacc. apply andb_true_iff in Hacc as [Hacc Hloops].
  apply andb_true_iff in Hacc as [Hv Ha].
  apply bool_decide_eq_true in Hv, Ha. apply negb_true_iff in Hloops.
  unfold valid_duration, probed in Hvalid. unfold loop_stage in Hstage.
  subst job children.
  unfold Server.createLoopedVideoWithAudio, Server.getVideoDuration,
    Server.executeCommand, children_of.
  wp_run_post.
  all: try absurd_lookup.
  all: try congruence.
  all: try match goal with
           | H : spawn_child _ "ffprobe" _ _ = _ |- _ =>
               rewrite H in Hvalid, Hstage; cbn [fst snd] in Hvalid, Hstage
           end.
  all: try discriminate.
  all: try (rewrite negb_true_iff in Hvalid; congruence).
  all: try match goal with
           | H : Server.concat_loop _ _ _ _ _ = Some ?s |- _ =>
               is_var s; assert (s = content) as -> by congruence
           end.
  all: try match goal with
           | H : spawn_child _ "ffmpeg" (Server.loopArgs _ _) _ = _ |- _ =>
               rewrite H in Hstage; cbn [fst command_failed] in Hstage
           end.
  all: try discriminate.
  all: trace_simpl.
  all: unfold probed;
       try match goal with
           | H : spawn_child _ "ffprobe" _ _ = _ |- _ => rewrite H
           end; cbn [fst].
  all: reflexivity.
Qed.

(** A loop count that is not positive stops the job at its third check:
    the two inputs were looked for, and nothing else was done. *)
Lemma job_refused w :
  JS.le numLoops (JS.ofZ 0) = true ->
  is_Some (files w !! path_resolve env [inputVideoPath]) ->
  is_Some (files w !! path_resolve env [inputAudioPath]) ->
  wp job
    (fun r w' =>
       r = Throw (newError "Number of loops must be a positive integer.")
       /\ w' = record (Access (path_resolve env [inputAudioPath]))
                 (record (Access (path_resolve env [inputVideoPath])) w)) w.
Proof.
  intros Hle Hv Ha. subst job children.
  unfold Server.createLoopedVideoWithAudio.
  wp_run_post.
  all: try absurd_lookup.
  all: try congruence.
  all: split; reflexivity.
Qed.

(** When the checks fail nothing is touched; past them, every way out that
    is not a hang ends with the two rounds of the clean-up, and nothing is
    deleted before. *)
Lemma job_cleanup w :
  wp job
    (fun r w' =>
       if accepted env inputVideoPath inputAudioPath numLoops (files w) then
         r <> Hang ->
         exists w1 evs1,
           trace w1 = trace w ++ evs1
           /\ unlinks_checked evs1 = true
           /\ w' = remove_temp env
                     (Server.tempLoopedVideoPath env (Date_now env (S (clock_reads w))))
                     (remove_temp env
                        (Server.tempConcatFilePath env (Date_now env (clock_reads w))) w1)
       else
         (exists e, r = Throw e) /\ files w' = files w
         /\ spawns (trace w') = spawns (trace w)
         /\ writes (trace w') = writes (trace w)) w.
Proof.
  subst job children.
  unfold Server.createLoopedVideoWithAudio, Server.getVideoDuration,
    Server.executeCommand, accepted.
  wp_run.
  all: repeat match goal with
         | H : is_Some (files _ !! _) |- _ =>
             rewrite (bool_decide_true _ H); clear H
         | H : files _ !! _ = None |- _ =>
             rewrite (bool_decide_false (is_Some _));
             [|rewrite H; intros [? ?]; discriminate]
         | H : JS.le _ _ = _ |- _ => rewrite H; clear H
         end.
  all: cbn [andb negb].
  all: try (split; [eexists; reflexivity|]; trace_simpl;
            rewrite ?app_nil_r; repeat split; reflexivity).
  all: try (intros Hh; exfalso; apply Hh; reflexivity).
  all: intros _; eexists; eexists; (split; [|split; [|reflexivity]]);
       [cbn [trace record set_files files clock_reads];
        rewrite <- ?app_assoc; cbn [app]; reflexivity | reflexivity].
Qed.

End Job.

(** *** The probe *)

Section Probe.

Context (env : Env).

Lemma positive_of_valid d : valid_duration d = true -> JS.lt (JS.ofZ 0) d = true.
Proof.
  unfold valid_duration. rewrite negb_true_iff, orb_false_iff. intros [Hn Hle].
  destruct d as [| | |q]; try discriminate; try reflexivity.
  unfold JS.lt, JS.le, JS.ofZ in *. by rewrite Hle.
Qed.


End Probe.

(** *** The handler of [POST /process-video] *)

Section Route.

Context (env : Env) (fuel : nat).

(** A request whose loop count does not parse to a number in [1, 1000] is
    answered with status 400; no child is started, no file is written, and
    no file is created or changed. *)
Lemma route_rejects v a body hd w :
  let numLoops := JS.parseInt (match body with Some s => s | None => "undefined" end) in
  JS.isNaN numLoops || JS.lt numLoops (JS.ofZ 1) || JS.lt (JS.ofZ 1000) numLoops = true ->
  wp (Server.process_video env fuel
        {| Server.videoFile := Some v; Server.audioFile := Some a;
           Server.body_numLoops := body; Server.body_fullHD := hd |})
    (fun r w' =>
       r = Ret rejection
       /\ spawns (trace w') = spawns (trace w)
       /\ execs (trace w') = execs (trace w)
       /\ writes (trace w') = writes (trace w)
       /\ files w' ⊆ files w
       /\ clock_reads w' = clock_reads w) w.
Proof.
  intros numLoops H. subst numLoops.
  unfold Server.process_video. cbn [Server.videoFile Server.audioFile Server.body_numLoops].
  rewrite H. unfold Server.unlink_if_exists_or_warn.
  wp_run.
  all: trace_simpl; rewrite ?app_nil_r.
  all: repeat split; try reflexivity.
  all: try absurd_lookup.
  all: first [ apply delete_subseteq
             | etrans; [apply delete_subseteq|]; apply delete_subseteq ].
Qed.

(** What the handler does with a loop count it does not accept: it
    answers, and discards the two uploads. *)
Lemma route_refused_exact v a body hd w :
  let numLoops := JS.parseInt (match body with Some s => s | None => "undefined" end) in
  JS.isNaN numLoops || JS.lt numLoops (JS.ofZ 1) || JS.lt (JS.ofZ 1000) numLoops = true ->
  wp (Server.process_video env fuel
        {| Server.videoFile := Some v; Server.audioFile := Some a;
           Server.body_numLoops := body; Server.body_fullHD := hd |})
    (fun r w' =>
       r = Ret rejection
       /\ w' = discarded env (Server.path a)
                 "Cleanup failed for audio upload on invalid loops"
                 (discarded env (Server.path v)
                    "Cleanup failed for video upload on invalid loops" w)) w.
Proof.
  intros numLoops H. subst numLoops.
  unfold Server.process_video. cbn [Server.videoFile Server.audioFile Server.body_numLoops].
  rewrite H. unfold Server.unlink_if_exists_or_warn.
  wp_run_post.
  all: try absurd_lookup.
  all: (split; [reflexivity|]).
  all: unfold discarded, discard_events, removal_files;
       cbn [files trace clock_reads record set_files].
  all: unfold removal_files.
  all: repeat match goal with
              | H : is_Some (_ !! _) |- _ => destruct H as [? H]
              end.
  all: repeat match goal with
              | H : _ !! _ = _ |- _ => rewrite H
              | H : unlink_error _ _ = _ |- _ => rewrite H
              end.
  all: cbn [files trace clock_reads record set_files app].
  all: unfold record, set_files; cbn [files trace clock_reads];
       rewrite <- ?app_assoc; reflexivity.
Qed.

(** The handler starts no child through a shell, and the children it
    starts are those of the job. *)
Lemma route_trace req w :
  wp (Server.process_video env fuel req)
    (fun _ w' =>
       execs (trace w') = execs (trace w)
       /\ exists k, spawns (trace w') = spawns (trace w) ++ k
            /\ (k = []
                \/ exists vin ain numLoops out hd w0,
                     k `prefix_of` children_of env vin ain numLoops out hd w0)) w.
Proof.
  unfold Server.process_video, Server.unlink_if_exists_or_warn, Server.unlink_if_exists.
  wp_simpl.
  repeat first
    [ lazymatch goal with
      | |- wp (Server.createLoopedVideoWithAudio _ _ _ _ _ _ _) _ _ =>
          eapply wp_mono; [|apply job_trace];
          intros [?|?|] ? [[k [Hk Hs]] He]; wp_simpl
      end
    | wp_step ].
  all: cbn [files trace clock_reads record set_files fst snd] in *.
  all: trace_simpl; rewrite ?app_nil_r.
  all: try (split; [reflexivity|exists []; split; [by rewrite app_nil_r|by left]]).
  all: rewrite ?He, ?Hs.
  all: (split; [reflexivity|]).
  all: eexists; split; [reflexivity|]; right; do 6 eexists; exact Hk.
Qed.

End Route.

(** *** The job of [VideoLooper.js] *)

Section ScriptCleanup.

Context (env : Env).

Lemma script_unlink_run what p w (h : jsError -> M unit) :
  (forall e w0,
     h e w0 = (Ret tt,
               record (Warn ("Warning: Could not remove temporary " +:+ what +:+ " file: "
                               +:+ p +:+ " (" +:+ message e +:+ ")")) w0)) ->
  try_catch (fs_unlink env p) h w = (Ret tt, script_remove env what p w).
Proof.
  intros Hh. unfold try_catch, fs_unlink, script_remove.
  destruct (files w !! p); [destruct (unlink_error env p)|]; rewrite ?Hh; reflexivity.
Qed.

Lemma script_cleanup_run a b w :
  VideoLooper.cleanup env a b w
  = (Ret tt, script_remove env "looped video" b (script_remove env "concat" a w)).
Proof.
  unfold VideoLooper.cleanup.
  unfold bind at 1.
  rewrite (script_unlink_run "concat") by reflexivity. cbv beta iota.
  rewrite (script_unlink_run "looped video") by reflexivity. reflexivity.
Qed.

Lemma wp_script_cleanup a b (Φ : outcome unit -> world -> Prop) w :
  Φ (Ret tt) (script_remove env "looped video" b (script_remove env "concat" a w)) ->
  wp (VideoLooper.cleanup env a b) Φ w.
Proof. unfold wp. rewrite script_cleanup_run. exact (fun H => H). Qed.

Lemma script_remove_trace what p w :
  exists evs, trace (script_remove env what p w) = trace w ++ evs
              /\ spawns evs = [] /\ execs evs = [] /\ writes evs = [].
Proof.
  unfold script_remove.
  destruct (files w !! p); [destruct (unlink_error env p)|];
    cbn [trace record set_files]; rewrite <- ?app_assoc; cbn [app];
    eexists; (split; [reflexivity|]); repeat split; reflexivity.
Qed.

Lemma spawns_script_remove what p w :
  spawns (trace (script_remove env what p w)) = spawns (trace w).
Proof.
  destruct (script_remove_trace what p w) as (evs & -> & H & _).
  by rewrite spawns_app, H, app_nil_r.
Qed.

Lemma execs_script_remove what p w :
  execs (trace (script_remove env what p w)) = execs (trace w).
Proof.
  destruct (script_remove_trace what p w) as (evs & -> & _ & H & _).
  by rewrite execs_app, H, app_nil_r.
Qed.

Lemma writes_script_remove what p w :
  writes (trace (script_remove env what p w)) = writes (trace w).
Proof.
  destruct (script_remove_trace what p w) as (evs & -> & _ & _ & H).
  by rewrite writes_app, H, app_nil_r.
Qed.

End ScriptCleanup.

#[export] Hint Rewrite spawns_script_remove execs_script_remove writes_script_remove : trace.

Section Script.

Context (env : Env) (fuel : nat).
Context (inputVideoPath inputAudioPath : string) (numLoops : JS.number)
        (outputVideoPath : string).

Let script := VideoLooper.createLoopedVideoWithAudio env fuel inputVideoPath inputAudioPath
                numLoops outputVideoPath.

Ltac script_run :=
  subst script;
  unfold VideoLooper.createLoopedVideoWithAudio, VideoLooper.found,
    VideoLooper.executeCommand;
  rewrite concat_loop_script;
  wp_simpl;
  repeat first
    [ lazymatch goal with
      | |- wp (VideoLooper.cleanup _ _ _) _ _ => apply wp_script_cleanup
      end
    | wp_step ];
  cbn [files trace clock_reads record set_files fst snd] in *.

(** The script writes at most one file: the manifest, with what the loop
    built. *)
Lemma script_writes w :
  wp script
    (fun _ w' =>
       exists ws, writes (trace w') = writes (trace w) ++ ws
         /\ (ws = []
             \/ exists content,
                  Server.concat_loop fuel 0 numLoops
                    (JS.replace_backslashes (path_resolve env [inputVideoPath])) ""
                  = Some content
                  /\ ws = [(VideoLooper.tempConcatFilePath env, content)])) w.
Proof.
  script_run.
  all: trace_simpl.
  all: try (exists []; split; [by rewrite app_nil_r | by left]).
  all: eexists; (split; [reflexivity|]); right; eexists;
       split; [first [eassumption | reflexivity] | reflexivity].
Qed.

(** Past the checks the manifest is written. *)
Lemma script_progress w content :
  accepted env inputVideoPath inputAudioPath numLoops (files w) = true ->
  Server.concat_loop fuel 0 numLoops
    (JS.replace_backslashes (path_resolve env [inputVideoPath])) "" = Some content ->
  wp script
    (fun r w' =>
       (r = Hang ->
        exists k, execs (trace w') = execs (trace w) ++ k /\ line_never_ends env k)
       /\ writes (trace w')
          = writes (trace w) ++ [(VideoLooper.tempConcatFilePath env, content)]) w.
Proof.
  intros Hacc Hloop.
  unfold accepted in Hacc. apply andb_true_iff in Hacc as [Hacc Hloops].
  apply andb_true_iff in Hacc as [Hv Ha].
  apply bool_decide_eq_true in Hv, Ha. apply negb_true_iff in Hloops.
  script_run.
  all: try absurd_lookup.
  all: try congruence.
  all: trace_simpl.
  all: (split; [|congruence]).
  all: try discriminate.
  all: intros _; eexists; (split; [reflexivity|]); pending_child.
Qed.

(** Every child of the script is started through a shell, from one command
    line. *)
Lemma script_trace w :
  wp script
    (fun _ w' =>
       spawns (trace w') = spawns (trace w)
       /\ exists k,
            k `prefix_of`
              [ VideoLooper.loopCommand (VideoLooper.tempConcatFilePath env)
                  (VideoLooper.tempLoopedVideoPath env);
                VideoLooper.combineCommand (VideoLooper.tempLoopedVideoPath env)
                  (path_resolve env [inputAudioPath]) (path_resolve env [outputVideoPath]) ]
            /\ execs (trace w') = execs (trace w) ++ k) w.
Proof.
  script_run.
  all: trace_simpl.
  all: (split; [reflexivity|]).
  all: try (exists []; split; [apply prefix_nil | by rewrite app_nil_r]).
  all: eexists; (split; [|reflexivity]); by (eexists; reflexivity).
Qed.

End Script.

(** *** The clean-up of [VideoLooper.js] *)

Section ScriptRemoval.

Context (env : Env).

(** After a deletion the file is gone, or a warning was printed. *)
Lemma script_remove_gone what p w :
  files (script_remove env what p w) !! p = None
  \/ exists msg, In (script_warning what p msg) (trace (script_remove env what p w)).
Proof.
  unfold script_remove, script_warning.
  destruct (files w !! p) eqn:E; [destruct (unlink_error env p) as [msg|]|].
  - right. exists msg. cbn [trace record]. apply in_or_app. right. simpl. auto.
  - left. cbn [files set_files]. apply lookup_delete_eq.
  - left. exact E.
Qed.

Lemma script_remove_None what p q w :
  files w !! q = None -> files (script_remove env what p w) !! q = None.
Proof.
  unfold script_remove. intros H.
  destruct (files w !! p); [destruct (unlink_error env p)|]; cbn [files record set_files];
    try exact H.
  destruct (decide (p = q)) as [->|Hne];
    [apply lookup_delete_eq | by rewrite lookup_delete_ne].
Qed.

Lemma script_remove_In what p ev w :
  In ev (trace w) -> In ev (trace (script_remove env what p w)).
Proof.
  destruct (script_remove_trace env what p w) as (evs & -> & _).
  intros H. apply in_or_app. by left.
Qed.

End ScriptRemoval.

Section ScriptExit.

Context (env : Env) (fuel : nat).
Context (inputVideoPath inputAudioPath : string) (numLoops : JS.number)
        (outputVideoPath : string).

(** When the checks fail the script returns [false] and touches nothing;
    past them, every way out that is not a hang ends with the two
    deletions. *)
Lemma script_cleanup w :
  wp (VideoLooper.createLoopedVideoWithAudio env fuel inputVideoPath inputAudioPath
        numLoops outputVideoPath)
    (fun r w' =>
       if accepted env inputVideoPath inputAudioPath numLoops (files w) then
         r <> Hang ->
         exists w1,
           w' = script_remove env "looped video" (VideoLooper.tempLoopedVideoPath env)
                  (script_remove env "concat" (VideoLooper.tempConcatFilePath env) w1)
       else r = Ret false /\ files w' = files w) w.
Proof.
  unfold VideoLooper.createLoopedVideoWithAudio, VideoLooper.found,
    VideoLooper.executeCommand, accepted.
  wp_simpl.
  repeat first
    [ lazymatch goal with
      | |- wp (VideoLooper.cleanup _ _ _) _ _ => apply wp_script_cleanup
      end
    | wp_step ].
  all: cbn [files trace clock_reads record set_files fst snd] in *.
  all: repeat match goal with
         | H : is_Some (files _ !! _) |- _ =>
             rewrite (bool_decide_true _ H); clear H
         | H : files _ !! _ = None |- _ =>
             rewrite (bool_decide_false (is_Some _));
             [|rewrite H; intros [? ?]; discriminate]
         | H : JS.le _ _ = _ |- _ => rewrite H; clear H
         end.
  all: cbn [andb negb].
  all: try (split; reflexivity).
  all: try (intros Hh; exfalso; apply Hh; reflexivity).
  all: intros _; eexists; reflexivity.
Qed.

End ScriptExit.

(** *** What the clean-up cannot change *)

Section Outcome.

Lemma bind_outcome_ext {A B} (m : M A) (k k' : A -> M B) w :
  (forall a w1, fst (k a w1) = fst (k' a w1)) ->
  fst (bind m k w) = fst (bind m k' w).
Proof. intros H. unfold bind. destruct (m w) as [[a|e|] w1]; [apply H | reflexivity..]. Qed.

Lemma try_finally_outcome {A} (m : M A) (c c' : M unit) w :
  (forall w1, fst (c w1) = Ret tt) -> (forall w1, fst (c' w1) = Ret tt) ->
  fst (try_finally m c w) = fst (try_finally m c' w).
Proof.
  intros H H'. unfold try_finally. destruct (m w) as [[a|e|] w1]; [| |reflexivity].
  - specialize (H w1). specialize (H' w1).
    destruct (c w1) as [r1 ?], (c' w1) as [r2 ?]. cbn in *. by subst.
  - specialize (H w1). specialize (H' w1).
    destruct (c w1) as [r1 ?], (c' w1) as [r2 ?]. cbn in *. by subst.
Qed.

(** What a job of [server.js] returns or throws does not depend on which
    deletions fail. *)
Lemma job_outcome_unlink env fuel f vin ain numLoops out fullHD w :
  fst (Server.createLoopedVideoWithAudio (with_unlink_error f env) fuel
         vin ain numLoops out fullHD w)
  = fst (Server.createLoopedVideoWithAudio env fuel vin ain numLoops out fullHD w).
Proof.
  unfold Server.createLoopedVideoWithAudio.
  repeat (apply bind_outcome_ext; intros).
  apply try_finally_outcome; intros; by rewrite cleanup_run.
Qed.

(** The same for the script. *)
Lemma script_outcome_unlink env fuel f vin ain numLoops out w :
  fst (VideoLooper.createLoopedVideoWithAudio (with_unlink_error f env) fuel
         vin ain numLoops out w)
  = fst (VideoLooper.createLoopedVideoWithAudio env fuel vin ain numLoops out w).
Proof.
  unfold VideoLooper.createLoopedVideoWithAudio.
  apply bind_outcome_ext; intros videoFound w1.
  destruct (negb videoFound); [reflexivity|].
  apply bind_outcome_ext; intros audioFound w2.
  destruct (negb audioFound); [reflexivity|].
  destruct (JS.le numLoops (JS.ofZ 0)); [reflexivity|].
  apply try_finally_outcome; intros; by rewrite script_cleanup_run.
Qed.

End Outcome.

(** *** The compose arguments *)

Section Compose.

Context (tmp audio : string) (d : JS.number) (out : string).

Lemma compose_inputs fullHD :
  inputs (options (Server.combineArgs tmp audio fullHD d out))
  = [ (tmp, [Flag "-y"]); (audio, [Opt "-stream_loop" "-1"]) ].
Proof. destruct fullHD; reflexivity. Qed.

Lemma compose_cap fullHD :
  values_of "-t" (output_options (options (Server.combineArgs tmp audio fullHD d out)))
  = [JS.toFixed 3 d].
Proof. destruct fullHD; reflexivity. Qed.

Lemma compose_flags fullHD :
  has_flag "-shortest" (options (Server.combineArgs tmp audio fullHD d out)) = false.
Proof. destruct fullHD; reflexivity. Qed.

Lemma compose_output fullHD :
  output (Server.combineArgs tmp audio fullHD d out) = Some out.
Proof. destruct fullHD; reflexivity. Qed.

Lemma compose_video fullHD :
  let opts := output_options (options (Server.combineArgs tmp audio fullHD d out)) in
  values_of "-c:v" opts = [if fullHD then "libx264" else "copy"]
  /\ values_of "-vf" opts = (if fullHD then ["scale=1920:1080"] else [])
  /\ values_of "-preset" opts = (if fullHD then ["medium"] else [])
  /\ values_of "-crf" opts = (if fullHD then ["23"] else [])
  /\ values_of "-c:a" opts = ["aac"]
  /\ values_of "-b:a" opts = ["192k"].
Proof. destruct fullHD; repeat split; reflexivity. Qed.

End Compose.

(** *** Rounding to three decimals *)

Section Rounding.

(** [nearest_scaled 3 q] is the integer nearest to [1000 q]. *)
Lemma nearest_scaled_bounds q :
  (inject_Z (JS.nearest_scaled 3 q) - (1 # 2) <= q * 1000
   /\ q * 1000 < inject_Z (JS.nearest_scaled 3 q) + (1 # 2))%Q.
Proof.
  unfold JS.nearest_scaled.
  change (inject_Z (10 ^ Z.of_nat 3)) with 1000%Q.
  pose proof (Qfloor_le (q * 1000 + (1 # 2))) as Hl.
  pose proof (Qlt_floor (q * 1000 + (1 # 2))) as Hu.
  set (n := Qfloor (q * 1000 + (1 # 2))) in *.
  rewrite inject_Z_plus in Hu. change (inject_Z 1) with 1%Q in Hu.
  split.
  - apply (Qplus_le_l _ _ (1 # 2)). ring_simplify. ring_simplify in Hl. exact Hl.
  - apply (Qplus_lt_l _ _ (1 # 2)).
    eapply Qlt_le_trans; [exact Hu|]. ring_simplify. apply Qle_refl.
Qed.

(** Below [1e21] the notation is fixed. *)
Lemma toFixed_nonneg q :
  (0 <= q)%Q -> (q < inject_Z (10 ^ 21))%Q ->
  JS.toFixed 3 (JS.Num q) = JS.fixed_digits 3 (JS.nearest_scaled 3 q).
Proof.
  intros H Hb. unfold JS.toFixed. apply Qle_bool_iff in H. rewrite H.
  destruct (Qle_bool (inject_Z (10 ^ 21)) q) eqn:E; [|reflexivity].
  apply Qle_bool_iff in E. exfalso. exact (Qlt_not_le _ _ Hb E).
Qed.

End Rounding.

(** *** Rounding to binary64 *)

Section Binary64.

Lemma Qred_inject_Z z : Qred (inject_Z z) = inject_Z z.
Proof.
  unfold inject_Z, Qred.
  pose proof (Z.ggcd_gcd z 1) as Hg. pose proof (Z.ggcd_correct_divisors z 1) as Hd.
  destruct (Z.ggcd z 1) as [g [a b]]. cbn [fst snd] in *.
  rewrite Z.gcd_1_r in Hg. subst g. destruct Hd as [Ha Hb].
  rewrite Z.mul_1_l in Ha, Hb. subst a b. reflexivity.
Qed.

Lemma scaled_positive e n d n' d' :
  0 < n -> 0 < d -> JS.scaled e n d = (n', d') -> 0 < n' /\ 0 < d'.
Proof.
  intros Hn Hd. unfold JS.scaled. destruct (0 <=? e) eqn:E; intros [= <- <-].
  - split; [exact Hn|]. apply Z.mul_pos_pos; [exact Hd|]. apply Z.pow_pos_nonneg; lia.
  - split; [|exact Hd]. apply Z.mul_pos_pos; [exact Hn|].
    apply Z.pow_pos_nonneg; [lia|]. apply Z.leb_gt in E. lia.
Qed.

(** The rounded quotient is the quotient or the next integer. *)
Lemma round_half_even_bounds n d :
  0 < d -> n / d <= JS.round_half_even n d <= n / d + 1.
Proof.
  intros Hd. unfold JS.round_half_even.
  destruct (2 * (n mod d) ?= d); [destruct (Z.even (n / d))|..]; lia.
Qed.

Lemma double_pos_nonneg n d :
  0 < n -> 0 < d ->
  JS.double_pos n d = JS.Infinity
  \/ exists p, JS.double_pos n d = JS.Num p /\ (0 <= p)%Q.
Proof.
  intros Hn Hd. unfold JS.double_pos.
  set (e := Z.max (JS.floor_log2 n d - 52) (-1074)).
  destruct (JS.scaled e n d) as [n' d'] eqn:Es.
  destruct (scaled_positive _ _ _ _ _ Hn Hd Es) as [Hn' Hd'].
  pose proof (round_half_even_bounds n' d' Hd') as Hm.
  pose proof (Z.div_pos n' d' ltac:(lia) Hd') as Hq.
  set (m := JS.round_half_even n' d') in *.
  destruct ((971 <? e) || (e =? 971) && (m =? 2 ^ 53)); [by left|right].
  eexists. split; [reflexivity|].
  rewrite Qred_correct. destruct (0 <=? e).
  - rewrite <- (Zle_Qle 0). apply Z.mul_nonneg_nonneg; [lia|]. apply Z.pow_nonneg; lia.
  - unfold Qle. cbn [Qnum Qden]. lia.
Qed.

(** A value that is not negative is not rounded to a negative one. *)
Lemma double_nonneg q :
  (0 <= q)%Q ->
  JS.double q = JS.Infinity \/ exists p, JS.double q = JS.Num p /\ (0 <= p)%Q.
Proof.
  intros Hq. unfold JS.double. destruct q as [[|n|n] d]; cbn [Qnum Qden].
  - right. by exists 0%Q.
  - apply double_pos_nonneg; lia.
  - exfalso. unfold Qle in Hq. cbn in Hq. lia.
Qed.

Lemma scaled_integer e z : 0 <= e -> JS.scaled e z 1 = (z, 2 ^ e).
Proof.
  intros He. unfold JS.scaled.
  replace (0 <=? e) with true by (symmetry; apply Z.leb_le; exact He).
  by rewrite Z.mul_1_l.
Qed.

Lemma floor_log2_integer z : 0 < z -> JS.floor_log2 z 1 = Z.log2 z.
Proof.
  intros Hz. unfold JS.floor_log2. change (Z.log2 1) with 0. rewrite Z.sub_0_r.
  rewrite scaled_integer by apply Z.log2_nonneg.
  pose proof (Z.log2_spec z Hz) as [Hlo _].
  apply Z.leb_le in Hlo. by rewrite Hlo.
Qed.

(** An integer above [2^53] is rounded to an integer not below [2^53]. *)
Lemma double_pos_large z :
  2 ^ 53 < z ->
  JS.double_pos z 1 = JS.Infinity
  \/ exists v, JS.double_pos z 1 = JS.ofZ v /\ 2 ^ 53 <= v.
Proof.
  intros Hz. unfold JS.double_pos.
  assert (Hz0 : 0 < z) by lia.
  rewrite floor_log2_integer by exact Hz0.
  pose proof (Z.log2_spec z Hz0) as [Hlo Hhi].
  assert (Hk : 53 <= Z.log2 z).
  { apply Z.log2_le_pow2; [exact Hz0 | lia]. }
  set (k := Z.log2 z) in *.
  replace (Z.max (k - 52) (-1074)) with (k - 52) by lia.
  rewrite scaled_integer by lia.
  replace (0 <=? k - 52) with true by (symmetry; apply Z.leb_le; lia).
  assert (Hp : 0 < 2 ^ (k - 52)) by (apply Z.pow_pos_nonneg; lia).
  pose proof (round_half_even_bounds z (2 ^ (k - 52)) Hp) as Hm.
  assert (Hdiv : 2 ^ 52 <= z / 2 ^ (k - 52)).
  { apply Z.div_le_lower_bound; [exact Hp|].
    rewrite <- Z.pow_add_r by lia. replace (k - 52 + 52) with k by lia. exact Hlo. }
  set (m := JS.round_half_even z (2 ^ (k - 52))) in *.
  destruct ((971 <? k - 52) || (k - 52 =? 971) && (m =? 2 ^ 53)); [by left|right].
  exists (m * 2 ^ (k - 52)). split.
  - unfold JS.ofZ. by rewrite Qred_inject_Z.
  - assert (2 <= 2 ^ (k - 52)).
    { change 2 with (2 ^ 1) at 1. apply Z.pow_le_mono_r; lia. }
    change (2 ^ 53) with (2 ^ 52 * 2). apply Z.mul_le_mono_nonneg; lia.
Qed.

(** What [parseInt] makes of the integer it reads. *)
Lemma of_integer_cases z :
  (Z.abs z <= 2 ^ 53 /\ JS.of_integer z = JS.ofZ z)
  \/ (2 ^ 53 < z
      /\ (JS.of_integer z = JS.Infinity
          \/ exists v, JS.of_integer z = JS.ofZ v /\ 2 ^ 53 <= v))
  \/ (z < - 2 ^ 53
      /\ (JS.of_integer z = JS.NegInfinity
          \/ exists v, JS.of_integer z = JS.ofZ v /\ v <= - 2 ^ 53)).
Proof.
  unfold JS.of_integer. destruct (Z.abs z <=? 2 ^ 53) eqn:E.
  - left. split; [by apply Z.leb_le | reflexivity].
  - apply Z.leb_gt in E. right.
    destruct z as [|p|p]; [cbn in E; lia | left | right].
    + split; [lia|]. unfold JS.double. cbn [inject_Z Qnum Qden].
      apply double_pos_large. lia.
    + split; [lia|]. unfold JS.double. cbn [inject_Z Qnum Qden].
      destruct (double_pos_large (Z.pos p) ltac:(lia)) as [->|(v & -> & Hv)].
      * by left.
      * right. exists (- v). split; [|lia].
        reflexivity.
Qed.

End Binary64.

(** *** The order of the rounded values *)

Section Monotone.

#[local] Open Scope Q_scope.

#[local] Abbreviation ratio n d := (inject_Z n / inject_Z d).






















End Monotone.

Import Outcomes.

(** *** Characters of names and messages *)

Section Characters.

Implicit Types (s t : string) (keep : ascii -> bool).

Lemma all_chars_app keep s t :
  all_chars keep (s +:+ t) = all_chars keep s && all_chars keep t.
Proof.
  induction s as [|c s IH]; [reflexivity|].
  rewrite append_cons. cbn [all_chars]. by rewrite IH, andb_assoc.
Qed.

Lemma all_chars_weaken keep keep' s :
  (forall c, keep c = true -> keep' c = true) ->
  all_chars keep s = true -> all_chars keep' s = true.
Proof.
  intros Hk. induction s as [|c s IH]; [reflexivity|]. cbn [all_chars].
  rewrite !andb_true_iff. intros [Hc Hs]. auto.
Qed.

Lemma all_chars_get keep s i c :
  all_chars keep s = true -> String.get i s = Some c -> keep c = true.
Proof.
  revert i. induction s as [|d s IH]; intros i; [discriminate|].
  cbn [all_chars]. rewrite andb_true_iff. intros [Hd Hs].
  destruct i as [|i]; simpl.
  - by intros [= <-].
  - by apply IH.
Qed.

Lemma all_chars_includes keep s c :
  all_chars keep s = true -> keep c = false -> JS.includes_char c s = false.
Proof.
  intros Hs Hc. induction s as [|d s IH]; [reflexivity|].
  cbn [all_chars JS.includes_char] in *. apply andb_true_iff in Hs as [Hd Hs].
  rewrite IH, orb_false_r by exact Hs.
  destruct (Ascii.eqb c d) eqn:E; [|reflexivity].
  apply Ascii.eqb_eq in E. congruence.
Qed.

Lemma is_digit_pretty_N_char n : is_digit (pretty_N_char n) = true.
Proof.
  destruct n as [|p]; [reflexivity|].
  do 4 (try (destruct p as [p|p|]; try reflexivity)).
Qed.

Lemma pretty_N_go_digits n s :
  all_chars is_digit s = true -> all_chars is_digit (pretty_N_go n s) = true.
Proof.
  revert s. induction (N.lt_wf_0 n) as [n _ IH]. intros s Hs.
  destruct (decide (n = 0%N)) as [->|Hn]; [exact Hs|].
  rewrite pretty_N_go_step by lia.
  apply IH; [apply N.div_lt; lia|].
  cbn [all_chars]. by rewrite is_digit_pretty_N_char, Hs.
Qed.

Lemma pretty_N_go_length n s :
  (String.length s <= String.length (pretty_N_go n s))%nat.
Proof.
  revert s. induction (N.lt_wf_0 n) as [n _ IH]. intros s.
  destruct (decide (n = 0%N)) as [->|Hn]; [reflexivity|].
  rewrite pretty_N_go_step by lia.
  specialize (IH (n `div` 10)%N ltac:(apply N.div_lt; lia)
                (String (pretty_N_char (n `mod` 10)) s)).
  cbn [String.length] in IH. lia.
Qed.

Lemma show_pos p : JS.show (Z.pos p) = pretty_N_go (N.pos p) "".
Proof. reflexivity. Qed.

Lemma show_neg p : JS.show (Z.neg p) = "-" +:+ JS.show (Z.pos p).
Proof. reflexivity. Qed.

(** The decimal text of a number that is not negative: digits, and at
    least one. *)
Lemma show_digits z :
  0 <= z -> all_chars is_digit (JS.show z) = true /\ JS.show z <> "".
Proof.
  intros Hz.
  destruct z as [|p|p]; [split; [reflexivity|discriminate]| |lia].
  rewrite show_pos. split; [by apply pretty_N_go_digits|].
  rewrite pretty_N_go_step by lia. intros E.
  pose proof (pretty_N_go_length (N.pos p `div` 10)
                (String (pretty_N_char (N.pos p `mod` 10)) "")) as L.
  rewrite E in L. simpl in L. lia.
Qed.

(** The decimal text of any integer: digits after an optional dash. *)
Lemma show_chars keep z :
  (forall c, is_digit c = true -> keep c = true) -> keep "-"%char = true ->
  all_chars keep (JS.show z) = true.
Proof.
  intros Hd Hm. destruct z as [|p|p].
  - apply (all_chars_weaken is_digit); [exact Hd | reflexivity].
  - apply (all_chars_weaken is_digit); [exact Hd | by apply show_digits].
  - rewrite show_neg, append_cons. cbn [all_chars]. rewrite Hm.
    apply (all_chars_weaken is_digit); [exact Hd|].
    exact (proj1 (show_digits (Z.pos p) ltac:(lia))).
Qed.

Lemma append_nil_l s : "" +:+ s = s.
Proof. reflexivity. Qed.

(** Where a text of digits ends, when a dash follows it. *)
Lemma digits_then_dash s s' t t' :
  all_chars is_digit s = true -> all_chars is_digit s' = true ->
  s +:+ "-" +:+ t = s' +:+ "-" +:+ t' -> s = s' /\ t = t'.
Proof.
  revert s'. induction s as [|c s IH]; intros [|c' s'] Hs Hs'.
  - rewrite !append_nil_l, !append_cons, !append_nil_l. by intros [= ->].
  - rewrite !append_nil_l, !append_cons. intros [= <- _]. cbn in Hs'. discriminate.
  - rewrite !append_nil_l, !append_cons. intros [= -> _]. cbn in Hs. discriminate.
  - rewrite !append_cons. intros [= <- E].
    cbn [all_chars] in Hs, Hs'. apply andb_true_iff in Hs as [_ Hs].
    apply andb_true_iff in Hs' as [_ Hs'].
    destruct (IH s' Hs Hs' E) as [-> ->]. done.
Qed.

Lemma replace_unless_length keep s :
  String.length (Server.replace_unless keep s) = String.length s.
Proof. induction s as [|c s IH]; simpl; [reflexivity | by rewrite IH]. Qed.

Lemma replace_unless_get keep s i :
  String.get i (Server.replace_unless keep s)
  = option_map (fun c => if keep c then c else "_"%char) (String.get i s).
Proof.
  revert i. induction s as [|c s IH]; intros i; simpl; [reflexivity|].
  destruct i; simpl; [reflexivity | apply IH].
Qed.

Lemma replace_unless_chars keep s :
  keep "_"%char = true -> all_chars keep (Server.replace_unless keep s) = true.
Proof.
  intros Hu. induction s as [|c s IH]; [reflexivity|].
  cbn [Server.replace_unless all_chars]. rewrite IH, andb_true_r.
  destruct (keep c) eqn:E; [exact E | exact Hu].
Qed.

Lemma replace_unless_clean keep s :
  all_chars keep s = true -> Server.replace_unless keep s = s.
Proof.
  induction s as [|c s IH]; [reflexivity|].
  cbn [Server.replace_unless all_chars]. rewrite andb_true_iff. intros [-> Hs].
  by rewrite IH.
Qed.

Lemma substring0_length n s :
  String.length (JS.substring0 n s) = Nat.min n (String.length s).
Proof.
  unfold JS.substring0. revert s. induction n as [|n IH]; intros [|c s]; simpl; try reflexivity.
  by rewrite IH.
Qed.

Lemma substring0_chars keep n s :
  all_chars keep s = true -> all_chars keep (JS.substring0 n s) = true.
Proof.
  unfold JS.substring0. revert s. induction n as [|n IH]; intros [|c s]; simpl; try reflexivity.
  rewrite !andb_true_iff. intros [Hc Hs]. auto.
Qed.

Lemma substring0_all n s :
  (String.length s <= n)%nat -> JS.substring0 n s = s.
Proof.
  unfold JS.substring0. revert s. induction n as [|n IH]; intros [|c s]; simpl;
    try reflexivity; try lia.
  intros H. rewrite IH by lia. reflexivity.
Qed.

(** No line break is left by the replacement, and the text gets no longer. *)
Lemma replace_newlines_chars s :
  all_chars (fun c => negb (is_line_break c)) (JS.replace_newlines s) = true.
Proof.
  cut (all_chars (fun c => negb (is_line_break c)) (JS.replace_newlines s) = true
       /\ forall c, all_chars (fun c => negb (is_line_break c))
                      (JS.replace_newlines (String c s)) = true); [tauto|].
  induction s as [|d s [IH1 IH2]].
  - split; [reflexivity|]. intros c. cbn [JS.replace_newlines].
    destruct (N.eqb (JS.code c) 13) eqn:E13; [reflexivity|].
    destruct (N.eqb (JS.code c) 10) eqn:E10; [reflexivity|].
    cbn [all_chars]. unfold is_line_break. by rewrite E13, E10.
  - split; [apply IH2|]. intros c. specialize (IH2 d).
    cbn [JS.replace_newlines] in *.
    destruct (N.eqb (JS.code c) 13) eqn:E13.
    + destruct (N.eqb (JS.code d) 10); cbn [all_chars]; [exact IH1 | exact IH2].
    + destruct (N.eqb (JS.code c) 10) eqn:E10; cbn [all_chars]; [exact IH2|].
      unfold is_line_break at 1. rewrite E13, E10. exact IH2.
Qed.

Lemma replace_newlines_length s :
  (String.length (JS.replace_newlines s) <= String.length s)%nat.
Proof.
  cut ((String.length (JS.replace_newlines s) <= String.length s)%nat
       /\ forall c, (String.length (JS.replace_newlines (String c s))
                     <= S (String.length s))%nat); [tauto|].
  induction s as [|d s [IH1 IH2]].
  - split; [reflexivity|]. intros c. cbn [JS.replace_newlines].
    destruct (N.eqb (JS.code c) 13); [simpl; lia|].
    destruct (N.eqb (JS.code c) 10); simpl; lia.
  - split; [apply IH2|]. intros c. specialize (IH2 d).
    cbn [JS.replace_newlines] in *.
    destruct (N.eqb (JS.code c) 13).
    + destruct (N.eqb (JS.code d) 10); cbn [String.length] in *; lia.
    + destruct (N.eqb (JS.code c) 10); cbn [String.length] in *; lia.
Qed.

End Characters.

Section Includes.

Implicit Types (s t : string).

Lemma includes_char_app c s t :
  JS.includes_char c (s +:+ t) = JS.includes_char c s || JS.includes_char c t.
Proof.
  induction s as [|d s IH]; [reflexivity|].
  rewrite append_cons. cbn [JS.includes_char]. by rewrite IH, orb_assoc.
Qed.

(** A kept character other than the underscore is in the cleaned name
    exactly where it is in the name. *)
Lemma includes_char_replace_unless keep c s :
  keep c = true -> c <> "_"%char ->
  JS.includes_char c (Server.replace_unless keep s) = JS.includes_char c s.
Proof.
  intros Hk Hu. induction s as [|d s IH]; [reflexivity|].
  cbn [Server.replace_unless JS.includes_char]. rewrite IH. f_equal.
  destruct (keep d) eqn:E; [reflexivity|].
  destruct (Ascii.eqb c d) eqn:Ed.
  - apply Ascii.eqb_eq in Ed. congruence.
  - apply Ascii.eqb_neq. exact Hu.
Qed.

End Includes.

(* ===================================================================== *)
(** ** The properties of the pipeline                                     *)
(* ===================================================================== *)

(** C1. For every integer [loopCount >= 1], the manifest a job writes is made
    of exactly [loopCount] lines, each of them [file '<path>'] where [<path>]
    is the resolved input-video path with every backslash replaced by a
    forward slash.  The job writes no other file, waits for ever only if a
    child process it started never ends, and writes the manifest whenever it
    gets past its checks and its probe.  This holds for
    [createLoopedVideoWithAudio] of [server.js] and of [VideoLooper.js]. *)
Theorem manifest_has_loopCount_directives env fuel vin ain (loopCount : Z) w :
  1 <= loopCount -> (Z.to_nat loopCount < fuel)%nat ->
  let abs := path_resolve env [vin] in
  let p := JS.replace_backslashes abs in
  let lines := repeat (directive p) (Z.to_nat loopCount) in
  (length lines = Z.to_nat loopCount
   /\ (has_nl abs = false -> lines_of (manifest lines) = lines)
   /\ JS.includes_char "\" p = false
   /\ (forall n, String.get n p
                 = option_map (fun c => if Ascii.eqb c "\" then "/"%char else c)
                     (String.get n abs)))
  /\ (forall out fullHD,
        let tmp := Server.tempConcatFilePath env (Date_now env (clock_reads w)) in
        wp (Server.createLoopedVideoWithAudio env fuel vin ain (JS.ofZ loopCount) out fullHD)
          (fun r w' =>
             (r = Hang ->
              exists k, spawns (trace w') = spawns (trace w) ++ k
                        /\ child_never_ends env k)
             /\ (writes (trace w') = writes (trace w)
                 \/ writes (trace w') = writes (trace w) ++ [(tmp, manifest lines)])
             /\ (accepted env vin ain (JS.ofZ loopCount) (files w) = true ->
                 valid_duration (probed env abs (files w)) = true ->
                 writes (trace w') = writes (trace w) ++ [(tmp, manifest lines)])) w)
  /\ (forall out,
        let tmp := VideoLooper.tempConcatFilePath env in
        wp (VideoLooper.createLoopedVideoWithAudio env fuel vin ain (JS.ofZ loopCount) out)
          (fun r w' =>
             (r = Hang ->
              exists k, execs (trace w') = execs (trace w) ++ k
                        /\ line_never_ends env k)
             /\ (writes (trace w') = writes (trace w)
                 \/ writes (trace w') = writes (trace w) ++ [(tmp, manifest lines)])
             /\ (accepted env vin ain (JS.ofZ loopCount) (files w) = true ->
                 writes (trace w') = writes (trace w) ++ [(tmp, manifest lines)])) w).
Proof.
  intros Hn Hf abs p lines.
  assert (Hloop : Server.concat_loop fuel 0 (JS.ofZ loopCount) p "" = Some (manifest lines)).
  { apply concat_loop_integer; [lia | exact Hf]. }
  subst lines p abs.
  split; [|split].
  - split; [apply repeat_length|]. split; [|split].
    + intros Hnl. apply lines_of_manifest. apply Forall_forall.
      intros l Hl. apply list_elem_of_In, repeat_spec in Hl. subst l.
      rewrite has_nl_directive.
      by rewrite has_nl_replace_backslashes.
    + apply replace_backslashes_clean.
    + intros n. apply replace_backslashes_get.
  - intros out fullHD tmp.
    pose proof (job_writes env fuel vin ain (JS.ofZ loopCount) out fullHD w) as Hw.
    pose proof (job_hang env fuel vin ain (JS.ofZ loopCount) out fullHD w) as Hh.
    pose proof (fun Ha Hv =>
                  job_progress env fuel vin ain (JS.ofZ loopCount) out fullHD w
                    _ Ha Hv Hloop) as Hp.
    unfold wp in *.
    destruct Hw as (ws & Hws & Hcase).
    split; [|split].
    + intros E. destruct (Hh E) as [Hn'|Hk]; [|exact Hk].
      rewrite Hloop in Hn'. discriminate.
    + destruct Hcase as [->|(content & Hc & ->)].
      * left. by rewrite Hws, app_nil_r.
      * right. rewrite Hloop in Hc. injection Hc as <-. exact Hws.
    + intros Ha Hv. exact (proj1 (Hp Ha Hv)).
  - intros out tmp.
    pose proof (script_writes env fuel vin ain (JS.ofZ loopCount) out w) as Hw.
    pose proof (fun Ha =>
                  script_progress env fuel vin ain (JS.ofZ loopCount) out w
                    _ Ha Hloop) as Hp.
    unfold wp in *.
    destruct Hw as (ws & Hws & Hcase).
    split; [|split].
    + destruct (accepted env vin ain (JS.ofZ loopCount) (files w)) eqn:Ha.
      * exact (proj1 (Hp eq_refl)).
      * pose proof (script_cleanup env fuel vin ain (JS.ofZ loopCount) out w) as Hc.
        unfold wp in Hc. rewrite Ha in Hc. destruct Hc as [-> _]. discriminate.
    + destruct Hcase as [->|(content & Hc & ->)].
      * left. by rewrite Hws, app_nil_r.
      * right. rewrite Hloop in Hc. injection Hc as <-. exact Hws.
    + intros Ha. exact (proj2 (Hp Ha)).
Qed.

(** The theorem at work: four loops of [/srv/app/uploads/v.mp4]. *)
Lemma manifest_has_loopCount_directives_witness :
  1 <= 4 /\ (Z.to_nat 4 < 10)%nat
  /\ writes (trace (snd (Server.createLoopedVideoWithAudio Sample.happy 10
                           "/srv/app/uploads/v.mp4" "/srv/app/uploads/a.mp3"
                           (JS.ofZ 4) "out.mp4" false Sample.uploaded)))
     = [ ("/srv/app/uploads/ffmpeg_concat_1700000000000.txt",
          manifest (repeat (directive "/srv/app/uploads/v.mp4") 4)) ].
Proof.
  split; [lia|]. split; [simpl; lia|].
  refine (proj2 (proj2 (proj1 (proj2
            (manifest_has_loopCount_directives Sample.happy 10
               "/srv/app/uploads/v.mp4" "/srv/app/uploads/a.mp3" 4 Sample.uploaded
               _ _))
            "out.mp4" false)) _ _);
    [lia | simpl; lia | vm_compute; reflexivity | vm_compute; reflexivity].
Defined.

(** C2. Once the probe has succeeded the target duration is the probed
    duration times [numLoops], the product of the two Numbers.  A job starts
    at most three children: one probe, of the input video and never of the
    intermediate file, then the loop stage, then the compose stage; it
    starts all three when the manifest is written and the loop stage ends
    with code 0.  The [-t] value of the compose stage is that product
    written with three decimals: below 1e21, the integer nearest to a
    thousand times the product, with a point before its last three digits.
    A probed 2.5 and 4 loops give ["10.000"]; a probed 1.000500 and one loop
    give ["1.000"], since the Number read from [1.000500] is below 1.0005. *)
Theorem compose_cap_is_probed_total env fuel vin ain numLoops out fullHD w :
  let abs := path_resolve env [vin] in
  let tmp1 := Server.tempConcatFilePath env (Date_now env (clock_reads w)) in
  let tmp2 := Server.tempLoopedVideoPath env (Date_now env (S (clock_reads w))) in
  let targetDuration := JS.mul (probed env abs (files w)) numLoops in
  let compose :=
    Server.combineArgs tmp2 (path_resolve env [ain]) fullHD targetDuration
      (path_resolve env [OUTPUT_DIR env; out]) in
  let stages :=
    [ ("ffprobe", Server.probeArgs abs);
      ("ffmpeg", Server.loopArgs tmp1 tmp2);
      ("ffmpeg", compose) ] in
  wp (Server.createLoopedVideoWithAudio env fuel vin ain numLoops out fullHD)
    (fun _ w' =>
       (exists k, k `prefix_of` stages /\ spawns (trace w') = spawns (trace w) ++ k)
       /\ (forall content,
             accepted env vin ain numLoops (files w) = true ->
             valid_duration (probed env abs (files w)) = true ->
             Server.concat_loop fuel 0 numLoops (JS.replace_backslashes abs) ""
             = Some content ->
             writeFile_error env tmp1 = None ->
             command_failed (fst (loop_stage env vin content w)) = false ->
             spawns (trace w') = spawns (trace w) ++ stages)) w
  /\ values_of "-t" (output_options (options compose)) = [JS.toFixed 3 targetDuration]
  /\ (forall q,
        targetDuration = JS.Num q -> (0 <= q)%Q -> (q < inject_Z (10 ^ 21))%Q ->
        JS.toFixed 3 targetDuration = JS.fixed_digits 3 (JS.nearest_scaled 3 q)
        /\ (inject_Z (JS.nearest_scaled 3 q) - (1 # 2) <= q * 1000
            < inject_Z (JS.nearest_scaled 3 q) + (1 # 2))%Q)
  /\ map (fun case : string * JS.number =>
            JS.toFixed 3 (JS.mul (JS.parseFloat (JS.trim (case.1 +:+ Server.nl))) case.2))
       [ ("2.5", JS.ofZ 4); ("2.500000", JS.ofZ 4); ("1.000500", JS.ofZ 1);
         ("1.000500", JS.ofZ 7); ("2.002500", JS.ofZ 1); ("1.001000", JS.Num (1 # 2));
         ("0.100000", JS.ofZ 3) ]
     = [ "10.000"; "10.000"; "1.000"; "7.003"; "2.002"; "0.500"; "0.300" ]
  /\ spawns (trace (snd (Server.createLoopedVideoWithAudio Sample.happy 10
                           "/srv/app/uploads/v.mp4" "/srv/app/uploads/a.mp3"
                           (JS.ofZ 4) "out.mp4" false Sample.uploaded)))
     = [ ("ffprobe", Server.probeArgs "/srv/app/uploads/v.mp4");
         ("ffmpeg",
          Server.loopArgs "/srv/app/uploads/ffmpeg_concat_1700000000000.txt"
            "/srv/app/uploads/temp_looped_video_only_1700000000001.mp4");
         ("ffmpeg",
          [ "-y"; "-i"; "/srv/app/uploads/temp_looped_video_only_1700000000001.mp4";
            "-stream_loop"; "-1"; "-i"; "/srv/app/uploads/a.mp3";
            "-map"; "0:v:0"; "-map"; "1:a:0"; "-c:v"; "copy";
            "-c:a"; "aac"; "-b:a"; "192k"; "-t"; "10.000";
            "/srv/app/public/processed/out.mp4" ]) ].
Proof.
  intros abs tmp1 tmp2 targetDuration compose stages.
  split; [|split; [|split; [|split]]].
  - pose proof (job_trace env fuel vin ain numLoops out fullHD w) as H.
    pose proof (fun content Ha Hv Hl Hw Hs =>
                  job_reaches_compose env fuel vin ain numLoops out fullHD w content
                    Ha Hv Hl Hw Hs) as Hp.
    unfold wp in *. split; [exact (proj1 H)|].
    intros content Ha Hv Hl Hw Hs. exact (Hp content Ha Hv Hl Hw Hs).
  - apply compose_cap.
  - intros q -> H0 Hb. split; [by apply toFixed_nonneg | apply nearest_scaled_bounds].
  - vm_compute. reflexivity.
  - vm_compute. reflexivity.
Qed.

(** C3, as amended.  In [server.js] the compose stage gives the audio input
    the option [-stream_loop -1], caps the output with [-t] at the target
    duration written with three decimals, and does not pass [-shortest], for
    every job; it is started with these arguments whenever the loop stage
    has succeeded.  So a run of the encoder that honours these options
    leaves an output whose duration is the cap, whatever the audio holds.
    In [VideoLooper.js] the compose command line is its fixed text around the
    three quoted paths: it passes [-shortest] and neither [-stream_loop] nor
    [-t]. *)
Theorem server_compose_loops_audio_and_caps env fuel vin ain numLoops out fullHD w :
  let abs := path_resolve env [vin] in
  let audio := path_resolve env [ain] in
  let tmp1 := Server.tempConcatFilePath env (Date_now env (clock_reads w)) in
  let tmp2 := Server.tempLoopedVideoPath env (Date_now env (S (clock_reads w))) in
  let targetDuration := JS.mul (probed env abs (files w)) numLoops in
  let absOutputVideoPath := path_resolve env [OUTPUT_DIR env; out] in
  let compose := Server.combineArgs tmp2 audio fullHD targetDuration absOutputVideoPath in
  let stages :=
    [ ("ffprobe", Server.probeArgs abs);
      ("ffmpeg", Server.loopArgs tmp1 tmp2);
      ("ffmpeg", compose) ] in
  wp (Server.createLoopedVideoWithAudio env fuel vin ain numLoops out fullHD)
    (fun _ w' =>
       (exists k, k `prefix_of` stages /\ spawns (trace w') = spawns (trace w) ++ k)
       /\ (forall content,
             accepted env vin ain numLoops (files w) = true ->
             valid_duration (probed env abs (files w)) = true ->
             Server.concat_loop fuel 0 numLoops (JS.replace_backslashes abs) ""
             = Some content ->
             writeFile_error env tmp1 = None ->
             command_failed (fst (loop_stage env vin content w)) = false ->
             spawns (trace w') = spawns (trace w) ++ stages)) w
  /\ inputs (options compose) = [ (tmp2, [Flag "-y"]); (audio, [Opt "-stream_loop" "-1"]) ]
  /\ values_of "-t" (output_options (options compose)) = [JS.toFixed 3 targetDuration]
  /\ has_flag "-shortest" (options compose) = false
  /\ (forall duration after,
        honours_options duration compose after ->
        exists content,
          after !! absOutputVideoPath = Some content
          /\ duration content = JS.parseFloat (JS.toFixed 3 targetDuration))
  /\ (forall args fs,
        honours_options JS.parseFloat args (snd (spawn_child Cases.capping "ffmpeg" args fs)))
  /\ (forall held,
        files (snd (Server.createLoopedVideoWithAudio Cases.capping 10
                      "/srv/app/uploads/v.mp4" "/srv/app/uploads/a.mp3" (JS.ofZ 4)
                      "out.mp4" fullHD (Cases.uploaded_with held)))
          !! "/srv/app/public/processed/out.mp4"
        = Some "10.000")
  /\ wp (VideoLooper.createLoopedVideoWithAudio env fuel vin ain numLoops out)
       (fun _ w' =>
          exists k,
            k `prefix_of`
              [ VideoLooper.loopCommand (VideoLooper.tempConcatFilePath env)
                  (VideoLooper.tempLoopedVideoPath env);
                VideoLooper.combineCommand (VideoLooper.tempLoopedVideoPath env)
                  audio (path_resolve env [out]) ]
            /\ execs (trace w') = execs (trace w) ++ k) w
  /\ (forall a b c,
        VideoLooper.combineCommand a b c
        = script_compose_head +:+ dq +:+ a +:+ dq
            +:+ script_compose_between +:+ dq +:+ b +:+ dq
            +:+ script_compose_options +:+ dq +:+ c +:+ dq)
  /\ words script_compose_head = ["ffmpeg"; "-y"; "-i"]
  /\ words script_compose_between = ["-i"]
  /\ words script_compose_options
     = [ "-map"; "0:v:0"; "-map"; "1:a:0"; "-c:v"; "copy"; "-c:a"; "aac";
         "-b:a"; "192k"; "-shortest" ].
Proof.
  intros abs audio tmp1 tmp2 targetDuration absOutputVideoPath compose stages.
  split; [|split; [|split; [|split; [|split; [|split; [|split; [|split]]]]]]].
  - pose proof (job_trace env fuel vin ain numLoops out fullHD w) as H.
    pose proof (fun content Ha Hv Hl Hw Hs =>
                  job_reaches_compose env fuel vin ain numLoops out fullHD w content
                    Ha Hv Hl Hw Hs) as Hp.
    unfold wp in *. split; [exact (proj1 H)|].
    intros content Ha Hv Hl Hw Hs. exact (Hp content Ha Hv Hl Hw Hs).
  - apply compose_inputs.
  - apply compose_cap.
  - apply compose_flags.
  - intros duration after Hh.
    apply (Hh audio (JS.toFixed 3 targetDuration) absOutputVideoPath).
    + subst compose. rewrite compose_inputs. right; left. reflexivity.
    + apply compose_cap.
    + apply compose_flags.
    + apply compose_output.
  - intros args fs looped t o _ Ht _ Ho.
    cbn [Cases.capping spawn_child Sample.is_probe]. 
    change (Sample.is_probe "ffmpeg") with false. cbn [snd].
    unfold Cases.capped. rewrite Ho, Ht.
    exists t. split; [apply lookup_insert_eq | reflexivity].
  - intros held. destruct fullHD; vm_compute; reflexivity.
  - pose proof (script_trace env fuel vin ain numLoops out w) as H.
    unfold wp in *. exact (proj2 H).
  - repeat split.
Qed.

(** C3 fails on [VideoLooper.js]: the compose line of a run has [-shortest]
    and neither an audio loop nor a duration cap. *)
Lemma script_compose_neither_loops_nor_caps :
  let line := VideoLooper.combineCommand "/srv/app/temp_looped_video_only.mp4"
                "/srv/app/uploads/a.mp3" "/srv/app/out.mp4" in
  execs (trace (snd (VideoLooper.createLoopedVideoWithAudio Sample.happy 10
                       "/srv/app/uploads/v.mp4" "/srv/app/uploads/a.mp3"
                       (JS.ofZ 2) "out.mp4" Sample.uploaded)))
  = [ VideoLooper.loopCommand "/srv/app/ffmpeg_concat_list.txt"
        "/srv/app/temp_looped_video_only.mp4";
      line ]
  /\ occurs "-stream_loop" line = false
  /\ occurs " -t " line = false
  /\ occurs "-shortest" line = true.
Proof. vm_compute. repeat split; reflexivity. Qed.

(** C4, as amended.  A request with loop count 0, -5 or 1001 is answered
    with status 400 and the loop-count message before any child process is
    started: what the handler does is look for the two uploads of the
    request and delete those it finds, with a warning for a deletion that
    fails, and nothing else; no file is written, no child is started, the
    clock is not read.  Called directly with a count that is zero or
    negative, the job throws [Number of loops must be a positive integer.]
    having only looked for its two inputs; whichever check stops it, it
    starts no child and leaves every file as it is.  The job has no upper
    bound: 1001 gets past its checks, and the manifest of 1001 lines is
    written once the probe has succeeded. *)
Theorem invalid_loop_counts_rejected env fuel v a hd w :
  let req s :=
    {| Server.videoFile := Some v; Server.audioFile := Some a;
       Server.body_numLoops := Some s; Server.body_fullHD := hd |} in
  let rejected (r : outcome Server.response) (w' : world) :=
    r = Ret rejection
    /\ w' = discarded env (Server.path a)
              "Cleanup failed for audio upload on invalid loops"
              (discarded env (Server.path v)
                 "Cleanup failed for video upload on invalid loops" w) in
  wp (Server.process_video env fuel (req "0")) rejected w
  /\ wp (Server.process_video env fuel (req "-5")) rejected w
  /\ wp (Server.process_video env fuel (req "1001")) rejected w
  /\ (forall p msg w0,
        let w1 := discarded env p msg w0 in
        spawns (trace w1) = spawns (trace w0)
        /\ execs (trace w1) = execs (trace w0)
        /\ writes (trace w1) = writes (trace w0)
        /\ clock_reads w1 = clock_reads w0
        /\ (forall q, q <> p -> files w1 !! q = files w0 !! q)
        /\ (files w1 !! p = None
            \/ (unlink_error env p <> None /\ files w1 = files w0
                /\ In (Warn msg) (trace w1))))
  /\ (forall vin ain out fullHD n,
        n <= 0 ->
        wp (Server.createLoopedVideoWithAudio env fuel vin ain (JS.ofZ n) out fullHD)
          (fun r w' =>
             (exists e, r = Throw e) /\ files w' = files w
             /\ spawns (trace w') = spawns (trace w)
             /\ writes (trace w') = writes (trace w)
             /\ (is_Some (files w !! path_resolve env [vin]) ->
                 is_Some (files w !! path_resolve env [ain]) ->
                 r = Throw (newError "Number of loops must be a positive integer.")
                 /\ w' = record (Access (path_resolve env [ain]))
                           (record (Access (path_resolve env [vin])) w))) w)
  /\ (forall vin ain out fullHD,
        (1001 < fuel)%nat ->
        accepted env vin ain (JS.ofZ 1001) (files w)
        = bool_decide (is_Some (files w !! path_resolve env [vin]))
          && bool_decide (is_Some (files w !! path_resolve env [ain]))
        /\ wp (Server.createLoopedVideoWithAudio env fuel vin ain (JS.ofZ 1001) out fullHD)
             (fun _ w' =>
                accepted env vin ain (JS.ofZ 1001) (files w) = true ->
                valid_duration (probed env (path_resolve env [vin]) (files w)) = true ->
                writes (trace w')
                = writes (trace w)
                    ++ [ (Server.tempConcatFilePath env (Date_now env (clock_reads w)),
                          manifest
                            (repeat
                               (directive (JS.replace_backslashes (path_resolve env [vin])))
                               1001)) ]) w).
Proof.
  intros req rejected.
  assert (R : forall s,
    JS.isNaN (JS.parseInt s) || JS.lt (JS.parseInt s) (JS.ofZ 1)
      || JS.lt (JS.ofZ 1000) (JS.parseInt s) = true ->
    wp (Server.process_video env fuel (req s)) rejected w).
  { intros s Hs. exact (route_refused_exact env fuel v a (Some s) hd w Hs). }
  split; [apply R; reflexivity|].
  split; [apply R; reflexivity|].
  split; [apply R; reflexivity|].
  split; [|split].
  - intros p msg w0 w1. subst w1.
    unfold discarded, discard_events, removal_files.
    cbn [trace files clock_reads].
    destruct (files w0 !! p) as [x|] eqn:E; [destruct (unlink_error env p) as [reason|] eqn:U|].
    + autorewrite with trace. rewrite !app_nil_r.
      repeat split; try reflexivity. right.
      repeat split; [discriminate|]. apply in_or_app. right. cbn. tauto.
    + autorewrite with trace. rewrite !app_nil_r.
      repeat split; try reflexivity.
      * intros q Hq. by apply lookup_delete_ne.
      * left. apply lookup_delete_eq.
    + autorewrite with trace. rewrite !app_nil_r.
      repeat split; try reflexivity. by left.
  - intros vin ain out fullHD n Hn.
    assert (Hle : JS.le (JS.ofZ n) (JS.ofZ 0) = true).
    { unfold JS.le, JS.ofZ. apply Qle_bool_iff. rewrite <- Zle_Qle. exact Hn. }
    pose proof (job_cleanup env fuel vin ain (JS.ofZ n) out fullHD w) as H.
    pose proof (fun Hv Ha => job_refused env fuel vin ain (JS.ofZ n) out fullHD w Hle Hv Ha)
      as Hr.
    unfold wp, accepted in *. rewrite Hle, andb_false_r in H.
    destruct H as (He & Hf & Hs & Hw).
    split; [exact He|]. split; [exact Hf|]. split; [exact Hs|]. split; [exact Hw|].
    intros Hv Ha. exact (Hr Hv Ha).
  - intros vin ain out fullHD Hf. split.
    + unfold accepted. change (JS.le (JS.ofZ 1001) (JS.ofZ 0)) with false.
      by rewrite andb_true_r.
    + assert (Hloop : Server.concat_loop fuel 0 (JS.ofZ 1001)
                        (JS.replace_backslashes (path_resolve env [vin])) ""
                      = Some (manifest
                                (repeat
                                   (directive
                                      (JS.replace_backslashes (path_resolve env [vin])))
                                   1001))).
      { change 1001%nat with (Z.to_nat 1001). apply concat_loop_integer; [lia|].
        change (Z.to_nat 1001) with 1001%nat. exact Hf. }
      pose proof (fun Ha Hv =>
                    job_progress env fuel vin ain (JS.ofZ 1001) out fullHD w _ Ha Hv Hloop)
        as Hp.
      unfold wp in *. intros Ha Hv. exact (proj1 (Hp Ha Hv)).
Qed.

(** C4 fails.  The rejection by the handler is not without effect: it
    deletes the two uploads.  And the job itself, called with 1001, is not
    stopped: it starts its three children and succeeds. *)
Lemma rejection_deletes_uploads_and_job_takes_1001 :
  (let run := Server.process_video Sample.happy 10 (Cases.request "0" None)
                Sample.uploaded in
   fst run = Ret rejection
   /\ files Sample.uploaded !! "/srv/app/uploads/v.mp4" = Some "video"
   /\ files (snd run) !! "/srv/app/uploads/v.mp4" = None
   /\ files (snd run) !! "/srv/app/uploads/a.mp3" = None
   /\ trace (snd run)
      = [ ExistsSync "/srv/app/uploads/v.mp4" true; Unlink "/srv/app/uploads/v.mp4";
          ExistsSync "/srv/app/uploads/a.mp3" true; Unlink "/srv/app/uploads/a.mp3" ])
  /\ (let run := Server.createLoopedVideoWithAudio Sample.happy 1100
                   "/srv/app/uploads/v.mp4" "/srv/app/uploads/a.mp3" (JS.ofZ 1001)
                   "out.mp4" false Sample.uploaded in
      fst run = Ret {| Server.success := true;
                       Server.outputPath := "/srv/app/public/processed/out.mp4";
                       Server.outputFileName := "out.mp4" |}
      /\ map fst (spawns (trace (snd run))) = ["ffprobe"; "ffmpeg"; "ffmpeg"]
      /\ map (fun c => values_of "-t" (options (snd c))) (spawns (trace (snd run)))
         = [ []; []; ["2502.500"] ]).
Proof. vm_compute. repeat split; reflexivity. Qed.

(** C5, as amended.  A job of [server.js] whose checks fail touches no file.
    Past the checks, on every way out (return or throw), each of the two
    temporary files is either absent at the end or its deletion failed and
    a warning with the reason was printed; with no failing deletion both are
    absent.  Every deletion comes right after an existence check of the
    same file that answered yes.  Which deletions fail never changes what
    the job returns or throws.  The job of [VideoLooper.js] ends, past its
    checks, with the two deletions made without an existence check: a file
    that is not there is a warning too; there as well each file is absent at
    the end or a warning was printed, and the result does not depend on the
    failing deletions. *)
Theorem temporaries_removed_on_every_exit env fuel vin ain numLoops out fullHD w :
  let tmp1 := Server.tempConcatFilePath env (Date_now env (clock_reads w)) in
  let tmp2 := Server.tempLoopedVideoPath env (Date_now env (S (clock_reads w))) in
  wp (Server.createLoopedVideoWithAudio env fuel vin ain numLoops out fullHD)
    (fun r w' =>
       if accepted env vin ain numLoops (files w) then
         r <> Hang ->
         (forall p, p = tmp1 \/ p = tmp2 ->
            files w' !! p = None
            \/ exists msg, unlink_error env p = Some msg
                 /\ In (removal_warning p msg) (trace w'))
         /\ (unlink_error env tmp1 = None -> unlink_error env tmp2 = None ->
             files w' !! tmp1 = None /\ files w' !! tmp2 = None)
         /\ exists evs, trace w' = trace w ++ evs /\ unlinks_checked evs = true
       else (exists e, r = Throw e) /\ files w' = files w) w
  /\ (forall f,
        fst (Server.createLoopedVideoWithAudio (with_unlink_error f env) fuel
               vin ain numLoops out fullHD w)
        = fst (Server.createLoopedVideoWithAudio env fuel vin ain numLoops out fullHD w))
  /\ wp (VideoLooper.createLoopedVideoWithAudio env fuel vin ain numLoops out)
       (fun r w' =>
          if accepted env vin ain numLoops (files w) then
            r <> Hang ->
            (exists w1,
               w' = script_remove env "looped video" (VideoLooper.tempLoopedVideoPath env)
                      (script_remove env "concat" (VideoLooper.tempConcatFilePath env) w1))
            /\ (files w' !! VideoLooper.tempConcatFilePath env = None
                \/ exists msg,
                     In (script_warning "concat" (VideoLooper.tempConcatFilePath env) msg)
                        (trace w'))
            /\ (files w' !! VideoLooper.tempLoopedVideoPath env = None
                \/ exists msg,
                     In (script_warning "looped video"
                           (VideoLooper.tempLoopedVideoPath env) msg)
                        (trace w'))
          else r = Ret false /\ files w' = files w) w
  /\ (forall f,
        fst (VideoLooper.createLoopedVideoWithAudio (with_unlink_error f env) fuel
               vin ain numLoops out w)
        = fst (VideoLooper.createLoopedVideoWithAudio env fuel vin ain numLoops out w)).
Proof.
  intros tmp1 tmp2.
  split; [|split; [|split]].
  - pose proof (job_cleanup env fuel vin ain numLoops out fullHD w) as H.
    unfold wp in *.
    destruct (accepted env vin ain numLoops (files w)); [|tauto].
    intros Hr. destruct (H Hr) as (w1 & evs1 & Ht & Hc & ->). clear H.
    fold tmp1 tmp2.
    assert (G1 : files (remove_temp env tmp2 (remove_temp env tmp1 w1)) !! tmp1 = None
                 \/ exists msg, unlink_error env tmp1 = Some msg
                      /\ In (removal_warning tmp1 msg)
                           (trace (remove_temp env tmp2 (remove_temp env tmp1 w1)))).
    { cbn [remove_temp files trace].
      destruct (removal_files_gone env tmp1 (files w1)) as [Hg|(msg & Hm & Hi)].
      - left. by apply removal_files_None.
      - right. exists msg. split; [exact Hm|].
        apply in_or_app. left. apply in_or_app. by right. }
    assert (G2 : files (remove_temp env tmp2 (remove_temp env tmp1 w1)) !! tmp2 = None
                 \/ exists msg, unlink_error env tmp2 = Some msg
                      /\ In (removal_warning tmp2 msg)
                           (trace (remove_temp env tmp2 (remove_temp env tmp1 w1)))).
    { cbn [remove_temp files trace].
      destruct (removal_files_gone env tmp2 (removal_files env tmp1 (files w1)))
        as [Hg|(msg & Hm & Hi)].
      - by left.
      - right. exists msg. split; [exact Hm|]. apply in_or_app. by right. }
    split; [|split].
    + intros p [->| ->]; assumption.
    + intros U1 U2. split.
      * destruct G1 as [?|(msg & Hm & _)]; [assumption | congruence].
      * destruct G2 as [?|(msg & Hm & _)]; [assumption | congruence].
    + exists (evs1 ++ removal_events env tmp1 (files w1)
                ++ removal_events env tmp2 (removal_files env tmp1 (files w1))).
      split.
      * cbn [remove_temp trace files]. rewrite Ht. by rewrite <- !app_assoc.
      * apply unlinks_checked_app; [exact Hc|].
        apply unlinks_checked_app; apply removal_checked.
  - intros f. apply job_outcome_unlink.
  - pose proof (script_cleanup env fuel vin ain numLoops out w) as H.
    unfold wp in *.
    destruct (accepted env vin ain numLoops (files w)); [|exact H].
    intros Hr. destruct (H Hr) as (w1 & ->). clear H.
    split; [by eexists|]. split.
    + destruct (script_remove_gone env "concat" (VideoLooper.tempConcatFilePath env) w1)
        as [Hg|(msg & Hi)].
      * left. by apply script_remove_None.
      * right. exists msg. by apply script_remove_In.
    + apply script_remove_gone.
  - intros f. apply script_outcome_unlink.
Qed.

(** C5 fails.  In [server.js], when the deletions are refused, a job that
    succeeds ends with both temporary files still there (and two warnings).
    In [VideoLooper.js], a run whose loop stage leaves no intermediate file
    deletes without checking, and warns about the file that is not there. *)
Lemma temporaries_left_or_deleted_unchecked :
  (let run := Server.createLoopedVideoWithAudio Sample.stuck_files 10
                "/srv/app/uploads/v.mp4" "/srv/app/uploads/a.mp3"
                (JS.ofZ 2) "out.mp4" false Sample.uploaded in
   (exists res, fst run = Ret res)
   /\ files (snd run) !! "/srv/app/uploads/ffmpeg_concat_1700000000000.txt"
      = Some (manifest (repeat (directive "/srv/app/uploads/v.mp4") 2))
   /\ files (snd run) !! "/srv/app/uploads/temp_looped_video_only_1700000000001.mp4"
      = Some "media"
   /\ warnings (trace (snd run))
      = [ "Warning: Could not remove temporary file: /srv/app/uploads/ffmpeg_concat_1700000000000.txt (EPERM: operation not permitted)";
          "Warning: Could not remove temporary file: /srv/app/uploads/temp_looped_video_only_1700000000001.mp4 (EPERM: operation not permitted)" ])
  /\ (let w' := snd (VideoLooper.createLoopedVideoWithAudio Sample.happy 10
                       "/srv/app/uploads/v.mp4" "/srv/app/uploads/a.mp3"
                       (JS.ofZ 2) "out.mp4" Sample.uploaded) in
      unlinks_checked (trace w') = false
      /\ trace w'
         = [ Access "/srv/app/uploads/v.mp4";
             Access "/srv/app/uploads/a.mp3";
             WriteFile "/srv/app/ffmpeg_concat_list.txt"
               (manifest (repeat (directive "/srv/app/uploads/v.mp4") 2));
             Exec (VideoLooper.loopCommand "/srv/app/ffmpeg_concat_list.txt"
                     "/srv/app/temp_looped_video_only.mp4");
             Exec (VideoLooper.combineCommand "/srv/app/temp_looped_video_only.mp4"
                     "/srv/app/uploads/a.mp3" "/srv/app/out.mp4");
             Unlink "/srv/app/ffmpeg_concat_list.txt";
             Unlink "/srv/app/temp_looped_video_only.mp4";
             script_warning "looped video" "/srv/app/temp_looped_video_only.mp4"
               "ENOENT: no such file or directory, unlink '/srv/app/temp_looped_video_only.mp4'" ]).
Proof.
  split.
  - vm_compute. split; [by eexists|]. repeat split; reflexivity.
  - vm_compute. split; reflexivity.
Qed.

(** C6, as amended.  Every child process of [server.js], whether started
    by the job or by the request handler around it, is started by [spawn]
    from a tool name and a vector of arguments: the probe, the loop stage
    and the compose stage, in this order; none is started from a shell
    command line.  [VideoLooper.js] starts its two children through [exec],
    each from one command line, and none through [spawn]. *)
Theorem server_children_have_argument_vectors env fuel vin ain numLoops out fullHD req w :
  wp (Server.createLoopedVideoWithAudio env fuel vin ain numLoops out fullHD)
    (fun _ w' =>
       (exists k, k `prefix_of` children_of env vin ain numLoops out fullHD w
                  /\ spawns (trace w') = spawns (trace w) ++ k)
       /\ execs (trace w') = execs (trace w)) w
  /\ wp (Server.process_video env fuel req)
       (fun _ w' =>
          execs (trace w') = execs (trace w)
          /\ exists k, spawns (trace w') = spawns (trace w) ++ k
               /\ (k = []
                   \/ exists vin' ain' numLoops' out' hd w0,
                        k `prefix_of` children_of env vin' ain' numLoops' out' hd w0)) w
  /\ wp (VideoLooper.createLoopedVideoWithAudio env fuel vin ain numLoops out)
       (fun _ w' =>
          spawns (trace w') = spawns (trace w)
          /\ exists k,
               k `prefix_of`
                 [ VideoLooper.loopCommand (VideoLooper.tempConcatFilePath env)
                     (VideoLooper.tempLoopedVideoPath env);
                   VideoLooper.combineCommand (VideoLooper.tempLoopedVideoPath env)
                     (path_resolve env [ain]) (path_resolve env [out]) ]
               /\ execs (trace w') = execs (trace w) ++ k) w.
Proof.
  split; [apply job_trace|]. split; [apply route_trace | apply script_trace].
Qed.

(** C6 fails on [VideoLooper.js]: both children of a run are started from
    a shell command line. *)
Lemma script_children_are_shell_lines :
  let w' := snd (VideoLooper.createLoopedVideoWithAudio Sample.happy 10
                   "/srv/app/uploads/v.mp4" "/srv/app/uploads/a.mp3"
                   (JS.ofZ 2) "out.mp4" Sample.uploaded) in
  spawns (trace w') = []
  /\ execs (trace w')
     = [ "ffmpeg -y -f concat -safe 0 -i " +:+ dq +:+ "/srv/app/ffmpeg_concat_list.txt" +:+ dq
           +:+ " -an -c:v copy " +:+ dq +:+ "/srv/app/temp_looped_video_only.mp4" +:+ dq;
         "ffmpeg -y -i " +:+ dq +:+ "/srv/app/temp_looped_video_only.mp4" +:+ dq
           +:+ " -i " +:+ dq +:+ "/srv/app/uploads/a.mp3" +:+ dq
           +:+ " -map 0:v:0 -map 1:a:0 -c:v copy -c:a aac -b:a 192k -shortest "
           +:+ dq +:+ "/srv/app/out.mp4" +:+ dq ].
Proof. vm_compute. split; reflexivity. Qed.

(** C7. The compose stage of a job is started with [combineArgs] at the
    job's [fullHD] flag: it is the third child the job starts, and the job
    starts it whenever the manifest is written and the loop stage ends with
    code 0.  With the flag set, its output options select the video codec
    [libx264], the filter [scale=1920:1080], preset [medium] and CRF 23, and
    [copy] is not the video codec; with the flag clear the video codec is
    [copy] and there is no [-vf] option.  The audio is encoded to AAC at
    192k either way.  A run with the flag set and one with the flag clear
    show the two compose calls. *)
Theorem fullHD_rescales_and_preserve_copies env fuel vin ain numLoops out fullHD w
    tmp audio d outp :
  let abs := path_resolve env [vin] in
  let tmp1 := Server.tempConcatFilePath env (Date_now env (clock_reads w)) in
  let tmp2 := Server.tempLoopedVideoPath env (Date_now env (S (clock_reads w))) in
  let compose :=
    Server.combineArgs tmp2 (path_resolve env [ain]) fullHD
      (JS.mul (probed env abs (files w)) numLoops)
      (path_resolve env [OUTPUT_DIR env; out]) in
  let stages :=
    [ ("ffprobe", Server.probeArgs abs);
      ("ffmpeg", Server.loopArgs tmp1 tmp2);
      ("ffmpeg", compose) ] in
  let run hd :=
    Server.createLoopedVideoWithAudio Sample.happy 10
      "/srv/app/uploads/v.mp4" "/srv/app/uploads/a.mp3" (JS.ofZ 4) "out.mp4" hd
      Sample.uploaded in
  let video_options (c : string * list string) :=
    let opts := output_options (options (snd c)) in
    (values_of "-c:v" opts, values_of "-vf" opts, values_of "-preset" opts,
     values_of "-crf" opts) in
  wp (Server.createLoopedVideoWithAudio env fuel vin ain numLoops out fullHD)
    (fun _ w' =>
       (exists k, k `prefix_of` stages /\ spawns (trace w') = spawns (trace w) ++ k)
       /\ (forall content,
             accepted env vin ain numLoops (files w) = true ->
             valid_duration (probed env abs (files w)) = true ->
             Server.concat_loop fuel 0 numLoops (JS.replace_backslashes abs) ""
             = Some content ->
             writeFile_error env tmp1 = None ->
             command_failed (fst (loop_stage env vin content w)) = false ->
             spawns (trace w') = spawns (trace w) ++ stages)) w
  /\ (let opts := output_options (options compose) in
      values_of "-c:v" opts = [if fullHD then "libx264" else "copy"]
      /\ values_of "-vf" opts = (if fullHD then ["scale=1920:1080"] else [])
      /\ values_of "-preset" opts = (if fullHD then ["medium"] else [])
      /\ values_of "-crf" opts = (if fullHD then ["23"] else [])
      /\ values_of "-c:a" opts = ["aac"]
      /\ values_of "-b:a" opts = ["192k"])
  /\ (let hd := output_options (options (Server.combineArgs tmp audio true d outp)) in
      values_of "-c:v" hd = ["libx264"]
      /\ ~ In "copy" (values_of "-c:v" hd)
      /\ values_of "-vf" hd = ["scale=1920:1080"]
      /\ values_of "-preset" hd = ["medium"]
      /\ values_of "-crf" hd = ["23"]
      /\ values_of "-c:a" hd = ["aac"]
      /\ values_of "-b:a" hd = ["192k"])
  /\ (let keep := output_options (options (Server.combineArgs tmp audio false d outp)) in
      values_of "-c:v" keep = ["copy"]
      /\ values_of "-vf" keep = []
      /\ values_of "-c:a" keep = ["aac"]
      /\ values_of "-b:a" keep = ["192k"])
  /\ map video_options (drop 2 (spawns (trace (snd (run true)))))
     = [ (["libx264"], ["scale=1920:1080"], ["medium"], ["23"]) ]
  /\ map video_options (drop 2 (spawns (trace (snd (run false)))))
     = [ (["copy"], [], [], []) ]
  /\ map (fun hd => fst (run hd)) [true; false]
     = repeat (Ret {| Server.success := true;
                      Server.outputPath := "/srv/app/public/processed/out.mp4";
                      Server.outputFileName := "out.mp4" |}) 2.
Proof.
  intros abs tmp1 tmp2 compose stages run video_options.
  split; [|split; [|split; [|split; [|split; [|split]]]]].
  - pose proof (job_trace env fuel vin ain numLoops out fullHD w) as H.
    pose proof (fun content Ha Hv Hl Hw Hs =>
                  job_reaches_compose env fuel vin ain numLoops out fullHD w content
                    Ha Hv Hl Hw Hs) as Hp.
    unfold wp in *. split; [exact (proj1 H)|].
    intros content Ha Hv Hl Hw Hs. exact (Hp content Ha Hv Hl Hw Hs).
  - apply compose_video.
  - destruct (compose_video tmp audio d outp true) as (H1 & H2 & H3 & H4 & H5 & H6).
    cbv zeta. rewrite H1, H2, H3, H4, H5, H6. repeat split.
    intros [E|[]]. discriminate.
  - destruct (compose_video tmp audio d outp false) as (H1 & H2 & H3 & H4 & H5 & H6).
    cbv zeta. rewrite H1, H2, H5, H6. repeat split.
  - vm_compute. reflexivity.
  - vm_compute. reflexivity.
  - vm_compute. reflexivity.
Qed.

(** *** Names *)

Section Names.











End Names.








(* ===================================================================== *)
(** ** Further lemmas                                                     *)
(* ===================================================================== *)

(** *** The handler, case by case *)

Section RouteRun.

Context (env : Env) (fuel : nat).

Lemma remove_upload_run p w :
  Server.unlink_if_exists env p w
  = (match fst (remove_upload env p w) with
     | Some msg => Throw (newError msg)
     | None => Ret tt
     end, snd (remove_upload env p w)).
Proof.
  unfold Server.unlink_if_exists, remove_upload, bind, existsSync, fs_unlink, ret.
  cbn [files record set_files].
  destruct (files w !! p) eqn:E; cbn [bool_decide decide_rel]; simpl.
  - rewrite E. destruct (unlink_error env p); reflexivity.
  - reflexivity.
Qed.

Lemma route_finally_run pv pa w :
  try_catch
    (Server.unlink_if_exists env pv >> Server.unlink_if_exists env pa)
    (fun e =>
       console_warn
         ("Warning: Could not delete one or more uploaded files post-processing: "
            +:+ message e)) w
  = (Ret tt, uploads_removed env pv pa w).
Proof.
  unfold try_catch, bind, uploads_removed. rewrite remove_upload_run.
  destruct (remove_upload env pv w) as [[msg|] w1]; cbn [fst snd]; [reflexivity|].
  rewrite remove_upload_run.
  destruct (remove_upload env pa w1) as [[msg|] w2]; reflexivity.
Qed.

Lemma route_accepted_run v a body hd w :
  loops_refused (loops_of body) = false ->
  Server.process_video env fuel
    {| Server.videoFile := Some v; Server.audioFile := Some a;
       Server.body_numLoops := body; Server.body_fullHD := hd |} w
  = let name :=
      Server.outputFileName_of env (Server.originalname v) (Date_now env (clock_reads w)) in
    match Server.createLoopedVideoWithAudio env fuel (Server.path v) (Server.path a)
            (loops_of body) name (fullHD_of hd) (tick w) with
    | (Ret _, w1) =>
        (Ret (processed name), uploads_removed env (Server.path v) (Server.path a) w1)
    | (Throw e, w1) =>
        (Ret (failure (Server.clientErrorMessage e)),
         uploads_removed env (Server.path v) (Server.path a) w1)
    | (Hang, w1) => (Hang, w1)
    end.
Proof.
  intros H. unfold loops_refused, loops_of in H.
  unfold Server.process_video.
  cbn [Server.videoFile Server.audioFile Server.body_numLoops Server.body_fullHD].
  rewrite H. unfold bind at 1, now. cbv beta iota zeta.
  unfold try_finally. unfold try_catch at 1. unfold bind at 1.
  fold (tick w). fold (loops_of body). fold (fullHD_of hd).
  destruct (Server.createLoopedVideoWithAudio env fuel (Server.path v) (Server.path a)
              (loops_of body) _ (fullHD_of hd) (tick w)) as [[res|e|] w1];
    cbn [ret]; rewrite ?route_finally_run; reflexivity.
Qed.

Lemma route_missing_run req w :
  Server.videoFile req = None \/ Server.audioFile req = None ->
  wp (Server.process_video env fuel req)
    (fun r w' =>
       r = Ret missing_files /\ quiet w w'
       /\ forall f,
            Server.videoFile req = Some f \/ Server.audioFile req = Some f ->
            unlink_error env (Server.path f) = None ->
            files w' !! Server.path f = None) w.
Proof.
  intros Hm. destruct req as [[v|] [a|] body hd];
    cbn [Server.videoFile Server.audioFile] in Hm;
    [destruct Hm; discriminate|..];
    unfold Server.process_video, Server.unlink_if_exists_or_warn, quiet;
    cbn [Server.videoFile Server.audioFile];
    wp_run; trace_simpl; rewrite ?app_nil_r.
  all: (split; [reflexivity|]).
  all: (split; [repeat split; first [reflexivity | apply delete_subseteq]|]).
  all: intros f [[= <-]|[= <-]] Hu; try congruence.
  all: first [assumption | apply lookup_delete_eq].
Qed.

Lemma route_refused_run v a body hd w :
  loops_refused (loops_of body) = true ->
  wp (Server.process_video env fuel
        {| Server.videoFile := Some v; Server.audioFile := Some a;
           Server.body_numLoops := body; Server.body_fullHD := hd |})
    (fun r w' => r = Ret rejection /\ quiet w w') w.
Proof.
  intros H. pose proof (route_rejects env fuel v a body hd w H) as R.
  unfold wp, quiet in *. tauto.
Qed.

(** The three ways through the handler. *)
Lemma route_inv req :
  (Server.videoFile req = None \/ Server.audioFile req = None)
  \/ exists v a,
       req = {| Server.videoFile := Some v; Server.audioFile := Some a;
                Server.body_numLoops := Server.body_numLoops req;
                Server.body_fullHD := Server.body_fullHD req |}.
Proof.
  destruct req as [[v|] [a|] body hd]; cbn; eauto.
Qed.

End RouteRun.

(** *** The loop count of a request *)

Section LoopCount.

(** [parseInt] gives no number, an integer, or an infinity for a text with
    more than 308 digits. *)
Lemma parseInt_cases s :
  JS.parseInt s = JS.NaN \/ (exists n, JS.parseInt s = JS.ofZ n)
  \/ JS.parseInt s = JS.Infinity \/ JS.parseInt s = JS.NegInfinity.
Proof.
  unfold JS.parseInt. destruct (JS.take_sign (JS.trimStart s)) as [sg r].
  set (choice := match r with String _ _ => _ | EmptyString => _ end).
  destruct choice as [[radix digit] body].
  destruct (fst (JS.take_digits digit body)) as [|c ds]; [by left|right].
  destruct (of_integer_cases (sg * JS.digits_value radix (c :: ds)))
    as [[_ ->]|[[_ [->|(v & -> & _)]]|[_ [->|(v & -> & _)]]]]; eauto.
Qed.

Lemma lt_ofZ a b : JS.lt (JS.ofZ a) (JS.ofZ b) = (a <? b).
Proof. unfold JS.ofZ at 2. by rewrite lt_ofZ_Num, Qceiling_Z. Qed.

Lemma le_ofZ a b : JS.le (JS.ofZ a) (JS.ofZ b) = (a <=? b).
Proof.
  unfold JS.le, JS.ofZ. destruct (a <=? b) eqn:E.
  - apply Qle_bool_iff. rewrite <- Zle_Qle. by apply Z.leb_le.
  - destruct (Qle_bool (inject_Z a) (inject_Z b)) eqn:Q; [|reflexivity].
    apply Qle_bool_iff in Q. rewrite <- Zle_Qle in Q. apply Z.leb_gt in E. lia.
Qed.

(** The handler lets through the texts that [parseInt] reads as an
    integer from 1 to 1000, and no other. *)
Lemma loops_refused_false body :
  loops_refused (loops_of body) = false
  <-> exists n, loops_of body = JS.ofZ n /\ 1 <= n <= 1000.
Proof.
  unfold loops_refused, loops_of. split.
  - destruct (parseInt_cases (match body with Some s => s | None => "undefined" end))
      as [E|[[n E]|[E|E]]]; rewrite E; [discriminate| |discriminate..].
    rewrite !lt_ofZ. cbn [JS.isNaN JS.ofZ orb]. rewrite orb_false_iff.
    intros [H1 H2]. exists n. split; [reflexivity|]. lia.
  - intros (n & -> & Hn). rewrite !lt_ofZ. cbn [JS.isNaN JS.ofZ orb].
    apply orb_false_iff. split; lia.
Qed.

End LoopCount.

(** *** The uploads after the handler *)

Section Uploads.

Context (env : Env).

Lemma remove_upload_trace p w :
  exists evs,
    trace (snd (remove_upload env p w)) = trace w ++ evs
    /\ spawns evs = [] /\ execs evs = [] /\ writes evs = [] /\ warnings evs = []
    /\ clock_reads (snd (remove_upload env p w)) = clock_reads w
    /\ files (snd (remove_upload env p w)) ⊆ files w.
Proof.
  unfold remove_upload.
  destruct (files w !! p); [destruct (unlink_error env p)|];
    cbn [snd trace record set_files clock_reads files]; rewrite <- ?app_assoc; cbn [app];
    eexists; (split; [reflexivity|]); repeat split;
    first [reflexivity | apply delete_subseteq].
Qed.

Lemma uploads_removed_trace pv pa w :
  exists evs,
    trace (uploads_removed env pv pa w) = trace w ++ evs
    /\ spawns evs = [] /\ execs evs = [] /\ writes evs = []
    /\ clock_reads (uploads_removed env pv pa w) = clock_reads w
    /\ files (uploads_removed env pv pa w) ⊆ files w.
Proof.
  unfold uploads_removed.
  destruct (remove_upload_trace pv w) as (e1 & T1 & S1 & E1 & W1 & _ & C1 & F1).
  destruct (remove_upload env pv w) as [[msg|] w1]; cbn [snd] in *.
  - cbn [trace record clock_reads files]. rewrite T1, <- app_assoc.
    eexists; (split; [reflexivity|]).
    rewrite spawns_app, execs_app, writes_app, S1, E1, W1. by repeat split.
  - destruct (remove_upload_trace pa w1) as (e2 & T2 & S2 & E2 & W2 & _ & C2 & F2).
    destruct (remove_upload env pa w1) as [[msg|] w2]; cbn [snd] in *;
      cbn [trace record clock_reads files]; rewrite T2, T1, <- ?app_assoc;
      (eexists; (split; [reflexivity|]));
      rewrite ?spawns_app, ?execs_app, ?writes_app, S1, E1, W1, S2, E2, W2;
      repeat split; try congruence; by etrans.
Qed.

Lemma spawns_uploads_removed pv pa w :
  spawns (trace (uploads_removed env pv pa w)) = spawns (trace w).
Proof.
  destruct (uploads_removed_trace pv pa w) as (evs & -> & H & _).
  by rewrite spawns_app, H, app_nil_r.
Qed.

Lemma execs_uploads_removed pv pa w :
  execs (trace (uploads_removed env pv pa w)) = execs (trace w).
Proof.
  destruct (uploads_removed_trace pv pa w) as (evs & -> & _ & H & _).
  by rewrite execs_app, H, app_nil_r.
Qed.

Lemma writes_uploads_removed pv pa w :
  writes (trace (uploads_removed env pv pa w)) = writes (trace w).
Proof.
  destruct (uploads_removed_trace pv pa w) as (evs & -> & _ & _ & H & _).
  by rewrite writes_app, H, app_nil_r.
Qed.

(** With no failing deletion both uploads are gone. *)
Lemma uploads_removed_gone pv pa w :
  unlink_error env pv = None -> unlink_error env pa = None ->
  files (uploads_removed env pv pa w) !! pv = None
  /\ files (uploads_removed env pv pa w) !! pa = None.
Proof.
  intros Hv Ha. unfold uploads_removed, remove_upload. rewrite Hv.
  destruct (files w !! pv) eqn:E1; cbn [files record set_files]; rewrite Ha.
  - destruct (decide (pa = pv)) as [->|Hne].
    + rewrite lookup_delete_eq. cbn [files record]. split; apply lookup_delete_eq.
    + rewrite lookup_delete_ne by done.
      destruct (files w !! pa) eqn:E2; cbn [files record set_files].
      * split; [|apply lookup_delete_eq].
        rewrite lookup_delete_ne by done. apply lookup_delete_eq.
      * split; [apply lookup_delete_eq|]. by rewrite lookup_delete_ne.
  - destruct (files w !! pa) eqn:E2; cbn [files record set_files].
    + split; [|apply lookup_delete_eq].
      destruct (decide (pa = pv)) as [->|Hne]; [apply lookup_delete_eq|].
      by rewrite lookup_delete_ne.
    + done.
Qed.

(** The video upload is still there only when its deletion failed; the
    handler then warned and did no more. *)
Lemma uploads_removed_left pv pa w :
  is_Some (files (uploads_removed env pv pa w) !! pv) ->
  exists msg,
    unlink_error env pv = Some msg
    /\ uploads_removed env pv pa w
       = record (upload_warning msg)
           (record (Unlink pv) (record (ExistsSync pv true) w)).
Proof.
  unfold uploads_removed, remove_upload.
  destruct (files w !! pv) eqn:E1.
  - destruct (unlink_error env pv) as [msg|]; [eauto|].
    cbn [files record set_files].
    destruct (delete pv (files w) !! pa) eqn:E2; [destruct (unlink_error env pa)|];
      cbn [files record set_files]; intros [x Hx]; exfalso.
    + rewrite lookup_delete_eq in Hx. discriminate.
    + destruct (decide (pa = pv)) as [->|Hne].
      * rewrite lookup_delete_eq in Hx. discriminate.
      * rewrite lookup_delete_ne, lookup_delete_eq in Hx by done. discriminate.
    + rewrite lookup_delete_eq in Hx. discriminate.
  - cbn [files record set_files].
    destruct (files w !! pa) eqn:E2; [destruct (unlink_error env pa)|];
      cbn [files record set_files]; intros [x Hx]; exfalso.
    + congruence.
    + destruct (decide (pa = pv)) as [->|Hne].
      * rewrite lookup_delete_eq in Hx. discriminate.
      * rewrite lookup_delete_ne in Hx by done. congruence.
    + congruence.
Qed.

End Uploads.

#[export] Hint Rewrite spawns_uploads_removed execs_uploads_removed writes_uploads_removed
  : trace.

Section RouteExits.

Context (env : Env) (fuel : nat).

(** The three ways through the handler: an upload is missing, the loop
    count is refused, or the job is run and the uploads are removed. *)
Lemma route_exits req w :
  wp (Server.process_video env fuel req)
    (fun r w' =>
       (r = Ret missing_files
        /\ (Server.videoFile req = None \/ Server.audioFile req = None)
        /\ quiet w w')
       \/ exists v a,
            Server.videoFile req = Some v /\ Server.audioFile req = Some a
            /\ ((loops_refused (loops_of (Server.body_numLoops req)) = true
                 /\ r = Ret rejection /\ quiet w w')
                \/ (loops_refused (loops_of (Server.body_numLoops req)) = false
                    /\ exists jr w1,
                         Server.createLoopedVideoWithAudio env fuel
                           (Server.path v) (Server.path a)
                           (loops_of (Server.body_numLoops req))
                           (Server.outputFileName_of env (Server.originalname v)
                              (Date_now env (clock_reads w)))
                           (fullHD_of (Server.body_fullHD req)) (tick w)
                         = (jr, w1)
                         /\ match jr with
                            | Ret _ =>
                                r = Ret (processed
                                           (Server.outputFileName_of env
                                              (Server.originalname v)
                                              (Date_now env (clock_reads w))))
                                /\ w' = uploads_removed env (Server.path v)
                                          (Server.path a) w1
                            | Throw e =>
                                r = Ret (failure (Server.clientErrorMessage e))
                                /\ w' = uploads_removed env (Server.path v)
                                          (Server.path a) w1
                            | Hang => r = Hang /\ w' = w1
                            end))) w.
Proof.
  destruct (route_inv req) as [Hm|(v & a & Hreq)].
  - eapply wp_mono; [|apply (route_missing_run env fuel req w Hm)].
    intros r w' (-> & Hq & _). left. auto.
  - unfold wp. rewrite Hreq.
    cbn [Server.videoFile Server.audioFile Server.body_numLoops Server.body_fullHD].
    right. exists v, a. split; [reflexivity|]. split; [reflexivity|].
    destruct (loops_refused (loops_of (Server.body_numLoops req))) eqn:E.
    + left. split; [reflexivity|].
      exact (route_refused_run env fuel v a _ (Server.body_fullHD req) w E).
    + right. split; [reflexivity|].
      rewrite (route_accepted_run env fuel v a _ (Server.body_fullHD req) w E).
      cbv zeta.
      destruct (Server.createLoopedVideoWithAudio _ _ _ _ _ _ _ _) as [[res|e|] w1];
        eexists; eexists; (split; [reflexivity|]); split; reflexivity.
Qed.


End RouteExits.

(** *** The ways out of a job of [server.js] *)

Section JobExits.

Context (env : Env) (fuel : nat).
Context (inputVideoPath inputAudioPath : string) (numLoops : JS.number)
        (outputFileName : string) (fullHD : bool).

Let job := Server.createLoopedVideoWithAudio env fuel inputVideoPath inputAudioPath
             numLoops outputFileName fullHD.
Let children := children_of env inputVideoPath inputAudioPath numLoops outputFileName fullHD.

Lemma job_returns w :
  wp job
    (fun r w' =>
       forall res, r = Ret res ->
       res = {| Server.success := true;
                Server.outputPath := path_resolve env [OUTPUT_DIR env; outputFileName];
                Server.outputFileName := outputFileName |}
       /\ accepted env inputVideoPath inputAudioPath numLoops (files w) = true
       /\ valid_duration (probed env (path_resolve env [inputVideoPath]) (files w)) = true
       /\ spawns (trace w') = spawns (trace w) ++ children w
       /\ Forall (fun child =>
                    exists fs,
                      command_failed (fst (spawn_child env child.1 child.2 fs)) = false)
            (children w)
       /\ exists content,
            Server.concat_loop fuel 0 numLoops
              (JS.replace_backslashes (path_resolve env [inputVideoPath])) "" = Some content
            /\ writes (trace w')
               = writes (trace w)
                   ++ [(Server.tempConcatFilePath env (Date_now env (clock_reads w)),
                        content)]) w.
Proof.
  subst job children.
  unfold Server.createLoopedVideoWithAudio, Server.getVideoDuration,
    Server.executeCommand, children_of, accepted.
  wp_run_post.
  all: intros res [= <-].
  all: trace_goal.
  all: repeat match goal with
         | H : is_Some (files _ !! _) |- _ =>
             rewrite (bool_decide_true _ H); clear H
         end.
  all: unfold valid_duration, probed;
       match goal with
       | H : spawn_child _ "ffprobe" _ _ = _ |- _ => rewrite H
       end; cbn [fst andb negb].
  all: match goal with H : _ || _ = false |- _ => rewrite H end.
  all: do 4 (split; [reflexivity|]).
  all: (split; [|eexists; split; reflexivity]).
  all: repeat constructor; cbn [fst snd].
  all: match goal with
       | H : spawn_child env ?c ?a ?fs = _
         |- exists fs', command_failed (fst (spawn_child env ?c ?a fs')) = false =>
           exists fs; rewrite H; reflexivity
       end.
Qed.

Lemma job_throws w :
  wp job
    (fun r w' =>
       forall e k, r = Throw e -> spawns (trace w') = spawns (trace w) ++ k ->
       let absV := path_resolve env [inputVideoPath] in
       let absA := path_resolve env [inputAudioPath] in
       if accepted env inputVideoPath inputAudioPath numLoops (files w) then
         exists inner,
           e = Server.processingError inner
           /\ (k = take 1 (children w)
               \/ exists c args fs fs',
                    (k = take 2 (children w) \/ k = children w)
                    /\ last k = Some ("ffmpeg", args)
                    /\ spawn_child env "ffmpeg" args fs = (c, fs')
                    /\ command_failed c = true
                    /\ e = newError ("Video processing failed: "
                                       +:+ command_error_message "ffmpeg" c))
       else
         k = []
         /\ e = newError
                  (if bool_decide (is_Some (files w !! absV)) then
                     if bool_decide (is_Some (files w !! absA)) then
                       "Number of loops must be a positive integer."
                     else "Input audio file not found at '" +:+ absA
                            +:+ "' (post-upload check)"
                   else "Input video file not found at '" +:+ absV
                          +:+ "' (post-upload check)")) w.
Proof.
  subst job children.
  unfold Server.createLoopedVideoWithAudio, Server.getVideoDuration,
    Server.executeCommand, children_of, accepted.
  wp_run_post.
  all: intros e k [= <-] Hk; trace_in Hk.
  all: match type of Hk with
       | spawns (trace ?w0) = _ => rewrite <- (app_nil_r (spawns (trace w0))) in Hk at 1
       | _ => idtac
       end.
  all: apply app_inv_head in Hk; subst k.
  all: cbv zeta.
  all: repeat match goal with
         | H : is_Some (files _ !! _) |- _ =>
             rewrite (bool_decide_true _ H); clear H
         | H : files _ !! _ = None |- _ =>
             rewrite (bool_decide_false (is_Some _));
             [|rewrite H; intros [? ?]; discriminate]
         | H : JS.le _ _ = _ |- _ => rewrite H; clear H
         end.
  all: cbn [andb negb].
  all: try (split; reflexivity).
  all: unfold probed;
       try match goal with
           | H : spawn_child _ "ffprobe" _ _ = _ |- _ => rewrite H
           end; cbn [fst].
  all: eexists; (split; [reflexivity|]).
  all: try (left; reflexivity).
  all: right; do 4 eexists.
  all: (split; [first [left; reflexivity | right; reflexivity]|]).
  all: (split; [reflexivity|]).
  all: (split; [eassumption|]).
  all: split; reflexivity.
Qed.

(** The job reads the clock twice, once for each temporary name, and only
    past its checks. *)
Lemma job_clock w :
  wp job
    (fun _ w' =>
       clock_reads w'
       = if accepted env inputVideoPath inputAudioPath numLoops (files w)
         then S (S (clock_reads w)) else clock_reads w) w.
Proof.
  subst job children.
  unfold Server.createLoopedVideoWithAudio, Server.getVideoDuration,
    Server.executeCommand, accepted.
  wp_run_post.
  all: repeat match goal with
         | H : is_Some (files _ !! _) |- _ =>
             rewrite (bool_decide_true _ H); clear H
         | H : files _ !! _ = None |- _ =>
             rewrite (bool_decide_false (is_Some _));
             [|rewrite H; intros [? ?]; discriminate]
         | H : JS.le _ _ = _ |- _ => rewrite H; clear H
         end.
  all: reflexivity.
Qed.

(** When the probe ends with another code than 0, the job throws the
    error of [getVideoDuration] wrapped once more, with the streams of the
    probe that are not empty. *)
Lemma job_probe_fails w exitCode out err fs :
  accepted env inputVideoPath inputAudioPath numLoops (files w) = true ->
  spawn_child env "ffprobe" (Server.probeArgs (path_resolve env [inputVideoPath])) (files w)
  = (Closed exitCode out err, fs) ->
  exitCode <> Some 0 ->
  wp job
    (fun r _ =>
       r = Throw
             (MkError
                ("Video processing failed: Failed to get video duration for "
                   +:+ dq +:+ path_resolve env [inputVideoPath] +:+ dq +:+ ". "
                   +:+ command_error_message "ffprobe" (Closed exitCode out err))
                None None None
                (if String.eqb out "" then None else Some out)
                (if String.eqb err "" then None else Some err)
                None)) w.
Proof.
  intros Hacc Hprobe Hcode.
  unfold accepted in Hacc. apply andb_true_iff in Hacc as [Hacc Hloops].
  apply andb_true_iff in Hacc as [Hv Ha].
  apply bool_decide_eq_true in Hv, Ha. apply negb_true_iff in Hloops.
  subst job children.
  unfold Server.createLoopedVideoWithAudio, Server.getVideoDuration,
    Server.executeCommand.
  wp_run_post.
  all: try absurd_lookup.
  all: try congruence.
  all: match goal with
       | H : spawn_child _ "ffprobe" _ _ = _ |- _ =>
           rewrite Hprobe in H; injection H as <- <- <- <-
       end.
  all: try (exfalso; apply Hcode; reflexivity).
  all: unfold Server.processingError, js_or, of_original, truthy;
       cbn [message stdout stderr originalError ffmpegStdout ffmpegStderr
            command_error_message].
  all: destruct (String.eqb out "") eqn:Eo; destruct (String.eqb err "") eqn:Ee;
       cbn [negb]; cbv beta iota; rewrite ?Eo, ?Ee; reflexivity.
Qed.

End JobExits.

(** *** The ways out of the job of [VideoLooper.js] *)

Section ScriptExits.

Context (env : Env) (fuel : nat).
Context (inputVideoPath inputAudioPath : string) (numLoops : JS.number)
        (outputVideoPath : string).

Let script := VideoLooper.createLoopedVideoWithAudio env fuel inputVideoPath inputAudioPath
                numLoops outputVideoPath.

Lemma script_exits w :
  wp script
    (fun r w' =>
       match r with
       | Throw _ => False
       | Hang =>
           Server.concat_loop fuel 0 numLoops
             (JS.replace_backslashes (path_resolve env [inputVideoPath])) "" = None
           \/ exists k, execs (trace w') = execs (trace w) ++ k /\ line_never_ends env k
       | Ret false => True
       | Ret true =>
           accepted env inputVideoPath inputAudioPath numLoops (files w) = true
           /\ execs (trace w')
              = execs (trace w)
                  ++ [ VideoLooper.loopCommand (VideoLooper.tempConcatFilePath env)
                         (VideoLooper.tempLoopedVideoPath env);
                       VideoLooper.combineCommand (VideoLooper.tempLoopedVideoPath env)
                         (path_resolve env [inputAudioPath])
                         (path_resolve env [outputVideoPath]) ]
           /\ Forall (fun line =>
                        exists fs,
                          command_failed (fst (exec_child env line fs)) = false)
                [ VideoLooper.loopCommand (VideoLooper.tempConcatFilePath env)
                    (VideoLooper.tempLoopedVideoPath env);
                  VideoLooper.combineCommand (VideoLooper.tempLoopedVideoPath env)
                    (path_resolve env [inputAudioPath])
                    (path_resolve env [outputVideoPath]) ]
           /\ exists content,
                writes (trace w')
                = writes (trace w) ++ [(VideoLooper.tempConcatFilePath env, content)]
       end) w.
Proof.
  subst script.
  unfold VideoLooper.createLoopedVideoWithAudio, VideoLooper.found,
    VideoLooper.executeCommand, accepted.
  rewrite concat_loop_script.
  match goal with |- wp _ ?P _ => set (Post := P) end.
  wp_simpl.
  repeat first
    [ lazymatch goal with
      | |- wp (VideoLooper.cleanup _ _ _) _ _ => apply wp_script_cleanup
      end
    | wp_step ].
  all: cbn [files trace clock_reads record set_files fst snd] in *.
  all: subst Post; cbv beta iota.
  all: try exact I.
  all: try (left; first [assumption | reflexivity]).
  all: try (right; trace_goal; eexists; (split; [reflexivity|]); pending_child).
  all: repeat match goal with
         | H : is_Some (files _ !! _) |- _ =>
             rewrite (bool_decide_true _ H); clear H
         | H : JS.le _ _ = _ |- _ => rewrite H; clear H
         end.
  all: (split; [reflexivity|]).
  all: (split; [trace_goal; reflexivity|]).
  all: (split; [|eexists; trace_goal; reflexivity]).
  all: repeat constructor.
  all: match goal with
       | H : exec_child env ?l ?fs = _
         |- exists fs', command_failed (fst (exec_child env ?l fs')) = false =>
           exists fs; rewrite H; reflexivity
       end.
Qed.

(** When a check fails the script returns [false] and has only looked for
    its inputs. *)
Lemma script_refused w :
  wp script
    (fun r w' =>
       accepted env inputVideoPath inputAudioPath numLoops (files w) = false ->
       r = Ret false /\ files w' = files w
       /\ execs (trace w') = execs (trace w)
       /\ writes (trace w') = writes (trace w)
       /\ warnings (trace w') = warnings (trace w)) w.
Proof.
  subst script.
  unfold VideoLooper.createLoopedVideoWithAudio, VideoLooper.found,
    VideoLooper.executeCommand, accepted.
  rewrite concat_loop_script.
  match goal with |- wp _ ?P _ => set (Post := P) end.
  wp_simpl.
  repeat first
    [ lazymatch goal with
      | |- wp (VideoLooper.cleanup _ _ _) _ _ => apply wp_script_cleanup
      end
    | wp_step ].
  all: cbn [files trace clock_reads record set_files fst snd] in *.
  all: subst Post; cbv beta iota.
  all: repeat match goal with
         | H : is_Some (files _ !! _) |- _ =>
             rewrite (bool_decide_true _ H); clear H
         | H : JS.le _ _ = _ |- _ => rewrite H; clear H
         end.
  all: cbn [andb negb].
  all: try discriminate.
  all: intros _; trace_goal; repeat split; reflexivity.
Qed.

(** Past the checks, what the script resolves to is decided by the writing
    of the manifest and by how the two commands end. *)
Lemma script_result w content :
  accepted env inputVideoPath inputAudioPath numLoops (files w) = true ->
  Server.concat_loop fuel 0 numLoops
    (JS.replace_backslashes (path_resolve env [inputVideoPath])) "" = Some content ->
  wp script
    (fun r w' =>
       match writeFile_error env (VideoLooper.tempConcatFilePath env) with
       | Some _ => r = Ret false
       | None =>
           match fst (script_loop_stage env content w) with
           | Pending => r = Hang
           | Closed (Some 0) _ _ =>
               match fst (script_compose_stage env inputAudioPath outputVideoPath
                            content w) with
               | Pending => r = Hang
               | Closed (Some 0) _ _ => r = Ret true
               | _ => r = Ret false
               end
           | _ => r = Ret false
           end
       end) w.
Proof.
  intros Hacc Hloop.
  unfold accepted in Hacc. apply andb_true_iff in Hacc as [Hacc Hloops].
  apply andb_true_iff in Hacc as [Hv Ha].
  apply bool_decide_eq_true in Hv, Ha. apply negb_true_iff in Hloops.
  subst script.
  unfold VideoLooper.createLoopedVideoWithAudio, VideoLooper.found,
    VideoLooper.executeCommand, script_compose_stage, script_loop_stage.
  rewrite concat_loop_script, Hloop.
  match goal with |- wp _ ?P _ => set (Post := P) end.
  wp_simpl.
  repeat first
    [ lazymatch goal with
      | |- wp (VideoLooper.cleanup _ _ _) _ _ => apply wp_script_cleanup
      end
    | wp_step ].
  all: cbn [files trace clock_reads record set_files fst snd] in *.
  all: subst Post; cbv beta iota.
  all: try absurd_lookup.
  all: try congruence.
  all: repeat match goal with
         | H : writeFile_error _ _ = _ |- _ => rewrite H; clear H
         | H : exec_child _ _ _ = _ |- _ => rewrite H; cbn [fst snd]; clear H
         end.
  all: reflexivity.
Qed.

End ScriptExits.

(** *** What the page sends *)

Section PageSends.

Lemma page_sends_shape fetch f p :
  snd (Page.submit fetch f p) = []
  \/ exists video audio,
       Page.videoFile f = Some video /\ Page.audioFile f = Some audio
       /\ JS.le (JS.parseInt (Page.numLoops f)) (JS.ofZ 0) = false
       /\ JS.lt (JS.ofZ 1000) (JS.parseInt (Page.numLoops f)) = false
       /\ snd (Page.submit fetch f p)
          = [ [ ("videoFile", Page.FilePart video);
                ("audioFile", Page.FilePart audio);
                ("numLoops", Page.TextPart (Page.numLoops f));
                ("fullHD", Page.TextPart (Page.show_bool (Page.fullHD f))) ] ].
Proof.
  unfold Page.submit.
  destruct (Page.videoFile f) as [video|], (Page.audioFile f) as [audio|];
    try (left; reflexivity).
  destruct (JS.le _ _) eqn:El; [left; reflexivity|].
  destruct (JS.lt _ _) eqn:Eg; [left; reflexivity|].
  cbn [orb]. right. exists video, audio. repeat split.
  destruct (fetch _); reflexivity.
Qed.

End PageSends.

(** *** The digits of [toFixed] *)

Section Fixed.

Implicit Types (s t : string).

Lemma length_append s t : String.length (s +:+ t) = (String.length s + String.length t)%nat.
Proof.
  induction s as [|c s IH]; [reflexivity|].
  rewrite append_cons. cbn [String.length]. by rewrite IH.
Qed.

Lemma zeros_length n : String.length (JS.zeros n) = n.
Proof. induction n as [|n IH]; simpl; [reflexivity | by rewrite IH]. Qed.

Lemma zeros_digits n : all_chars is_digit (JS.zeros n) = true.
Proof. induction n as [|n IH]; [reflexivity | exact IH]. Qed.

Lemma substring_length a b s :
  (a + b <= String.length s)%nat -> String.length (String.substring a b s) = b.
Proof.
  revert b s. induction a as [|a IHa].
  - induction b as [|b IHb]; intros [|c s]; simpl; try reflexivity; try lia.
    intros H. rewrite IHb by lia. reflexivity.
  - intros b [|c s]; simpl; [lia|]. intros H. apply IHa. lia.
Qed.

Lemma substring_chars keep a b s :
  all_chars keep s = true -> all_chars keep (String.substring a b s) = true.
Proof.
  revert b s. induction a as [|a IHa].
  - induction b as [|b IHb]; intros [|c s]; simpl; try reflexivity.
    rewrite !andb_true_iff. intros [Hc Hs]. auto.
  - intros b [|c s]; simpl; [reflexivity|].
    rewrite andb_true_iff. intros [_ Hs]. by apply IHa.
Qed.

(** The digits of a number that is not negative, with a point before the
    last three. *)
Lemma fixed_digits_format n :
  0 <= n ->
  exists ip fp,
    JS.fixed_digits 3 n = ip +:+ "." +:+ fp
    /\ (0 < String.length ip)%nat
    /\ all_chars is_digit ip = true
    /\ all_chars is_digit fp = true
    /\ String.length fp = 3%nat.
Proof.
  intros Hn. destruct (show_digits n Hn) as [Hd Hne].
  unfold JS.fixed_digits.
  set (m := if (String.length (JS.show n) <=? 3)%nat
            then JS.zeros (3 + 1 - String.length (JS.show n)) +:+ JS.show n
            else JS.show n).
  assert (Hm : all_chars is_digit m = true /\ (4 <= String.length m)%nat).
  { subst m. destruct (String.length (JS.show n) <=? 3)%nat eqn:E.
    - apply Nat.leb_le in E. rewrite all_chars_app, zeros_digits, Hd.
      rewrite length_append, zeros_length. split; [reflexivity | lia].
    - apply Nat.leb_gt in E. split; [exact Hd | lia]. }
  destruct Hm as [Hmd Hml].
  eexists; eexists. split; [reflexivity|].
  split; [rewrite substring_length; lia|].
  split; [by apply substring_chars|].
  split; [by apply substring_chars|].
  apply substring_length. lia.
Qed.

End Fixed.

(** *** What is deleted *)

Section Unlinks.

Context (env : Env).

Lemma unlinks_app l1 l2 : unlinks (l1 ++ l2) = unlinks l1 ++ unlinks l2.
Proof. apply omap_app. Qed.

Lemma unlinks_one ev : unlinks [ev] = match ev with Unlink p => [p] | _ => [] end.
Proof. by destruct ev. Qed.

Lemma unlinks_removal p fs :
  unlinks (removal_events env p fs) = match fs !! p with Some _ => [p] | None => [] end.
Proof. unfold removal_events. destruct (fs !! p), (unlink_error env p); reflexivity. Qed.

Lemma unlinks_remove_temp p w :
  exists us,
    unlinks (trace (remove_temp env p w)) = unlinks (trace w) ++ us
    /\ forall q, In q us -> q = p.
Proof.
  unfold remove_temp. cbn [trace]. rewrite unlinks_app, unlinks_removal.
  eexists. split; [reflexivity|].
  destruct (files w !! p); simpl; intros q; intuition congruence.
Qed.

Lemma unlinks_script_remove what p w :
  unlinks (trace (script_remove env what p w)) = unlinks (trace w) ++ [p].
Proof.
  unfold script_remove.
  destruct (files w !! p); [destruct (unlink_error env p)|];
    cbn [trace record set_files script_warning];
    rewrite !unlinks_app, !unlinks_one; cbv beta iota; by rewrite ?app_nil_r.
Qed.

Lemma unlinks_remove_upload p w :
  exists us,
    unlinks (trace (snd (remove_upload env p w))) = unlinks (trace w) ++ us
    /\ forall q, In q us -> q = p.
Proof.
  unfold remove_upload.
  destruct (files w !! p); [destruct (unlink_error env p)|];
    cbn [snd trace record set_files];
    rewrite !unlinks_app, !unlinks_one; cbv beta iota;
    rewrite ?app_nil_r, <- ?app_assoc; cbn [app];
    first [ exists [p]; split; [reflexivity|]; simpl; intros q; intuition congruence
          | exists []; split; [by rewrite app_nil_r|]; intros q [] ].
Qed.

Lemma unlinks_uploads_removed pv pa w :
  exists us,
    unlinks (trace (uploads_removed env pv pa w)) = unlinks (trace w) ++ us
    /\ forall q, In q us -> q = pv \/ q = pa.
Proof.
  unfold uploads_removed.
  destruct (unlinks_remove_upload pv w) as (u1 & E1 & H1).
  destruct (remove_upload env pv w) as [[msg|] w1]; cbn [snd] in *.
  - cbn [trace record upload_warning]. rewrite unlinks_app, unlinks_one, E1.
    cbv beta iota. rewrite app_nil_r.
    exists u1. split; [reflexivity|]. intros q Hq. left. auto.
  - destruct (unlinks_remove_upload pa w1) as (u2 & E2 & H2).
    destruct (remove_upload env pa w1) as [[msg|] w2]; cbn [snd] in *;
      cbn [trace record upload_warning]; rewrite ?unlinks_app, ?unlinks_one, E2, E1;
      cbv beta iota; rewrite ?app_nil_r, <- app_assoc;
      exists (u1 ++ u2); (split; [reflexivity|]);
      intros q Hq; apply in_app_or in Hq as [Hq|Hq]; auto.
Qed.

End Unlinks.

Section JobUnlinks.

Context (env : Env) (fuel : nat).

(** A job deletes nothing but its two temporary files. *)
Lemma job_unlinks vin ain numLoops out fullHD w :
  wp (Server.createLoopedVideoWithAudio env fuel vin ain numLoops out fullHD)
    (fun _ w' =>
       forall us q,
         unlinks (trace w') = unlinks (trace w) ++ us -> In q us ->
         q = Server.tempConcatFilePath env (Date_now env (clock_reads w))
         \/ q = Server.tempLoopedVideoPath env (Date_now env (S (clock_reads w)))) w.
Proof.
  unfold Server.createLoopedVideoWithAudio, Server.getVideoDuration,
    Server.executeCommand.
  wp_run_post.
  all: intros us q Hus Hq.
  all: cbn [trace record set_files remove_temp] in Hus.
  all: rewrite ?unlinks_app, ?unlinks_removal, ?unlinks_one in Hus.
  all: cbv beta iota in Hus; rewrite ?app_nil_r, <- ?app_assoc in Hus; cbn [app] in Hus.
  all: match type of Hus with
       | unlinks (trace ?w0) = _ => rewrite <- (app_nil_r (unlinks (trace w0))) in Hus at 1
       | _ => idtac
       end.
  all: apply app_inv_head in Hus; subst us.
  all: try (destruct Hq; fail).
  all: apply in_app_or in Hq as [Hq|Hq];
       match type of Hq with
       | In _ (match ?x with _ => _ end) => destruct x; simpl in Hq; intuition congruence
       end.
Qed.

(** A job only adds to the record of what was done. *)
Lemma job_extends vin ain numLoops out fullHD w :
  wp (Server.createLoopedVideoWithAudio env fuel vin ain numLoops out fullHD)
    (fun _ w' => trace w `prefix_of` trace w') w.
Proof.
  unfold Server.createLoopedVideoWithAudio, Server.getVideoDuration,
    Server.executeCommand.
  wp_run_post.
  all: cbn [trace record set_files remove_temp]; repeat apply prefix_app_r; reflexivity.
Qed.

(** The script deletes nothing but its two temporary files. *)
Lemma script_unlinks vin ain numLoops out w :
  wp (VideoLooper.createLoopedVideoWithAudio env fuel vin ain numLoops out)
    (fun r w' =>
       forall us q,
         unlinks (trace w') = unlinks (trace w) ++ us -> In q us ->
         q = VideoLooper.tempConcatFilePath env
         \/ q = VideoLooper.tempLoopedVideoPath env) w.
Proof.
  unfold VideoLooper.createLoopedVideoWithAudio, VideoLooper.found,
    VideoLooper.executeCommand.
  match goal with |- wp _ ?P _ => set (Post := P) end.
  wp_simpl.
  repeat first
    [ lazymatch goal with
      | |- wp (VideoLooper.cleanup _ _ _) _ _ => apply wp_script_cleanup
      end
    | wp_step ].
  all: cbn [files trace clock_reads record set_files fst snd] in *.
  all: subst Post; cbv beta iota.
  all: intros us q Hus Hq.
  all: rewrite ?unlinks_script_remove in Hus.
  all: cbn [trace record set_files] in Hus.
  all: rewrite ?unlinks_app, ?unlinks_one in Hus.
  all: cbv beta iota in Hus; rewrite ?app_nil_r, <- ?app_assoc in Hus; cbn [app] in Hus.
  all: match type of Hus with
       | unlinks (trace ?w0) = _ => rewrite <- (app_nil_r (unlinks (trace w0))) in Hus at 1
       | _ => idtac
       end.
  all: apply app_inv_head in Hus; subst us.
  all: simpl in Hq; intuition congruence.
Qed.

(** The handler deletes nothing but the two temporary files of its job and
    the uploads of the request. *)
Lemma route_unlinks req w :
  wp (Server.process_video env fuel req)
    (fun _ w' =>
       forall us q,
         unlinks (trace w') = unlinks (trace w) ++ us -> In q us ->
         q = Server.tempConcatFilePath env (Date_now env (S (clock_reads w)))
         \/ q = Server.tempLoopedVideoPath env (Date_now env (S (S (clock_reads w))))
         \/ exists f,
              (Server.videoFile req = Some f \/ Server.audioFile req = Some f)
              /\ q = Server.path f) w.
Proof.
  destruct (route_inv req) as [Hm|(v & a & Hreq)].
  - destruct req as [[v|] [a|] body hd];
      cbn [Server.videoFile Server.audioFile] in Hm;
      [destruct Hm; discriminate|..];
      unfold Server.process_video, Server.unlink_if_exists_or_warn;
      cbn [Server.videoFile Server.audioFile];
      wp_run_post.
    all: intros us q Hus Hq.
    all: cbn [trace record set_files] in Hus.
    all: rewrite ?unlinks_app, ?unlinks_one in Hus.
    all: cbv beta iota in Hus; rewrite ?app_nil_r, <- ?app_assoc in Hus; cbn [app] in Hus.
    all: match type of Hus with
         | unlinks (trace ?w0) = _ => rewrite <- (app_nil_r (unlinks (trace w0))) in Hus at 1
         | _ => idtac
         end.
    all: apply app_inv_head in Hus; subst us.
    all: simpl in Hq; try tauto.
    all: destruct Hq as [<-|[]]; right; right; eexists; split; [|reflexivity]; eauto.
  - rewrite Hreq. cbn [Server.videoFile Server.audioFile].
    destruct (loops_refused (loops_of (Server.body_numLoops req))) eqn:E.
    + unfold Server.process_video, Server.unlink_if_exists_or_warn.
      cbn [Server.videoFile Server.audioFile Server.body_numLoops].
      unfold loops_refused, loops_of in E. rewrite E.
      wp_run_post.
      all: intros us q Hus Hq.
      all: cbn [trace record set_files] in Hus.
      all: rewrite ?unlinks_app, ?unlinks_one in Hus.
      all: cbv beta iota in Hus; rewrite ?app_nil_r, <- ?app_assoc in Hus;
           cbn [app] in Hus.
      all: match type of Hus with
           | unlinks (trace ?w0) = _ =>
               rewrite <- (app_nil_r (unlinks (trace w0))) in Hus at 1
           | _ => idtac
           end.
      all: apply app_inv_head in Hus; subst us.
      all: simpl in Hq; try tauto.
      all: right; right; destruct Hq as [<-|Hq]; [eauto|]; try tauto.
      all: destruct Hq as [<-|[]]; eauto.
    + unfold wp. rewrite route_accepted_run by exact E. cbv zeta.
      pose proof (job_unlinks (Server.path v) (Server.path a)
                    (loops_of (Server.body_numLoops req))
                    (Server.outputFileName_of env (Server.originalname v)
                       (Date_now env (clock_reads w)))
                    (fullHD_of (Server.body_fullHD req)) (tick w)) as Hj.
      unfold wp in Hj. cbn [tick trace clock_reads] in Hj.
      destruct (Server.createLoopedVideoWithAudio _ _ _ _ _ _ _ _) as [jr w1] eqn:Ejob.
      cbn [fst snd] in Hj.
      assert (Hex : exists u1, unlinks (trace w1) = unlinks (trace w) ++ u1).
      { pose proof (job_extends (Server.path v) (Server.path a)
                      (loops_of (Server.body_numLoops req))
                      (Server.outputFileName_of env (Server.originalname v)
                         (Date_now env (clock_reads w)))
                      (fullHD_of (Server.body_fullHD req)) (tick w)) as Hx.
        unfold wp in Hx. rewrite Ejob in Hx. cbn [snd tick trace] in Hx.
        destruct Hx as [evs ->]. exists (unlinks evs). apply unlinks_app. }
      destruct Hex as (u1 & Hu1).
      destruct (unlinks_uploads_removed env (Server.path v) (Server.path a) w1)
        as (u2 & Hu2 & H2).
      intros us q Hus Hq.
      assert (Hcases : In q u1 \/ In q u2).
      { destruct jr; cbn [fst snd] in Hus.
        - rewrite Hu2, Hu1, <- app_assoc in Hus. apply app_inv_head in Hus. subst us.
          by apply in_app_or.
        - rewrite Hu2, Hu1, <- app_assoc in Hus. apply app_inv_head in Hus. subst us.
          by apply in_app_or.
        - rewrite Hu1 in Hus. apply app_inv_head in Hus. subst us. by left. }
      destruct Hcases as [H|H].
      * destruct (Hj u1 q Hu1 H) as [->| ->]; auto.
      * right; right. destruct (H2 q H) as [->| ->]; eauto.
Qed.

Lemma script_extends vin ain numLoops out w :
  wp (VideoLooper.createLoopedVideoWithAudio env fuel vin ain numLoops out)
    (fun _ w' => trace w `prefix_of` trace w') w.
Proof.
  unfold VideoLooper.createLoopedVideoWithAudio, VideoLooper.found,
    VideoLooper.executeCommand.
  match goal with |- wp _ ?P _ => set (Post := P) end.
  wp_simpl.
  repeat first
    [ lazymatch goal with
      | |- wp (VideoLooper.cleanup _ _ _) _ _ => apply wp_script_cleanup
      end
    | wp_step ].
  all: cbn [files trace clock_reads record set_files fst snd] in *.
  all: subst Post; cbv beta iota.
  all: repeat match goal with
         | |- context [script_remove env ?what ?p ?w0] =>
             let evs := fresh "evs" in
             let E := fresh "E" in
             destruct (script_remove_trace env what p w0) as (evs & E & _);
             rewrite E; clear E
         end.
  all: cbn [trace record set_files]; repeat apply prefix_app_r; reflexivity.
Qed.

Lemma route_extends req w :
  wp (Server.process_video env fuel req) (fun _ w' => trace w `prefix_of` trace w') w.
Proof.
  destruct (route_inv req) as [Hm|(v & a & Hreq)].
  - destruct req as [[v|] [a|] body hd];
      cbn [Server.videoFile Server.audioFile] in Hm;
      [destruct Hm; discriminate|..];
      unfold Server.process_video, Server.unlink_if_exists_or_warn;
      cbn [Server.videoFile Server.audioFile];
      wp_run_post.
    all: cbn [trace record set_files]; repeat apply prefix_app_r; reflexivity.
  - rewrite Hreq. cbn [Server.videoFile Server.audioFile].
    destruct (loops_refused (loops_of (Server.body_numLoops req))) eqn:E.
    + unfold Server.process_video, Server.unlink_if_exists_or_warn.
      cbn [Server.videoFile Server.audioFile Server.body_numLoops].
      unfold loops_refused, loops_of in E. rewrite E.
      wp_run_post.
      all: cbn [trace record set_files]; repeat apply prefix_app_r; reflexivity.
    + unfold wp. rewrite route_accepted_run by exact E. cbv zeta.
      pose proof (job_extends (Server.path v) (Server.path a)
                    (loops_of (Server.body_numLoops req))
                    (Server.outputFileName_of env (Server.originalname v)
                       (Date_now env (clock_reads w)))
                    (fullHD_of (Server.body_fullHD req)) (tick w)) as Hx.
      unfold wp in Hx. cbn [tick trace] in Hx.
      destruct (Server.createLoopedVideoWithAudio _ _ _ _ _ _ _ _) as [jr w1].
      cbn [fst snd] in *.
      destruct (uploads_removed_trace env (Server.path v) (Server.path a) w1)
        as (evs & Hevs & _).
      destruct jr; cbn [snd]; rewrite ?Hevs; try apply prefix_app_r; exact Hx.
Qed.

Lemma in_unlinks q evs : In (Unlink q) evs -> In q (unlinks evs).
Proof.
  induction evs as [|ev evs IH]; [intros []|].
  intros [->|H]; [left; reflexivity|].
  specialize (IH H). destruct ev; try exact IH. right. exact IH.
Qed.

End JobUnlinks.

(** *** The C++ port *)

Section CppPort.

Context (env : Env).

Lemma concat_lines_manifest count p :
  Cpp.concat_lines count p = manifest (repeat (directive p) count).
Proof.
  induction count as [|k IH]; [reflexivity|].
  cbn [Cpp.concat_lines repeat manifest]. rewrite IH. unfold directive.
  by rewrite !append_assoc.
Qed.

Lemma wp_system command (Φ : outcome Z -> world -> Prop) w :
  (forall c fs, exec_child env command (files w) = (c, fs) -> c <> Pending ->
   Φ (Ret (if command_failed c then 1 else 0)) (set_files fs (record (Exec command) w))) ->
  (forall fs, exec_child env command (files w) = (Pending, fs) ->
   Φ Hang (set_files fs (record (Exec command) w))) ->
  wp (Cpp.system env command) Φ w.
Proof.
  intros H Hp. unfold Cpp.system. wp_run.
  all: match goal with
       | E : exec_child _ _ _ = (Pending, _) |- _ => exact (Hp _ E)
       | E : exec_child _ _ _ = _ |- _ => by apply (H _ _ E)
       end.
Qed.

Lemma wp_remove p (Φ : outcome Z -> world -> Prop) w :
  (forall z fs,
     (z = 0 /\ fs = delete p (files w)) \/ (z <> 0 /\ fs = files w) ->
     Φ (Ret z) (set_files fs (record (Unlink p) w))) ->
  wp (Cpp.remove env p) Φ w.
Proof.
  intros H. unfold Cpp.remove. wp_run.
  - apply (H (-1) (files w)). right. by split.
  - apply (H (-1) (files w)). right. by split.
  - apply (H 0 (delete p (files w))). left. by split.
Qed.

Ltac cpp_step :=
  lazymatch goal with
  | |- wp (Cpp.system _ _) _ _ => apply wp_system; intros; wp_simpl
  | |- wp (Cpp.remove _ _) _ _ => apply wp_remove; intros; wp_simpl
  | |- wp (Cpp.file_exists _) _ _ => apply wp_existsSync; intros; wp_simpl
  | |- _ => wp_step
  end.

Lemma temp_paths_differ : Cpp.temp_concat_file_path <> Cpp.temp_looped_video_path.
Proof. discriminate. Qed.

Lemma cpp_exits vin ain n out w :
  wp (Cpp.create_looped_video_with_audio env vin ain n out)
    (fun r w' =>
       exists evs,
         trace w' = trace w ++ evs
         /\ (is_Some (files w !! vin) -> is_Some (files w !! ain) -> 0 < n ->
             writes evs
             = [(Cpp.temp_concat_file_path,
                 Cpp.concat_lines (Z.to_nat n) (path_resolve env [vin]))])
         /\ (files w !! vin = None \/ files w !! ain = None \/ n <= 0 ->
             writes evs = [] /\ execs evs = [])
         /\ ((r = Ret false /\ execs evs = [] /\ unlinks evs = [] /\ files w' = files w
              /\ (writes evs = []
                  \/ is_Some (writeFile_error env Cpp.temp_concat_file_path)))
             \/ (r = Ret false
                 /\ execs evs = [Cpp.ffmpeg_loop_command]
                 /\ unlinks evs = [Cpp.temp_concat_file_path]
                 /\ exists c fs,
                      exec_child env Cpp.ffmpeg_loop_command
                        (<[Cpp.temp_concat_file_path :=
                             Cpp.concat_lines (Z.to_nat n) (path_resolve env [vin])]>
                           (files w))
                      = (c, fs)
                      /\ command_failed c = true /\ c <> Pending
                      /\ files w' !! Cpp.temp_looped_video_path
                         = fs !! Cpp.temp_looped_video_path)
             \/ (execs evs
                 = [ Cpp.ffmpeg_loop_command;
                     Cpp.ffmpeg_combine_command (path_resolve env [ain]) out ]
                 /\ unlinks evs = [Cpp.temp_concat_file_path; Cpp.temp_looped_video_path]
                 /\ exists c1 fs1 c2 fs2,
                      exec_child env Cpp.ffmpeg_loop_command
                        (<[Cpp.temp_concat_file_path :=
                             Cpp.concat_lines (Z.to_nat n) (path_resolve env [vin])]>
                           (files w))
                      = (c1, fs1)
                      /\ exec_child env
                           (Cpp.ffmpeg_combine_command (path_resolve env [ain]) out) fs1
                         = (c2, fs2)
                      /\ command_failed c1 = false /\ c2 <> Pending
                      /\ r = Ret (negb (command_failed c2))
                      /\ (r = Ret true -> warnings evs = [] ->
                          files w'
                          = delete Cpp.temp_looped_video_path
                              (delete Cpp.temp_concat_file_path fs2)))
             \/ (r = Hang
                 /\ execs evs = [Cpp.ffmpeg_loop_command] /\ unlinks evs = []
                 /\ exists fs,
                      exec_child env Cpp.ffmpeg_loop_command
                        (<[Cpp.temp_concat_file_path :=
                             Cpp.concat_lines (Z.to_nat n) (path_resolve env [vin])]>
                           (files w))
                      = (Pending, fs))
             \/ (r = Hang
                 /\ execs evs
                    = [ Cpp.ffmpeg_loop_command;
                        Cpp.ffmpeg_combine_command (path_resolve env [ain]) out ]
                 /\ unlinks evs = []
                 /\ exists c1 fs1 fs2,
                      exec_child env Cpp.ffmpeg_loop_command
                        (<[Cpp.temp_concat_file_path :=
                             Cpp.concat_lines (Z.to_nat n) (path_resolve env [vin])]>
                           (files w))
                      = (c1, fs1)
                      /\ command_failed c1 = false
                      /\ exec_child env
                           (Cpp.ffmpeg_combine_command (path_resolve env [ain]) out) fs1
                         = (Pending, fs2)))) w.
Proof.
  unfold Cpp.create_looped_video_with_audio.
  match goal with |- wp _ ?P _ => set (Post := P) end.
  wp_simpl; repeat cpp_step.
  all: cbn [files trace clock_reads record set_files fst snd] in *.
  all: subst Post; cbv beta.
  all: cbn [trace record set_files files]; rewrite <- ?app_assoc; cbn [app].
  all: first [ eexists; split; [reflexivity|]
             | exists []; split; [symmetry; apply app_nil_r|] ].
  all: repeat match goal with
              | H : (_ <=? 0) = _ |- _ => first [apply Z.leb_le in H | apply Z.leb_gt in H]
              | H : negb ((if command_failed ?c then 1 else 0) =? 0) = _ |- _ =>
                  destruct (command_failed c) eqn:?; try discriminate H; clear H
              end.
  all: (split; [intros Hv Ha Hn;
                first [reflexivity | exfalso; lia | exfalso; absurd_lookup]|]).
  all: (split; [intros [Hx|[Hx|Hx]];
                first [by split | exfalso; lia | exfalso; absurd_lookup]|]).
  all: try (left; split; [reflexivity|]; split; [reflexivity|]; split; [reflexivity|];
            split; [reflexivity|];
            first [left; reflexivity | right; by eexists]).
  all: try (right; right; right; left; repeat (split; [reflexivity|]); by eexists).
  all: try (right; right; right; right; repeat (split; [reflexivity|]);
            do 3 eexists; repeat (split; [eassumption|]); eassumption).
  all: try (right; left; split; [reflexivity|]; split; [reflexivity|]; split; [reflexivity|];
            do 2 eexists; repeat (split; [eassumption|]);
            match goal with
            | H : _ \/ _ |- _ => destruct H as [[_ ->]|[_ ->]]; [|reflexivity]
            end;
            apply lookup_delete_ne, temp_paths_differ).
  all: right; right; left; split; [reflexivity|]; split; [reflexivity|];
       do 4 eexists; repeat (split; [eassumption|]);
       match goal with
       | H : command_failed ?c = _ |- context [command_failed ?c] => rewrite H
       end;
       (split; [reflexivity|]); try discriminate; intros _ _.
  all: repeat match goal with
              | H : negb (_ =? 0) = false |- _ => apply negb_false_iff, Z.eqb_eq in H
              | H : (?z = 0 /\ _) \/ (?z <> 0 /\ _) |- _ =>
                  destruct H as [[_ ->]|[? _]]; [|done]
              end.
  all: reflexivity.
Qed.

End CppPort.

(* ===================================================================== *)
(** ** Further properties of the code                                     *)
(* ===================================================================== *)

(** *** File names *)

(** X1. The name the multer storage gives an upload is the clock reading,
    a dash, the random number, a dash and the cleaned original name.  For
    readings and random numbers that are not negative, two uploads get the
    same stored name exactly when they have the same reading, the same
    random number and original names that are cleaned to the same text. *)
Theorem stored_upload_names_differ t rnd originalname t' rnd' originalname' :
  0 <= t -> 0 <= rnd -> 0 <= t' -> 0 <= rnd' ->
  Server.storage_filename t rnd originalname
  = Server.storage_filename t' rnd' originalname'
  <-> t = t' /\ rnd = rnd'
      /\ Server.replace_unless Server.kept_in_upload_name originalname
         = Server.replace_unless Server.kept_in_upload_name originalname'.
Proof.
  intros Ht Hr Ht' Hr'. split; [|by intros (-> & -> & E); unfold Server.storage_filename; rewrite E].
  unfold Server.storage_filename. rewrite !append_assoc. intros E.
  apply digits_then_dash in E as [Et E]; [|by apply show_digits..].
  apply digits_then_dash in E as [Er E]; [|by apply show_digits..].
  unfold JS.show in Et, Er. apply (inj pretty) in Et, Er. done.
Qed.

(** Two uploads of one file in the same millisecond, told apart by the
    random number. *)
Lemma stored_upload_names_differ_witness :
  Server.storage_filename 1700000000000 123456789 "my clip.mp4"
  = Server.storage_filename 1700000000000 987654321 "my clip.mp4"
  <-> 1700000000000 = 1700000000000 /\ 123456789 = 987654321
      /\ Server.replace_unless Server.kept_in_upload_name "my clip.mp4"
         = Server.replace_unless Server.kept_in_upload_name "my clip.mp4".
Proof.
  apply (stored_upload_names_differ 1700000000000 123456789 "my clip.mp4"
           1700000000000 987654321 "my clip.mp4"); lia.
Defined.

(** X2. The clean-up of an upload's original name works character by
    character and keeps the length.  Its class [.-_] is the range from the
    dot to the underscore: a slash or a backslash of the original name stays
    where it is, so the stored name has a slash exactly when the original
    name has one, while every dash and every blank becomes an underscore. *)
Theorem upload_name_keeps_separators t rnd originalname :
  let cleaned := Server.replace_unless Server.kept_in_upload_name originalname in
  let stored := Server.storage_filename t rnd originalname in
  stored = JS.show t +:+ "-" +:+ JS.show rnd +:+ "-" +:+ cleaned
  /\ String.length cleaned = String.length originalname
  /\ (forall i c, String.get i originalname = Some c ->
        String.get i cleaned
        = Some (if Server.kept_in_upload_name c then c else "_"%char))
  /\ Server.kept_in_upload_name "/" = true
  /\ Server.kept_in_upload_name "\" = true
  /\ JS.includes_char "/" stored = JS.includes_char "/" originalname
  /\ JS.includes_char "\" stored = JS.includes_char "\" originalname
  /\ JS.includes_char "-" cleaned = false
  /\ JS.includes_char " " cleaned = false.
Proof.
  intros cleaned stored. subst cleaned stored.
  assert (Hshow : forall c z, is_digit c = false -> c <> "-"%char ->
                    JS.includes_char c (JS.show z) = false).
  { intros c z Hd Hm.
    apply (all_chars_includes (fun d => is_digit d || Ascii.eqb d "-")).
    - apply show_chars; [by intros d -> | reflexivity].
    - rewrite Hd. apply Ascii.eqb_neq. exact Hm. }
  split; [unfold Server.storage_filename; by rewrite !append_assoc|].
  split; [apply replace_unless_length|].
  split; [intros i c Hc; by rewrite replace_unless_get, Hc|].
  split; [reflexivity|]. split; [reflexivity|].
  split; [|split; [|split]].
  - unfold Server.storage_filename. rewrite !includes_char_app, !Hshow by done.
    cbn [JS.includes_char Ascii.eqb Bool.eqb orb].
    by apply includes_char_replace_unless.
  - unfold Server.storage_filename. rewrite !includes_char_app, !Hshow by done.
    cbn [JS.includes_char Ascii.eqb Bool.eqb orb].
    by apply includes_char_replace_unless.
  - apply (all_chars_includes (fun c => Server.kept_in_upload_name c || Ascii.eqb c "_"));
      [|reflexivity].
    induction originalname as [|c s IH]; [reflexivity|].
    cbn [Server.replace_unless all_chars]. rewrite IH, andb_true_r.
    destruct (Server.kept_in_upload_name c) eqn:E; [by rewrite E | reflexivity].
  - apply (all_chars_includes (fun c => Server.kept_in_upload_name c || Ascii.eqb c "_"));
      [|reflexivity].
    induction originalname as [|c s IH]; [reflexivity|].
    cbn [Server.replace_unless all_chars]. rewrite IH, andb_true_r.
    destruct (Server.kept_in_upload_name c) eqn:E; [by rewrite E | reflexivity].
Qed.

(** X3. Whatever the original name of the video, whatever [path.parse]
    makes of it and whatever the clock reads, the output file name is
    [looped_], the cleaned name, an underscore, the reading and [.mp4], and
    each of its characters is a letter, a digit, an underscore, a dot or a
    dash: it holds no slash, no backslash, no blank and no quote.  A name
    that is already made of such characters is not changed by the
    clean-up. *)
Theorem output_name_has_only_safe_characters env originalname t :
  let cleaned :=
    Server.replace_unless Server.kept_in_output_name (path_parse_name env originalname) in
  let name := Server.outputFileName_of env originalname t in
  name = "looped_" +:+ cleaned +:+ "_" +:+ JS.show t +:+ ".mp4"
  /\ all_chars Server.kept_in_output_name name = true
  /\ JS.includes_char "/" name = false
  /\ JS.includes_char "\" name = false
  /\ JS.includes_char " " name = false
  /\ JS.includes_char "'" name = false
  /\ JS.includes_char (ascii_of_nat 34) name = false
  /\ (forall s, all_chars Server.kept_in_output_name s = true ->
        Server.replace_unless Server.kept_in_output_name s = s).
Proof.
  intros cleaned name.
  assert (H : all_chars Server.kept_in_output_name name = true).
  { subst name. unfold Server.outputFileName_of. rewrite !all_chars_app.
    rewrite replace_unless_chars by reflexivity.
    rewrite show_chars; [reflexivity| |reflexivity].
    intros c Hc. unfold is_digit, JS.digit_of in Hc.
    unfold Server.kept_in_output_name, Server.is_alnum.
    destruct (N.leb 48 (JS.code c) && N.leb (JS.code c) 57); [|discriminate].
    by rewrite !orb_true_r. }
  split; [reflexivity|]. split; [exact H|].
  do 5 (split; [by apply (all_chars_includes _ _ _ H)|]).
  intros s; apply replace_unless_clean.
Qed.

(** *** The message sent to the client *)

(** X4. The details the handler appends to its error message are the
    standard error of the failed command with every line break (CR LF, CR or
    LF) replaced by a blank, cut to its first 300 characters: they hold no
    line break and are never longer than 300 characters nor than the text
    they come from.  The three dots are appended when the text itself, before
    the replacement, is longer than 300. *)
Theorem client_details_are_one_short_line s :
  let clean := JS.substring0 300 (JS.replace_newlines s) in
  all_chars (fun c => negb (is_line_break c)) clean = true
  /\ String.length clean = Nat.min 300 (String.length (JS.replace_newlines s))
  /\ (String.length (JS.replace_newlines s) <= String.length s)%nat
  /\ ((String.length s <= 300)%nat -> clean = JS.replace_newlines s)
  /\ (forall error,
        ffmpegStderr error = Some s -> s <> "" -> message error <> "" ->
        Server.clientErrorMessage error
        = message error +:+ " (Details: " +:+ clean
            +:+ (if (300 <? String.length s)%nat then "..." else "") +:+ ")")
  /\ (forall error,
        truthy (ffmpegStderr error) = false -> message error <> "" ->
        Server.clientErrorMessage error = message error).
Proof.
  intros clean. subst clean.
  split; [apply substring0_chars, replace_newlines_chars|].
  split; [apply substring0_length|].
  split; [apply replace_newlines_length|].
  split.
  { intros H. apply substring0_all. etrans; [apply replace_newlines_length | exact H]. }
  split.
  - intros error Hs Hne Hm. unfold Server.clientErrorMessage. rewrite Hs.
    apply String.eqb_neq in Hne, Hm. by rewrite Hne, Hm.
  - intros error Hs Hm. unfold Server.clientErrorMessage.
    apply String.eqb_neq in Hm. rewrite Hm.
    unfold truthy in Hs. destruct (ffmpegStderr error) as [s'|]; [|reflexivity].
    apply negb_false_iff in Hs. by rewrite Hs.
Qed.

(** *** The handler of [POST /process-video] *)



(** X6. When the handler answers with status 200, the job has started its
    three children in order, and the file the answer names is the one the
    compose stage was told to write: the output of the compose call is
    [OUTPUT_DIR] joined with the output file name of the answer, and the
    download URL is [/processed/] followed by that name. *)
Theorem success_names_the_composed_file env fuel req w :
  wp (Server.process_video env fuel req)
    (fun r w' =>
       forall resp, r = Ret resp -> Server.status resp = 200 ->
       exists v name probe loop compose,
         Server.videoFile req = Some v
         /\ name = Server.outputFileName_of env (Server.originalname v)
                     (Date_now env (clock_reads w))
         /\ Server.json_outputFileName resp = Some name
         /\ Server.json_downloadUrl resp = Some ("/processed/" +:+ name)
         /\ Server.json_success resp = true
         /\ Server.json_message resp = "Video processed successfully!"
         /\ spawns (trace w') = spawns (trace w) ++ [probe; loop; ("ffmpeg", compose)]
         /\ output compose = Some (path_resolve env [OUTPUT_DIR env; name])) w
  /\ fst (Server.process_video Sample.happy 10 (Cases.request "3" None) Sample.uploaded)
     = Ret {| Server.status := 200;
              Server.json_success := true;
              Server.json_message := "Video processed successfully!";
              Server.json_downloadUrl :=
                Some "/processed/looped_my_clip_1700000000000.mp4";
              Server.json_outputFileName := Some "looped_my_clip_1700000000000.mp4" |}.
Proof.
  split; [|vm_compute; reflexivity].
  pose proof (route_exits env fuel req w) as H. unfold wp in *.
  intros resp Hr Hs.
  destruct H as [(E & _)|(v & a & Hv & Ha & [(_ & E & _)|(Hacc & jr & w1 & Hjob & Hcase)])].
  - rewrite E in Hr. injection Hr as <-. discriminate.
  - rewrite E in Hr. injection Hr as <-. discriminate.
  - destruct jr as [res|e|].
    + destruct Hcase as [E ->]. rewrite E in Hr. injection Hr as <-.
      pose proof (job_returns env fuel (Server.path v) (Server.path a)
                    (loops_of (Server.body_numLoops req))
                    (Server.outputFileName_of env (Server.originalname v)
                       (Date_now env (clock_reads w)))
                    (fullHD_of (Server.body_fullHD req)) (tick w)) as Hj.
      unfold wp in Hj. rewrite Hjob in Hj. cbn [fst snd] in Hj.
      destruct (Hj res eq_refl) as (_ & _ & _ & Hsp & _).
      exists v. eexists. unfold children_of in Hsp. do 3 eexists.
      split; [exact Hv|]. split; [reflexivity|].
      do 4 (split; [reflexivity|]).
      split; [rewrite spawns_uploads_removed; exact Hsp|].
      apply compose_output.
    + destruct Hcase as [E _]. rewrite E in Hr. injection Hr as <-. discriminate.
    + destruct Hcase as [E _]. rewrite E in Hr. discriminate.
Qed.

(** X7. When the handler answers after the loop stage or the compose stage
    was started and the status is not 200, the stage ended with another code
    than 0 or could not be started, the status is 500, and the message is
    [Video processing failed: ] followed by the message of that failure and
    nothing else: what the encoder wrote to its standard error is not sent
    to the client. *)
Theorem stage_failure_sends_no_details env fuel req w :
  wp (Server.process_video env fuel req)
    (fun r w' =>
       forall k resp,
         spawns (trace w') = spawns (trace w) ++ k -> (2 <= length k)%nat ->
         r = Ret resp -> Server.status resp <> 200 ->
         exists c args fs,
           last k = Some ("ffmpeg", args)
           /\ c = fst (spawn_child env "ffmpeg" args fs)
           /\ command_failed c = true
           /\ resp = {| Server.status := 500;
                        Server.json_success := false;
                        Server.json_message :=
                          "Video processing failed: "
                            +:+ command_error_message "ffmpeg" c;
                        Server.json_downloadUrl := None;
                        Server.json_outputFileName := None |}) w
  /\ fst (Server.process_video Cases.loop_fails 10 (Cases.request "3" None)
            Sample.uploaded)
     = Ret {| Server.status := 500;
              Server.json_success := false;
              Server.json_message :=
                "Video processing failed: Command " +:+ dq +:+ "ffmpeg" +:+ dq
                  +:+ " failed with code 1.";
              Server.json_downloadUrl := None;
              Server.json_outputFileName := None |}.
Proof.
  split; [|vm_compute; reflexivity].
  pose proof (route_exits env fuel req w) as H. unfold wp in *.
  intros k resp Hk Hlen Hr Hs.
  assert (Hquiet : forall w', quiet w w' -> spawns (trace w') = spawns (trace w) ++ k ->
                              False).
  { intros w' (Hq & _) E. rewrite Hq in E.
    rewrite <- (app_nil_r (spawns (trace w))) in E at 1.
    apply app_inv_head in E. subst k. simpl in Hlen. lia. }
  destruct H as [(_ & _ & Hq)|(v & a & Hv & Ha & [(_ & _ & Hq)|(Hacc & jr & w1 & Hjob & Hcase)])];
    [exfalso; eauto..|].
  destruct jr as [res|e|].
  - destruct Hcase as [E _]. rewrite E in Hr. injection Hr as <-. exfalso. by apply Hs.
  - destruct Hcase as [E Ew]. rewrite E in Hr. injection Hr as <-.
    rewrite Ew, spawns_uploads_removed in Hk.
    pose proof (job_throws env fuel (Server.path v) (Server.path a)
                  (loops_of (Server.body_numLoops req))
                  (Server.outputFileName_of env (Server.originalname v)
                     (Date_now env (clock_reads w)))
                  (fullHD_of (Server.body_fullHD req)) (tick w)) as Hj.
    unfold wp in Hj. rewrite Hjob in Hj. cbn [fst snd] in Hj.
    specialize (Hj e k eq_refl Hk). cbv zeta in Hj.
    destruct (accepted _ _ _ _ _).
    + destruct Hj as (inner & _ & [->|(c & args & fs & fs' & _ & Hl & Hc & Hf & ->)]).
      * simpl in Hlen. lia.
      * exists c, args, fs. split; [exact Hl|]. split; [by rewrite Hc|].
        split; [exact Hf|]. reflexivity.
    + destruct Hj as [-> _]. simpl in Hlen. lia.
  - destruct Hcase as [E _]. rewrite E in Hr. discriminate.
Qed.

(** X8. When the job gets past its checks and the probe ends with another
    code than 0 after writing a text that is not empty to its standard error,
    the answer has status 500 and its message quotes that text: the message of
    the failed command, then [(Details: ...)] with the text cleaned of line
    breaks and cut to 300 characters. *)
Theorem probe_failure_details_reach_the_client env fuel v a body hd w exitCode out err fs :
  loops_refused (loops_of body) = false ->
  accepted env (Server.path v) (Server.path a) (loops_of body) (files w) = true ->
  spawn_child env "ffprobe"
    (Server.probeArgs (path_resolve env [Server.path v])) (files w)
  = (Closed exitCode out err, fs) ->
  exitCode <> Some 0 -> err <> "" ->
  wp (Server.process_video env fuel
        {| Server.videoFile := Some v; Server.audioFile := Some a;
           Server.body_numLoops := body; Server.body_fullHD := hd |})
    (fun r _ =>
       r = Ret {| Server.status := 500;
                  Server.json_success := false;
                  Server.json_message :=
                    "Video processing failed: Failed to get video duration for "
                      +:+ dq +:+ path_resolve env [Server.path v] +:+ dq +:+ ". "
                      +:+ "Command " +:+ dq +:+ "ffprobe" +:+ dq +:+ " failed with code "
                      +:+ Server.show_code exitCode +:+ "."
                      +:+ " (Details: " +:+ JS.substring0 300 (JS.replace_newlines err)
                      +:+ (if (300 <? String.length err)%nat then "..." else "") +:+ ")";
                  Server.json_downloadUrl := None;
                  Server.json_outputFileName := None |}) w.
Proof.
  intros Hloops Hacc Hprobe Hcode Herr.
  unfold wp. rewrite route_accepted_run by exact Hloops. cbv zeta.
  pose proof (job_probe_fails env fuel (Server.path v) (Server.path a) (loops_of body)
                (Server.outputFileName_of env (Server.originalname v)
                   (Date_now env (clock_reads w)))
                (fullHD_of hd) (tick w) exitCode out err fs Hacc Hprobe Hcode) as Hj.
  unfold wp in Hj.
  destruct (Server.createLoopedVideoWithAudio _ _ _ _ _ _ _ _) as [jr w1].
  cbn [fst] in *. subst jr. cbn [fst]. f_equal. unfold failure. f_equal.
  unfold Server.clientErrorMessage. cbn [message ffmpegStderr command_error_message].
  apply String.eqb_neq in Herr. rewrite Herr. cbv beta iota. rewrite Herr.
  match goal with
  | |- context [String.eqb (String ?c ?m +:+ ?x) ""] =>
      change (String.eqb (String c m +:+ x) "") with false
  end.
  cbv beta iota. rewrite !append_assoc. reflexivity.
Qed.

(** The probe of [Cases.probe_fails] ends with code 1 and one line on its
    standard error. *)
Lemma probe_failure_details_reach_the_client_witness :
  fst (Server.process_video Cases.probe_fails 10 (Cases.request "3" None) Sample.uploaded)
  = Ret {| Server.status := 500;
           Server.json_success := false;
           Server.json_message :=
             "Video processing failed: Failed to get video duration for "
               +:+ dq +:+ "/srv/app/uploads/v.mp4" +:+ dq +:+ ". "
               +:+ "Command " +:+ dq +:+ "ffprobe" +:+ dq +:+ " failed with code 1."
               +:+ " (Details: v.mp4: Invalid data found when processing input )";
           Server.json_downloadUrl := None;
           Server.json_outputFileName := None |}.
Proof.
  refine (probe_failure_details_reach_the_client Cases.probe_fails 10
            {| Server.path := "/srv/app/uploads/v.mp4";
               Server.originalname := "my clip.mp4" |}
            {| Server.path := "/srv/app/uploads/a.mp3"; Server.originalname := "a.mp3" |}
            (Some "3") None Sample.uploaded (Some 1) ""
            ("v.mp4: Invalid data found when processing input" +:+ Server.nl)
            (files Sample.uploaded) _ _ _ _ _);
    [vm_compute; reflexivity | vm_compute; reflexivity | vm_compute; reflexivity
    | discriminate | discriminate].
Defined.

(** X9. After the handler has answered a request that came with both
    uploads, whatever its loop count and however the job ended, the two
    uploads are gone from disk when no deletion fails.  When the loop count
    was accepted and the video upload is still there, its deletion failed:
    the last things the handler did are the existence check, the failed
    deletion and one warning with the reason, so the deletion of the audio
    upload was not tried. *)
Theorem uploads_are_removed_after_the_answer env fuel v a body hd w :
  let req := {| Server.videoFile := Some v; Server.audioFile := Some a;
                Server.body_numLoops := body; Server.body_fullHD := hd |} in
  wp (Server.process_video env fuel req)
    (fun r w' =>
       forall resp, r = Ret resp ->
       (unlink_error env (Server.path v) = None ->
        unlink_error env (Server.path a) = None ->
        files w' !! Server.path v = None /\ files w' !! Server.path a = None)
       /\ (loops_refused (loops_of body) = false ->
           is_Some (files w' !! Server.path v) ->
           exists msg before,
             unlink_error env (Server.path v) = Some msg
             /\ trace w'
                = before
                    ++ [ ExistsSync (Server.path v) true;
                         Unlink (Server.path v);
                         Warn ("Warning: Could not delete one or more uploaded files "
                                 +:+ "post-processing: " +:+ msg) ])) w.
Proof.
  intros req. subst req.
  destruct (loops_refused (loops_of body)) eqn:Hl.
  - unfold Server.process_video, Server.unlink_if_exists_or_warn.
    cbn [Server.videoFile Server.audioFile Server.body_numLoops].
    unfold loops_refused, loops_of in Hl. rewrite Hl.
    wp_run_post.
    all: intros resp _; (split; [|discriminate]); intros Hv Ha.
    all: try congruence.
    all: try absurd_lookup.
    all: cbn [files set_files record]; split.
    all: repeat first
           [ assumption
           | apply lookup_delete_eq
           | match goal with
             | |- delete ?p ?m !! ?q = None =>
                 destruct (decide (p = q)) as [->|?];
                 [apply lookup_delete_eq | rewrite lookup_delete_ne by done]
             end ].
  - unfold wp. rewrite route_accepted_run by exact Hl. cbv zeta.
    destruct (Server.createLoopedVideoWithAudio _ _ _ _ _ _ _ _) as [[res|e|] w1];
      cbn [fst snd]; intros resp Hr; try discriminate.
    all: split; [intros Hv Ha; by apply uploads_removed_gone|].
    all: intros _ Hs; apply uploads_removed_left in Hs as (msg & Hm & ->).
    all: exists msg, (trace w1); (split; [exact Hm|]).
    all: cbn [trace record upload_warning]; rewrite <- !app_assoc; reflexivity.
Qed.

(** X10. A request that lacks the video or the audio upload is answered
    with status 400 and [Both video and audio files are required.], whatever
    its loop count: no child is started, no file is written, the clock is not
    read, no file is created or changed, and the upload that did arrive is
    deleted when its deletion does not fail. *)
Theorem missing_upload_is_refused env fuel req w :
  Server.videoFile req = None \/ Server.audioFile req = None ->
  wp (Server.process_video env fuel req)
    (fun r w' =>
       r = Ret {| Server.status := 400;
                  Server.json_success := false;
                  Server.json_message := "Both video and audio files are required.";
                  Server.json_downloadUrl := None;
                  Server.json_outputFileName := None |}
       /\ spawns (trace w') = spawns (trace w)
       /\ execs (trace w') = execs (trace w)
       /\ writes (trace w') = writes (trace w)
       /\ clock_reads w' = clock_reads w
       /\ files w' ⊆ files w
       /\ forall f,
            Server.videoFile req = Some f \/ Server.audioFile req = Some f ->
            unlink_error env (Server.path f) = None ->
            files w' !! Server.path f = None) w.
Proof.
  intros Hm. pose proof (route_missing_run env fuel req w Hm) as H.
  unfold wp, quiet, missing_files in *. tauto.
Qed.

(** A request with a valid loop count and the video only. *)
Lemma missing_upload_is_refused_witness :
  let req :=
    {| Server.videoFile :=
         Some {| Server.path := "/srv/app/uploads/v.mp4";
                 Server.originalname := "my clip.mp4" |};
       Server.audioFile := None;
       Server.body_numLoops := Some "3";
       Server.body_fullHD := None |} in
  let run := Server.process_video Sample.happy 10 req Sample.uploaded in
  Server.status <$> (match fst run with Ret resp => Some resp | _ => None end) = Some 400
  /\ files (snd run) !! "/srv/app/uploads/v.mp4" = None
  /\ is_Some (files (snd run) !! "/srv/app/uploads/a.mp3").
Proof.
  intros req run.
  pose proof (missing_upload_is_refused Sample.happy 10 req Sample.uploaded
                (or_intror eq_refl)) as H.
  unfold wp in H. fold run in H. destruct H as (Hr & _ & _ & _ & _ & _ & Hf).
  split; [by rewrite Hr|].
  split; [exact (Hf _ (or_introl eq_refl) eq_refl)|].
  vm_compute. eauto.
Defined.

(** X11. The manifest a request makes the server write has as many lines
    as [parseInt] reads from the loop-count field, a number from 1 to 1000:
    the handler writes nothing, or it writes the manifest of the job it
    starts, once.  What follows the leading integer of the field is ignored
    ([2.9] is two loops, [0x10] sixteen, [1e3] one). *)
Theorem request_manifest_has_the_parsed_count env fuel req w :
  (1000 < fuel)%nat ->
  wp (Server.process_video env fuel req)
    (fun _ w' =>
       writes (trace w') = writes (trace w)
       \/ exists v n,
            Server.videoFile req = Some v
            /\ JS.parseInt (match Server.body_numLoops req with
                            | Some s => s
                            | None => "undefined"
                            end) = JS.ofZ n
            /\ 1 <= n <= 1000
            /\ writes (trace w')
               = writes (trace w)
                   ++ [ (Server.tempConcatFilePath env (Date_now env (S (clock_reads w))),
                         manifest
                           (repeat
                              (directive
                                 (JS.replace_backslashes
                                    (path_resolve env [Server.path v])))
                              (Z.to_nat n))) ]) w
  /\ map JS.parseInt [ "3"; "2.9"; " 7 times"; "0x10"; "1e3"; "+5" ]
     = map JS.ofZ [ 3; 2; 7; 16; 1; 5 ].
Proof.
  intros Hf. split; [|vm_compute; reflexivity].
  pose proof (route_exits env fuel req w) as H. unfold wp in *.
  destruct H as [(_ & _ & Hq)|(v & a & Hv & Ha & [(_ & _ & Hq)|(Hacc & jr & w1 & Hjob & Hcase)])].
  - left. apply Hq.
  - left. apply Hq.
  - pose proof (job_writes env fuel (Server.path v) (Server.path a)
                  (loops_of (Server.body_numLoops req))
                  (Server.outputFileName_of env (Server.originalname v)
                     (Date_now env (clock_reads w)))
                  (fullHD_of (Server.body_fullHD req)) (tick w)) as Hw.
    unfold wp in Hw. rewrite Hjob in Hw. cbn [fst snd tick trace clock_reads] in Hw.
    destruct Hw as (ws & Hws & Hcases).
    assert (E : writes (trace (snd (Server.process_video env fuel req w)))
                = writes (trace w) ++ ws).
    { destruct jr; destruct Hcase as [_ ->];
        rewrite ?writes_uploads_removed; exact Hws. }
    rewrite E. destruct Hcases as [->|(content & Hc & ->)].
    + left. by rewrite app_nil_r.
    + right. apply loops_refused_false in Hacc as (n & Hn & Hr).
      exists v, n. split; [exact Hv|]. split; [exact Hn|]. split; [exact Hr|].
      rewrite Hn in Hc. rewrite concat_loop_integer in Hc by lia.
      by injection Hc as <-.
Qed.

(** Two and a bit loops, with the loop followed for 1001 tests. *)
Lemma request_manifest_has_the_parsed_count_witness :
  (1000 < 1001)%nat
  /\ writes (trace (snd (Server.process_video Sample.happy 1001 (Cases.request "2.9" None)
                           Sample.uploaded)))
     = [ ("/srv/app/uploads/ffmpeg_concat_1700000000001.txt",
          manifest (repeat (directive "/srv/app/uploads/v.mp4") 2)) ].
Proof.
  split; [lia|].
  destruct (proj1 (request_manifest_has_the_parsed_count Sample.happy 1001
                     (Cases.request "2.9" None) Sample.uploaded ltac:(lia)))
    as [H|(v & n & Hv & Hn & _ & H)].
  - vm_compute in H. discriminate.
  - injection Hv as <-. vm_compute in Hn. injection Hn as <-.
    rewrite H. vm_compute. reflexivity.
Defined.

(** X12. The compose stage of a request re-encodes to 1920x1080 exactly
    when the [fullHD] field of the body is the text [true]: an absent field,
    or any other text ([True], [on], [1], [ true]), gives a stream copy. *)
Theorem fullHD_needs_the_exact_text env fuel req w :
  let fullHD :=
    bool_decide (Server.body_fullHD req = Some "true") in
  wp (Server.process_video env fuel req)
    (fun _ w' =>
       exists k,
         spawns (trace w') = spawns (trace w) ++ k
         /\ (length k <= 3)%nat
         /\ forall command args,
              k !! 2%nat = Some (command, args) ->
              let opts := output_options (options args) in
              command = "ffmpeg"
              /\ values_of "-c:v" opts = [if fullHD then "libx264" else "copy"]
              /\ values_of "-vf" opts = (if fullHD then ["scale=1920:1080"] else [])
              /\ values_of "-preset" opts = (if fullHD then ["medium"] else [])
              /\ values_of "-crf" opts = (if fullHD then ["23"] else [])) w.
Proof.
  intros fullHD.
  assert (Hfull : fullHD = fullHD_of (Server.body_fullHD req)).
  { subst fullHD. unfold fullHD_of. destruct (Server.body_fullHD req) as [s|].
    - destruct (String.eqb s "true") eqn:E.
      + apply String.eqb_eq in E. subst s. by apply bool_decide_eq_true.
      + apply String.eqb_neq in E. apply bool_decide_eq_false. congruence.
    - by apply bool_decide_eq_false. }
  rewrite Hfull. clear Hfull fullHD.
  pose proof (route_exits env fuel req w) as H. unfold wp in *.
  assert (Hquiet : forall w', quiet w w' ->
            exists k, spawns (trace w') = spawns (trace w) ++ k /\ (length k <= 3)%nat
              /\ forall command args, k !! 2%nat = Some (command, args) ->
                   let opts := output_options (options args) in
                   command = "ffmpeg"
                   /\ values_of "-c:v" opts
                      = [if fullHD_of (Server.body_fullHD req) then "libx264" else "copy"]
                   /\ values_of "-vf" opts
                      = (if fullHD_of (Server.body_fullHD req)
                         then ["scale=1920:1080"] else [])
                   /\ values_of "-preset" opts
                      = (if fullHD_of (Server.body_fullHD req) then ["medium"] else [])
                   /\ values_of "-crf" opts
                      = (if fullHD_of (Server.body_fullHD req) then ["23"] else [])).
  { intros w' (Hq & _). exists []. rewrite app_nil_r. split; [exact Hq|].
    split; [simpl; lia|]. intros ? ? [=]. }
  destruct H as [(_ & _ & Hq)|(v & a & Hv & Ha & [(_ & _ & Hq)|(Hacc & jr & w1 & Hjob & Hcase)])];
    [by apply Hquiet..|].
  pose proof (job_trace env fuel (Server.path v) (Server.path a)
                (loops_of (Server.body_numLoops req))
                (Server.outputFileName_of env (Server.originalname v)
                   (Date_now env (clock_reads w)))
                (fullHD_of (Server.body_fullHD req)) (tick w)) as Ht.
  unfold wp in Ht. rewrite Hjob in Ht. cbn [fst snd tick trace] in Ht.
  destruct Ht as [(k & Hk & Hs) _]. exists k.
  split.
  { destruct jr; destruct Hcase as [_ ->]; rewrite ?spawns_uploads_removed; exact Hs. }
  split.
  { apply prefix_length in Hk. exact Hk. }
  intros command args Hl. cbv zeta.
  eapply prefix_lookup_Some in Hl; [|exact Hk].
  unfold children_of in Hl. cbn in Hl. injection Hl as <- <-.
  split; [reflexivity|].
  destruct (compose_video
              (Server.tempLoopedVideoPath env (Date_now env (S (clock_reads (tick w)))))
              (path_resolve env [Server.path a])
              (JS.mul (probed env (path_resolve env [Server.path v]) (files (tick w)))
                 (loops_of (Server.body_numLoops req)))
              (path_resolve env
                 [OUTPUT_DIR env;
                  Server.outputFileName_of env (Server.originalname v)
                    (Date_now env (clock_reads w))])
              (fullHD_of (Server.body_fullHD req))) as (H1 & H2 & H3 & H4 & _).
  auto.
Qed.

(** *** The job of [server.js] *)

(** X13. When [createLoopedVideoWithAudio] of [server.js] returns, it
    returns [success: true] with the output path [OUTPUT_DIR] joined with the
    given name; both inputs were found, the probe gave a valid duration, the
    manifest was written, and the three children were started in order, each
    of them ending with exit code 0. *)
Theorem job_result_means_every_stage_succeeded env fuel vin ain numLoops out fullHD w :
  let tmp1 := Server.tempConcatFilePath env (Date_now env (clock_reads w)) in
  let tmp2 := Server.tempLoopedVideoPath env (Date_now env (S (clock_reads w))) in
  let abs := path_resolve env [vin] in
  let stages :=
    [ ("ffprobe", Server.probeArgs abs);
      ("ffmpeg", Server.loopArgs tmp1 tmp2);
      ("ffmpeg",
       Server.combineArgs tmp2 (path_resolve env [ain]) fullHD
         (JS.mul (probed env abs (files w)) numLoops)
         (path_resolve env [OUTPUT_DIR env; out])) ] in
  wp (Server.createLoopedVideoWithAudio env fuel vin ain numLoops out fullHD)
    (fun r w' =>
       forall res, r = Ret res ->
       res = {| Server.success := true;
                Server.outputPath := path_resolve env [OUTPUT_DIR env; out];
                Server.outputFileName := out |}
       /\ accepted env vin ain numLoops (files w) = true
       /\ valid_duration (probed env abs (files w)) = true
       /\ spawns (trace w') = spawns (trace w) ++ stages
       /\ Forall (fun child : string * list string =>
                    exists fs,
                      command_failed (fst (spawn_child env child.1 child.2 fs)) = false)
            stages
       /\ exists content, writes (trace w') = writes (trace w) ++ [(tmp1, content)]) w
  /\ fst (Server.createLoopedVideoWithAudio Sample.happy 10
            "/srv/app/uploads/v.mp4" "/srv/app/uploads/a.mp3" (JS.ofZ 4) "out.mp4" false
            Sample.uploaded)
     = Ret {| Server.success := true;
              Server.outputPath := "/srv/app/public/processed/out.mp4";
              Server.outputFileName := "out.mp4" |}.
Proof.
  intros tmp1 tmp2 abs stages. split; [|vm_compute; reflexivity].
  pose proof (job_returns env fuel vin ain numLoops out fullHD w) as H.
  unfold wp in *. intros res Hr.
  destruct (H res Hr) as (H1 & H2 & H3 & H4 & H5 & content & _ & H6).
  repeat split; try assumption. by exists content.
Qed.

(** X14. The three checks of [createLoopedVideoWithAudio] of [server.js]
    are made in the order video, audio, loop count, and the first that fails
    decides the error: its message is thrown as it is, the clock is not read
    and no file is touched.  Every error thrown past the checks is a new error
    whose message is [Video processing failed: ] followed by the message of
    the error it replaces; it has no [originalError], no [code] and no
    [stdout] or [stderr] of its own. *)
Theorem job_errors_name_the_check_or_are_wrapped env fuel vin ain numLoops out fullHD w :
  let absV := path_resolve env [vin] in
  let absA := path_resolve env [ain] in
  wp (Server.createLoopedVideoWithAudio env fuel vin ain numLoops out fullHD)
    (fun r w' =>
       forall e, r = Throw e ->
       (files w !! absV = None ->
        e = newError ("Input video file not found at '" +:+ absV
                        +:+ "' (post-upload check)"))
       /\ (is_Some (files w !! absV) -> files w !! absA = None ->
           e = newError ("Input audio file not found at '" +:+ absA
                           +:+ "' (post-upload check)"))
       /\ (is_Some (files w !! absV) -> is_Some (files w !! absA) ->
           JS.le numLoops (JS.ofZ 0) = true ->
           e = newError "Number of loops must be a positive integer.")
       /\ (accepted env vin ain numLoops (files w) = false ->
           files w' = files w /\ clock_reads w' = clock_reads w
           /\ spawns (trace w') = spawns (trace w)
           /\ writes (trace w') = writes (trace w))
       /\ (accepted env vin ain numLoops (files w) = true ->
           exists inner,
             message e = "Video processing failed: " +:+ message inner
             /\ originalError e = None /\ code e = None
             /\ stdout e = None /\ stderr e = None)) w.
Proof.
  intros absV absA. subst absV absA.
  pose proof (job_throws env fuel vin ain numLoops out fullHD w) as Ht.
  pose proof (job_trace env fuel vin ain numLoops out fullHD w) as Hk.
  pose proof (job_cleanup env fuel vin ain numLoops out fullHD w) as Hc.
  pose proof (job_clock env fuel vin ain numLoops out fullHD w) as Hclock.
  unfold wp in *. intros e Hr.
  destruct Hk as [(k & _ & Hk) _].
  specialize (Ht e k Hr Hk). cbv zeta in Ht.
  unfold accepted in *. rewrite Hr in Hc.
  destruct (files w !! path_resolve env [vin]) as [x|] eqn:Ev.
  - rewrite (bool_decide_true (is_Some (Some x))) in * by eauto.
    destruct (files w !! path_resolve env [ain]) as [y|] eqn:Ea.
    + rewrite (bool_decide_true (is_Some (Some y))) in * by eauto.
      cbn [andb] in *.
      destruct (JS.le numLoops (JS.ofZ 0)) eqn:El; rewrite ?El in *; cbn [negb] in *.
      * destruct Ht as [_ ->]. destruct Hc as (_ & Hf & Hs & Hw).
        repeat split; try done.
      * destruct Ht as (inner & -> & _).
        repeat split; try done. intros _. exists inner. by repeat split.
    + rewrite (bool_decide_false (is_Some None)) in * by (intros [? [=]]).
      cbn [andb] in *. destruct Ht as [_ ->]. destruct Hc as (_ & Hf & Hs & Hw).
      repeat split; try done.
  - rewrite (bool_decide_false (is_Some None)) in * by (intros [? [=]]).
    cbn [andb] in *. destruct Ht as [_ ->]. destruct Hc as (_ & Hf & Hs & Hw).
    repeat split; try done.
Qed.

(** X15. The guard [numLoops <= 0] of [createLoopedVideoWithAudio] of
    [server.js] does not stop a loop count that is not a number: with [NaN]
    the job gets past its checks as soon as both inputs are there, the
    manifest it writes is empty, and the compose stage is given [-t NaN].
    The handler of [/process-video] refuses such a count before. *)
Theorem nan_loop_count_passes_the_guard env fuel vin ain out fullHD w :
  (0 < fuel)%nat ->
  let abs := path_resolve env [vin] in
  let tmp1 := Server.tempConcatFilePath env (Date_now env (clock_reads w)) in
  accepted env vin ain JS.NaN (files w)
  = bool_decide (is_Some (files w !! abs))
    && bool_decide (is_Some (files w !! path_resolve env [ain]))
  /\ wp (Server.createLoopedVideoWithAudio env fuel vin ain JS.NaN out fullHD)
       (fun r w' =>
          (accepted env vin ain JS.NaN (files w) = true ->
           valid_duration (probed env abs (files w)) = true ->
           writes (trace w') = writes (trace w) ++ [(tmp1, "")])
          /\ exists k,
               spawns (trace w') = spawns (trace w) ++ k
               /\ forall command args,
                    k !! 2%nat = Some (command, args) ->
                    values_of "-t" (output_options (options args)) = ["NaN"]) w
  /\ loops_refused JS.NaN = true.
Proof.
  intros Hf abs tmp1. split; [|split; [|reflexivity]].
  { unfold accepted. cbn [JS.le negb]. by rewrite andb_true_r. }
  assert (Hloop : Server.concat_loop fuel 0 JS.NaN (JS.replace_backslashes abs) ""
                  = Some "").
  { destruct fuel; [lia | reflexivity]. }
  pose proof (fun Ha Hv => job_progress env fuel vin ain JS.NaN out fullHD w "" Ha Hv Hloop)
    as Hp.
  pose proof (job_trace env fuel vin ain JS.NaN out fullHD w) as Ht.
  unfold wp in *. split.
  - intros Ha Hv. exact (proj1 (Hp Ha Hv)).
  - destruct Ht as [(k & Hk & Hs) _]. exists k. split; [exact Hs|].
    intros command args Hl. eapply prefix_lookup_Some in Hl; [|exact Hk].
    unfold children_of in Hl. cbn [lookup list_lookup] in Hl. injection Hl as <- <-.
    rewrite compose_cap.
    by destruct (probed env (path_resolve env [vin]) (files w)).
Qed.

(** A run with [NaN] for the loop count. *)
Lemma nan_loop_count_passes_the_guard_witness :
  (0 < 10)%nat
  /\ writes (trace (snd (Server.createLoopedVideoWithAudio Sample.happy 10
                           "/srv/app/uploads/v.mp4" "/srv/app/uploads/a.mp3"
                           JS.NaN "out.mp4" false Sample.uploaded)))
     = [ ("/srv/app/uploads/ffmpeg_concat_1700000000000.txt", "") ].
Proof.
  split; [lia|].
  refine (proj1 (proj1 (proj2
            (nan_loop_count_passes_the_guard Sample.happy 10
               "/srv/app/uploads/v.mp4" "/srv/app/uploads/a.mp3" "out.mp4" false
               Sample.uploaded _))) _ _);
    [lia | vm_compute; reflexivity | vm_compute; reflexivity].
Defined.

(** *** The job of [VideoLooper.js] *)

(** X16. [createLoopedVideoWithAudio] of [VideoLooper.js] never rejects,
    and the boolean it resolves to says whether everything worked.  When a
    check fails (a missing input, a loop count that is zero or negative) it
    resolves to [false] without touching a file or starting a command.  Past
    the checks and the loop, it resolves to [false] when the manifest cannot
    be written, when the loop command did not end with code 0, and when the
    compose command did not end with code 0; it resolves to [true] when the
    manifest is written and both commands end with code 0.  It has no time
    limit: it waits for ever when the command it is waiting for never ends,
    and only then, the loop set aside, which ends for every loop count that
    is an integer below the number of tests it is followed for. *)
Theorem script_resolves_to_whether_it_worked env fuel vin ain numLoops out w :
  wp (VideoLooper.createLoopedVideoWithAudio env fuel vin ain numLoops out)
    (fun r w' =>
       (forall e, r <> Throw e)
       /\ (accepted env vin ain numLoops (files w) = false ->
           r = Ret false /\ files w' = files w
           /\ execs (trace w') = execs (trace w)
           /\ writes (trace w') = writes (trace w))
       /\ (forall content,
             accepted env vin ain numLoops (files w) = true ->
             Server.concat_loop fuel 0 numLoops
               (JS.replace_backslashes (path_resolve env [vin])) "" = Some content ->
             let looped := fst (script_loop_stage env content w) in
             let composed := fst (script_compose_stage env ain out content w) in
             (is_Some (writeFile_error env (VideoLooper.tempConcatFilePath env)) ->
              r = Ret false)
             /\ (writeFile_error env (VideoLooper.tempConcatFilePath env) = None ->
                 (looped = Pending -> r = Hang)
                 /\ (looped <> Pending -> command_failed looped = true -> r = Ret false)
                 /\ (command_failed looped = false -> composed = Pending -> r = Hang)
                 /\ (command_failed looped = false -> composed <> Pending ->
                     r = Ret (negb (command_failed composed)))))
       /\ (r = Hang ->
           Server.concat_loop fuel 0 numLoops
             (JS.replace_backslashes (path_resolve env [vin])) "" = None
           \/ exists k, execs (trace w') = execs (trace w) ++ k /\ line_never_ends env k)
       /\ (forall n, numLoops = JS.ofZ n -> (Z.to_nat n < fuel)%nat -> children_end env ->
           r = Ret true \/ r = Ret false)) w
  /\ map (fun n =>
            fst (VideoLooper.createLoopedVideoWithAudio Sample.happy 10
                   "/srv/app/uploads/v.mp4" "/srv/app/uploads/a.mp3" (JS.ofZ n) "out.mp4"
                   Sample.uploaded))
       [2; 0; -1]
     = [Ret true; Ret false; Ret false].
Proof.
  split; [|vm_compute; reflexivity].
  pose proof (script_exits env fuel vin ain numLoops out w) as He.
  pose proof (script_refused env fuel vin ain numLoops out w) as Hc.
  pose proof (fun content => script_result env fuel vin ain numLoops out w content) as Hs.
  unfold wp in *.
  set (r := fst (VideoLooper.createLoopedVideoWithAudio env fuel vin ain numLoops out w))
    in *.
  assert (Hnt : forall e, r <> Throw e) by (intros e E; rewrite E in He; exact He).
  assert (Hh : r = Hang ->
               Server.concat_loop fuel 0 numLoops
                 (JS.replace_backslashes (path_resolve env [vin])) "" = None
               \/ exists k,
                    execs (trace (snd (VideoLooper.createLoopedVideoWithAudio env fuel vin
                                         ain numLoops out w)))
                    = execs (trace w) ++ k /\ line_never_ends env k)
    by (intros E; rewrite E in He; exact He).
  split; [exact Hnt|]. split; [|split; [|split; [exact Hh|]]].
  - intros Ha. destruct (Hc Ha) as (Hr & Hf & Hx & Hw & _). auto.
  - intros content Ha Hl. cbv zeta. specialize (Hs content Ha Hl). split.
    + intros [msg Hm]. by rewrite Hm in Hs.
    + intros Hm. rewrite Hm in Hs.
      destruct (fst (script_loop_stage env content w)) as [?|[[|?|?]|] ? ?|];
        try (repeat split; first [done | intros; exact Hs]).
      destruct (fst (script_compose_stage env ain out content w)) as [?|[[|?|?]|] ? ?|];
        repeat split; first [done | intros; exact Hs].
  - intros n -> Hn [_ Hend].
    destruct r as [[|]|e|] eqn:Er; [auto | auto | by destruct (Hnt e) | exfalso].
    destruct (Hh eq_refl) as [Hnone|(k & _ & c & fs & _ & Hp)].
    + destruct (Z.le_gt_cases 0 n) as [H0|H0].
      * rewrite concat_loop_integer in Hnone by done. discriminate.
      * unfold JS.ofZ in Hnone. rewrite concat_loop_Num in Hnone; [discriminate|].
        rewrite Qceiling_Z. lia.
    + by destruct (Hend c fs).
Qed.

(** X17. When [createLoopedVideoWithAudio] of [VideoLooper.js] resolves to
    [true], both inputs were found, the manifest was written, and the loop
    command line and the compose command line were each run once, in this
    order, and each ended with exit code 0. *)
Theorem script_true_means_both_commands_succeeded env fuel vin ain numLoops out w :
  let lines :=
    [ VideoLooper.loopCommand (VideoLooper.tempConcatFilePath env)
        (VideoLooper.tempLoopedVideoPath env);
      VideoLooper.combineCommand (VideoLooper.tempLoopedVideoPath env)
        (path_resolve env [ain]) (path_resolve env [out]) ] in
  wp (VideoLooper.createLoopedVideoWithAudio env fuel vin ain numLoops out)
    (fun r w' =>
       r = Ret true ->
       accepted env vin ain numLoops (files w) = true
       /\ execs (trace w') = execs (trace w) ++ lines
       /\ Forall (fun line =>
                    exists fs, command_failed (fst (exec_child env line fs)) = false)
            lines
       /\ exists content,
            writes (trace w')
            = writes (trace w) ++ [(VideoLooper.tempConcatFilePath env, content)]) w
  /\ fst (VideoLooper.createLoopedVideoWithAudio Sample.happy 10
            "/srv/app/uploads/v.mp4" "/srv/app/uploads/a.mp3" (JS.ofZ 2) "out.mp4"
            Sample.uploaded)
     = Ret true
  /\ fst (VideoLooper.createLoopedVideoWithAudio Cases.loop_fails 10
            "/srv/app/uploads/v.mp4" "/srv/app/uploads/a.mp3" (JS.ofZ 2) "out.mp4"
            Sample.uploaded)
     = Ret false.
Proof.
  intros lines. split; [|split; vm_compute; reflexivity].
  pose proof (script_exits env fuel vin ain numLoops out w) as He.
  unfold wp in *. intros Hr. rewrite Hr in He. exact He.
Qed.

(** *** The page *)

(** X18. However a submission ends (a file not chosen, a loop count out of
    range, an answer of the server, a failed request), the submit listener
    of [index.html] leaves the form usable and one message on display: the
    button is enabled with its first label, the loading text and the progress
    bar are hidden, and the status is shown with exactly one of the classes
    [success] and [error].  It is [success] exactly when a request was sent
    and answered with an OK status and [success: true]; a download link is
    added at most once, and only then. *)
Theorem page_is_usable_after_every_submit fetch f p :
  let p' := fst (Page.submit fetch f p) in
  let sent := snd (Page.submit fetch f p) in
  Page.submitDisabled p' = false
  /\ Page.submitText p' = "Create Looped Video"
  /\ Page.loadingDisplay p' = "none"
  /\ Page.progressDisplay p' = "none"
  /\ Page.statusDisplay p' = "block"
  /\ (Page.statusClasses p' = ["status"; "success"]
      \/ Page.statusClasses p' = ["status"; "error"])
  /\ (Page.statusClasses p' = ["status"; "success"]
      <-> exists formData result,
            sent = [formData] /\ fetch formData = Page.Answered true result
            /\ Page.success result = true)
  /\ (length (Page.downloadLinks p') <= 1)%nat
  /\ (forall link, In link (Page.downloadLinks p') ->
        Page.statusClasses p' = ["status"; "success"]).
Proof.
  intros p' sent. subst p' sent. unfold Page.submit.
  destruct (Page.videoFile f) as [video|], (Page.audioFile f) as [audio|];
    try (cbn; repeat split; auto; try discriminate; try lia;
         try (intros (? & ? & [=] & _)); try (intros ? []); fail).
  destruct (JS.le _ _ || JS.lt _ _);
    try (cbn; repeat split; auto; try discriminate; try lia;
         try (intros (? & ? & [=] & _)); try (intros ? []); fail).
  destruct (fetch _) as [msg|ok result] eqn:Ef.
  - cbn. repeat split; auto; try discriminate; try lia; try (intros ? []).
    intros (fd & r & [= <-] & E & _). rewrite Ef in E. discriminate.
  - unfold Page.answered.
    destruct ok, (Page.success result) eqn:Es; cbn [andb];
      [destruct (Page.downloadUrl result) as [url|]; [destruct (String.eqb url "")|]|..];
      cbn; repeat split; auto; try discriminate; try lia; try (intros ? []);
      try (intros _; eexists; eexists; repeat split; [exact Ef | exact Es]);
      try (intros (fd & r & [= <-] & E & Hs); rewrite Ef in E; injection E as <-;
           congruence);
      try (intros (fd & r & [= <-] & E & Hs); rewrite Ef in E; discriminate).
Qed.

(** X19. The listener sends at most one request, and only when both files
    are chosen and the loop count passes its check.  The request holds the
    four fields [videoFile], [audioFile], [numLoops] and [fullHD] in this
    order: the loop count is the text of the input as it is, and [fullHD] is
    the text [true] exactly when the box is ticked, which is the text the
    handler compares it with. *)
Theorem page_sends_what_the_form_holds fetch f p :
  let sent := snd (Page.submit fetch f p) in
  (sent = []
   \/ exists video audio,
        Page.videoFile f = Some video /\ Page.audioFile f = Some audio
        /\ JS.le (JS.parseInt (Page.numLoops f)) (JS.ofZ 0) = false
        /\ JS.lt (JS.ofZ 1000) (JS.parseInt (Page.numLoops f)) = false
        /\ sent = [ [ ("videoFile", Page.FilePart video);
                      ("audioFile", Page.FilePart audio);
                      ("numLoops", Page.TextPart (Page.numLoops f));
                      ("fullHD", Page.TextPart (if Page.fullHD f then "true" else "false")) ] ])
  /\ forall formData,
       sent = [formData] ->
       text_field "numLoops" formData = Some (Page.numLoops f)
       /\ bool_decide (text_field "fullHD" formData = Some "true") = Page.fullHD f.
Proof.
  intros sent. subst sent.
  destruct (page_sends_shape fetch f p) as [E|(video & audio & Hv & Ha & Hle & Hgt & E)];
    rewrite E.
  - split; [by left | intros ? [=]].
  - split.
    + right. exists video, audio. do 4 (split; [assumption|]).
      unfold Page.show_bool. reflexivity.
    + intros formData [= <-]. split; [reflexivity|].
      cbn. destruct (Page.fullHD f); reflexivity.
Qed.

(** X20. A request that the page sends is refused by the loop-count check
    of the handler exactly when [parseInt] makes no number of the text: the
    check of the page compares with 0 and 1000 only, and every comparison with
    [NaN] is false, so an empty or non-numeric count is sent and answered with
    status 400; every count the handler accepts passes the check of the
    page. *)
Theorem page_check_lets_through_what_does_not_parse fetch f p :
  let sent := snd (Page.submit fetch f p) in
  let n := JS.parseInt (Page.numLoops f) in
  (forall formData, sent = [formData] ->
     JS.isNaN n = true \/ exists z, n = JS.ofZ z /\ 1 <= z <= 1000)
  /\ (JS.isNaN n = true -> is_Some (Page.videoFile f) -> is_Some (Page.audioFile f) ->
      exists formData, sent = [formData])
  /\ (forall formData env fuel v a w,
        sent = [formData] ->
        let req :=
          {| Server.videoFile := Some v;
             Server.audioFile := Some a;
             Server.body_numLoops := text_field "numLoops" formData;
             Server.body_fullHD := text_field "fullHD" formData |} in
        wp (Server.process_video env fuel req)
          (fun r _ => r = Ret rejection <-> JS.isNaN n = true) w)
  /\ map (fun s => JS.isNaN (JS.parseInt s)) [ ""; "abc"; "-"; "3" ]
     = [ true; true; true; false ].
Proof.
  intros sent n.
  pose proof (page_sends_shape fetch f p) as Hs. fold sent in Hs.
  assert (Hn : forall formData, sent = [formData] ->
            text_field "numLoops" formData = Some (Page.numLoops f)
            /\ (JS.isNaN n = true \/ exists z, n = JS.ofZ z /\ 1 <= z <= 1000)).
  { intros fd Hfd. destruct Hs as [Hs|(video & audio & _ & _ & Hle & Hgt & Hs)];
      [congruence|].
    rewrite Hs in Hfd. injection Hfd as <-. split; [reflexivity|].
    fold n in Hle, Hgt.
    destruct (parseInt_cases (Page.numLoops f)) as [E|[[z E]|[E|E]]];
      fold n in E; rewrite E in *; [by left | | discriminate..].
    right. exists z. split; [reflexivity|].
    rewrite le_ofZ in Hle. rewrite lt_ofZ in Hgt. lia. }
  split; [intros fd Hfd; exact (proj2 (Hn fd Hfd))|].
  split.
  { intros Hnan [video Hv] [audio Ha]. subst sent. unfold Page.submit.
    rewrite Hv, Ha. fold n. destruct n; try discriminate. cbn [JS.le JS.lt orb].
    destruct (fetch _); eexists; reflexivity. }
  split; [|vm_compute; reflexivity].
  intros fd env fuel v a w Hfd req.
  destruct (Hn fd Hfd) as [Hfield Hcases].
  subst req. rewrite Hfield.
  pose proof (route_exits env fuel
                {| Server.videoFile := Some v;
                   Server.audioFile := Some a;
                   Server.body_numLoops := Some (Page.numLoops f);
                   Server.body_fullHD := text_field "fullHD" fd |} w) as H.
  unfold wp in *.
  cbn [Server.videoFile Server.audioFile Server.body_numLoops] in H.
  unfold loops_of in H. fold n in H.
  destruct H as [(_ & [[=]|[=]] & _)|(v' & a' & _ & _ & [(Hr & -> & _)|(Hr & jr & w1 & _ & Hcase)])].
  - split; [intros _|done].
    destruct Hcases as [E|(z & E & Hz)]; [exact E|].
    rewrite E in Hr. unfold loops_refused in Hr. rewrite !lt_ofZ in Hr.
    cbn [JS.isNaN JS.ofZ orb] in Hr. apply orb_true_iff in Hr. lia.
  - assert (Hnot : JS.isNaN n = false).
    { unfold loops_refused in Hr. by destruct (JS.isNaN n). }
    rewrite Hnot. split; [|discriminate].
    destruct jr; destruct Hcase as [-> _]; discriminate.
Qed.

(** *** The duration cap *)

(** X21. For a probed duration that is valid and a loop count that is a
    number and not negative, when their binary64 product is below 10^21 the
    [-t] value of the compose stage is a plain decimal: digits, at least
    one, then a point, then exactly three digits.  From 10^21 on [toFixed]
    writes the number as [String] does, with an exponent: for 3 loops of
    333333333333333311488 seconds the value is [1e+21]. *)
Theorem cap_is_a_plain_decimal tmp audio fullHD (d n : Q) out :
  valid_duration (JS.Num d) = true -> (0 <= n)%Q ->
  JS.lt (JS.mul (JS.Num d) (JS.Num n)) (JS.ofZ (10 ^ 21)) = true ->
  (exists ip fp,
     values_of "-t"
       (output_options
          (options (Server.combineArgs tmp audio fullHD (JS.mul (JS.Num d) (JS.Num n)) out)))
     = [ip +:+ "." +:+ fp]
     /\ (0 < String.length ip)%nat
     /\ all_chars is_digit ip = true
     /\ all_chars is_digit fp = true
     /\ String.length fp = 3%nat)
  /\ values_of "-t"
       (output_options
          (options (Server.combineArgs tmp audio fullHD
                      (JS.mul (JS.ofZ 333333333333333311488) (JS.ofZ 3)) out)))
     = ["1e+21"].
Proof.
  intros Hd Hn Hlt. split; [|by rewrite compose_cap].
  rewrite compose_cap.
  apply positive_of_valid in Hd. unfold JS.lt at 1, JS.ofZ in Hd.
  apply negb_true_iff in Hd.
  assert (Hd' : (0 < d)%Q).
  { apply Qnot_le_lt. intros H. apply Qle_bool_iff in H.
    change (inject_Z 0) with 0%Q in Hd. congruence. }
  cbn [JS.mul] in *.
  destruct (double_nonneg (d * n)) as [E|(p & E & Hp)].
  { apply Qmult_le_0_compat; [by apply Qlt_le_weak | exact Hn]. }
  { rewrite E in Hlt. discriminate. }
  rewrite E in *. unfold JS.lt, JS.ofZ in Hlt. apply negb_true_iff in Hlt.
  assert (Hb : (p < inject_Z (10 ^ 21))%Q).
  { apply Qnot_le_lt. intros H. apply Qle_bool_iff in H. congruence. }
  rewrite toFixed_nonneg by assumption.
  destruct (fixed_digits_format (JS.nearest_scaled 3 p)) as (ip & fp & Ef & H).
  - unfold JS.nearest_scaled. change 0 with (Qfloor 0). apply Qfloor_resp_le.
    change (inject_Z (10 ^ Z.of_nat 3)) with 1000%Q.
    apply Qle_trans with (p * 1000)%Q.
    + apply Qmult_le_0_compat; [exact Hp | discriminate].
    + rewrite <- (Qplus_0_r (p * 1000)) at 1.
      apply Qplus_le_r. discriminate.
  - exists ip, fp. by rewrite Ef.
Qed.

(** A probed 2.5 seconds and four loops. *)
Lemma cap_is_a_plain_decimal_witness :
  valid_duration (JS.Num 2.5) = true /\ (0 <= 4)%Q
  /\ JS.lt (JS.mul (JS.Num 2.5) (JS.Num 4)) (JS.ofZ (10 ^ 21)) = true
  /\ exists ip fp,
       values_of "-t"
         (output_options
            (options (Server.combineArgs "tmp.mp4" "a.mp3" false
                        (JS.mul (JS.Num 2.5) (JS.Num 4)) "out.mp4")))
       = [ip +:+ "." +:+ fp]
       /\ (0 < String.length ip)%nat
       /\ all_chars is_digit ip = true
       /\ all_chars is_digit fp = true
       /\ String.length fp = 3%nat.
Proof.
  split; [reflexivity|]. split; [discriminate|]. split; [vm_compute; reflexivity|].
  apply (cap_is_a_plain_decimal "tmp.mp4" "a.mp3" false 2.5 4 "out.mp4");
    [reflexivity | discriminate | vm_compute; reflexivity].
Defined.

(** *** What is deleted *)

(** X22. Whatever the request and however its job ends, the handler of
    [/process-video] deletes no other file than the two temporary files of the
    job it started and the uploads of the request: every deletion it tries is
    of one of these paths.  The job of [VideoLooper.js] tries to delete its
    two temporary files and nothing else.  In particular neither deletes the
    output file or an input when a stage fails. *)
Theorem only_temporaries_and_uploads_are_deleted env fuel req w :
  wp (Server.process_video env fuel req)
    (fun _ w' =>
       exists evs,
         trace w' = trace w ++ evs
         /\ forall q, In (Unlink q) evs ->
              q = Server.tempConcatFilePath env (Date_now env (S (clock_reads w)))
              \/ q = Server.tempLoopedVideoPath env (Date_now env (S (S (clock_reads w))))
              \/ exists f,
                   (Server.videoFile req = Some f \/ Server.audioFile req = Some f)
                   /\ q = Server.path f) w
  /\ forall vin ain numLoops out,
       wp (VideoLooper.createLoopedVideoWithAudio env fuel vin ain numLoops out)
         (fun _ w' =>
            exists evs,
              trace w' = trace w ++ evs
              /\ forall q, In (Unlink q) evs ->
                   q = VideoLooper.tempConcatFilePath env
                   \/ q = VideoLooper.tempLoopedVideoPath env) w.
Proof.
  split.
  - pose proof (route_extends env fuel req w) as Hx.
    pose proof (route_unlinks env fuel req w) as Hu.
    unfold wp in *. destruct Hx as [evs Hevs]. exists evs. split; [exact Hevs|].
    intros q Hq. apply (Hu (unlinks evs) q); [|by apply in_unlinks].
    rewrite Hevs. apply unlinks_app.
  - intros vin ain numLoops out.
    pose proof (script_extends env fuel vin ain numLoops out w) as Hx.
    pose proof (script_unlinks env fuel vin ain numLoops out w) as Hu.
    unfold wp in *. destruct Hx as [evs Hevs]. exists evs. split; [exact Hevs|].
    intros q Hq. apply (Hu (unlinks evs) q); [|by apply in_unlinks].
    rewrite Hevs. apply unlinks_app.
Qed.

(** *** The probe *)

(** X23. [getVideoDuration] starts one child and does nothing else to the
    outside but print at most one warning: it writes no file, reads no clock,
    and the files after it are those the probe left.  When it prints the
    warning (standard error not blank, standard output blank) it throws: a
    blank output is never a valid duration. *)
Theorem probe_warning_comes_with_a_throw env filePath w :
  wp (Server.getVideoDuration env filePath)
    (fun r w' =>
       (trace w' = trace w ++ [Spawn "ffprobe" (Server.probeArgs filePath)]
        \/ exists msg e,
             trace w'
             = trace w ++ [Spawn "ffprobe" (Server.probeArgs filePath); Warn msg]
             /\ r = Throw e)
       /\ files w'
          = snd (spawn_child env "ffprobe" (Server.probeArgs filePath) (files w))
       /\ clock_reads w' = clock_reads w) w.
Proof.
  unfold Server.getVideoDuration, Server.executeCommand.
  wp_run_post.
  all: match goal with H : spawn_child _ _ _ _ = _ |- _ => rewrite H end; cbn [snd].
  all: cbn [trace record set_files files clock_reads].
  all: (split; [|split; reflexivity]).
  all: rewrite <- ?app_assoc; cbn [app].
  all: try (left; reflexivity).
  all: try (right; eexists; eexists; split; reflexivity).
  all: exfalso.
  all: match goal with
       | H : _ && _ && negb (truthy (Some (JS.trim ?out))) = true,
         H' : JS.isNaN (JS.parseFloat (JS.trim ?out)) || _ = false |- _ =>
           apply andb_true_iff in H as [_ H]; apply negb_true_iff in H;
           unfold truthy in H; apply negb_false_iff, String.eqb_eq in H;
           rewrite H in H'; discriminate
       end.
Qed.

(** *** The C++ port *)

(** X24. [create_looped_video_with_audio] of the C++ port returns in one
    of three ways.  It returns [false] having run and deleted nothing and
    left every file as it was; this is what happens when an input is missing
    or the loop count is not positive, and then nothing was written either.
    Or the loop command ended and failed: it returns [false] and tries to
    delete the manifest only, so [temp_looped_video_only.mp4] stays as that
    command left it.  Or the loop command ended with status 0 and the
    compose command was run and ended: it returns [true] exactly when that
    one ended with status 0 too, and it tries to delete both temporary files
    either way; after [true] without a warning both are gone.  [system]
    waits for the command: when the loop command, or after it the compose
    command, never ends, the function does not return and has deleted
    nothing. *)
Theorem cpp_port_cleans_up_by_exit env vin ain n out w :
  let listed :=
    <[Cpp.temp_concat_file_path :=
        Cpp.concat_lines (Z.to_nat n) (path_resolve env [vin])]> (files w) in
  let looped := exec_child env Cpp.ffmpeg_loop_command listed in
  let combined :=
    exec_child env (Cpp.ffmpeg_combine_command (path_resolve env [ain]) out)
      (snd looped) in
  wp (Cpp.create_looped_video_with_audio env vin ain n out)
    (fun r w' =>
       exists evs,
         trace w' = trace w ++ evs
         /\ ((r = Ret false /\ execs evs = [] /\ unlinks evs = []
              /\ files w' = files w)
             \/ (r = Ret false
                 /\ command_failed (fst looped) = true /\ fst looped <> Pending
                 /\ execs evs = [Cpp.ffmpeg_loop_command]
                 /\ unlinks evs = [Cpp.temp_concat_file_path]
                 /\ files w' !! Cpp.temp_looped_video_path
                    = snd looped !! Cpp.temp_looped_video_path)
             \/ (r = Ret (negb (command_failed (fst combined)))
                 /\ command_failed (fst looped) = false /\ fst combined <> Pending
                 /\ execs evs
                    = [ Cpp.ffmpeg_loop_command;
                        Cpp.ffmpeg_combine_command (path_resolve env [ain]) out ]
                 /\ unlinks evs
                    = [Cpp.temp_concat_file_path; Cpp.temp_looped_video_path]
                 /\ (r = Ret true -> warnings evs = [] ->
                     files w'
                     = delete Cpp.temp_looped_video_path
                         (delete Cpp.temp_concat_file_path (snd combined))))
             \/ (r = Hang /\ fst looped = Pending
                 /\ execs evs = [Cpp.ffmpeg_loop_command] /\ unlinks evs = [])
             \/ (r = Hang /\ command_failed (fst looped) = false /\ fst combined = Pending
                 /\ execs evs
                    = [ Cpp.ffmpeg_loop_command;
                        Cpp.ffmpeg_combine_command (path_resolve env [ain]) out ]
                 /\ unlinks evs = []))
         /\ (files w !! vin = None \/ files w !! ain = None \/ n <= 0 ->
             r = Ret false /\ writes evs = [] /\ execs evs = []
             /\ unlinks evs = [] /\ files w' = files w)
         /\ (r = Hang -> line_never_ends env (execs evs))) w.
Proof.
  intros listed looped combined. subst listed looped combined.
  pose proof (cpp_exits env vin ain n out w) as H. unfold wp in *.
  destruct H as (evs & Ht & _ & Hc & H). exists evs. split; [exact Ht|].
  destruct H as [(Hr & Hx & Hu & Hf & _)|[(Hr & Hx & Hu & c & fs & E & Hl & Hp & Hf)
                |[(Hx & Hu & c1 & fs1 & c2 & fs2 & E1 & E2 & Hl & Hp & Hr & Hf)
                |[(Hr & Hx & Hu & fs & E)|(Hr & Hx & Hu & c1 & fs1 & fs2 & E1 & Hl & E2)]]]].
  - split; [by left|]. split; [|by rewrite Hr].
    intros Hk. destruct (Hc Hk) as [Hw _]. done.
  - split; [right; left; rewrite E; done|]. split; [|by rewrite Hr].
    intros Hk. destruct (Hc Hk) as [_ Hn]. rewrite Hx in Hn. discriminate.
  - split; [right; right; left; rewrite E1; cbn [fst snd]; rewrite E2; done|].
    split; [|by rewrite Hr].
    intros Hk. destruct (Hc Hk) as [_ Hn]. rewrite Hx in Hn. discriminate.
  - split; [do 3 right; left; rewrite E; done|]. split.
    + intros Hk. destruct (Hc Hk) as [_ Hn]. rewrite Hx in Hn. discriminate.
    + intros _. rewrite Hx. eexists _, _. split; [reflexivity|]. by rewrite E.
  - split; [do 4 right; rewrite E1; cbn [fst snd]; rewrite E2; done|]. split.
    + intros Hk. destruct (Hc Hk) as [_ Hn]. rewrite Hx in Hn. discriminate.
    + intros _. rewrite Hx. eexists _, _. split; [reflexivity|]. by rewrite E2.
Qed.

(** X25. When both inputs exist, the loop count is positive and
    [ffmpeg_concat_list.txt] can be opened, the C++ port writes that file
    once: one line [file '<path>'] for each loop, with the absolute path of
    the video as it is (no character of it is replaced or escaped), and the
    loop command is run next. *)
Theorem cpp_port_manifest_repeats_the_absolute_path env vin ain n out w :
  is_Some (files w !! vin) ->
  is_Some (files w !! ain) ->
  0 < n ->
  writeFile_error env Cpp.temp_concat_file_path = None ->
  wp (Cpp.create_looped_video_with_audio env vin ain n out)
    (fun r w' =>
       writes (trace w')
       = writes (trace w)
           ++ [(Cpp.temp_concat_file_path,
                manifest (repeat (directive (path_resolve env [vin])) (Z.to_nat n)))]
       /\ exists k,
            execs (trace w') = execs (trace w) ++ Cpp.ffmpeg_loop_command :: k) w.
Proof.
  intros Hv Ha Hn He.
  pose proof (cpp_exits env vin ain n out w) as H. unfold wp in *.
  destruct H as (evs & Ht & Hw & _ & H). specialize (Hw Hv Ha Hn).
  rewrite Ht, writes_app, execs_app, Hw, concat_lines_manifest.
  split; [reflexivity|].
  destruct H as [(_ & _ & _ & _ & [Hx|Hx])|[(_ & Hx & _)|[(Hx & _)|[(_ & Hx & _)|(_ & Hx & _)]]]].
  - rewrite Hw in Hx. discriminate.
  - rewrite He in Hx. destruct Hx as [? [=]].
  - rewrite Hx. by eexists.
  - rewrite Hx. by eexists.
  - rewrite Hx. by eexists.
  - rewrite Hx. by eexists.
Qed.

(** Two loops of the uploaded video. *)
Lemma cpp_port_manifest_repeats_the_absolute_path_witness :
  is_Some (files Sample.uploaded !! "/srv/app/uploads/v.mp4")
  /\ is_Some (files Sample.uploaded !! "/srv/app/uploads/a.mp3")
  /\ 0 < 2
  /\ writeFile_error Sample.happy Cpp.temp_concat_file_path = None
  /\ writes (trace (snd (Cpp.create_looped_video_with_audio Sample.happy
                           "/srv/app/uploads/v.mp4" "/srv/app/uploads/a.mp3" 2 "out.mp4"
                           Sample.uploaded)))
     = [ ("ffmpeg_concat_list.txt",
          "file '/srv/app/uploads/v.mp4'" +:+ Server.nl
            +:+ "file '/srv/app/uploads/v.mp4'" +:+ Server.nl) ].
Proof.
  assert (Hv : is_Some (files Sample.uploaded !! "/srv/app/uploads/v.mp4"))
    by (vm_compute; eauto).
  assert (Ha : is_Some (files Sample.uploaded !! "/srv/app/uploads/a.mp3"))
    by (vm_compute; eauto).
  split; [exact Hv|]. split; [exact Ha|]. split; [lia|]. split; [reflexivity|].
  exact (proj1 (cpp_port_manifest_repeats_the_absolute_path Sample.happy
                  "/srv/app/uploads/v.mp4" "/srv/app/uploads/a.mp3" 2 "out.mp4"
                  Sample.uploaded Hv Ha ltac:(lia) eq_refl)).
Defined.

